(** * RehabRight: the real-time pose analysis core

    A shallow embedding of the analysis pipeline of the repository:

    - [Angles]  : [src/lib/pose/angles.ts]  (class [AngleCalculator]),
    - [Rules]   : [src/lib/pose/rules.ts]   (class [ExerciseRules]),
    - [Store]   : [src/lib/store.ts]        (the zustand store [useAppStore]),
    - [Rep]     : the rep detector ([class RepDetector], imported by the
                  record page as [@/lib/pose/rep]),
    - [Engine]  : the evaluations and structural checks of [rules.ts],
    - [Assess]  : the template tips of [src/app/api/assess/route.ts].

    JavaScript numbers are IEEE doubles.  They are idealised here: the
    geometry of [angles.ts], which needs [Math.sqrt] and [Math.acos], is
    written over the real numbers [R]; the rules engine and the rep
    detector, which only use field operations and comparisons, are written
    over the rationals [Q] so that they evaluate; millisecond timestamps
    ([Date.now()]) and counters are integers [Z].  Rounding, [NaN] and
    infinities are outside the model. *)

From Stdlib Require Import Reals Lra.
From Stdlib Require Import QArith Qabs Qminmax.
From Stdlib Require Lqa.
From Stdlib Require Import Qround.
From Stdlib Require Import ZArith Lia List String Bool.
Import ListNotations.

(** ** Shared data: [JointAngles] ([angles.ts], lines 3-10)

    The record is polymorphic in the carrier of the six numbers. *)

Record JointAngles (A : Type) : Type := mkJointAngles {
  trunkAngle : A;
  hipAngle : A;
  kneeAngle : A;
  shoulderAngle : A;
  elbowAngle : A;
  ankleAngle : A
}.

Arguments mkJointAngles {A} _ _ _ _ _ _.
Arguments trunkAngle {A} _.
Arguments hipAngle {A} _.
Arguments kneeAngle {A} _.
Arguments shoulderAngle {A} _.
Arguments elbowAngle {A} _.
Arguments ankleAngle {A} _.

(** ** [src/lib/pose/angles.ts] *)

Module Angles.
Local Open Scope R_scope.

(** [PoseLandmark]: [visibility] is an optional field. *)
Record PoseLandmark : Type := mkLandmark {
  x : R;
  y : R;
  z : R;
  visibility : option R
}.

(** The anonymous [{x, y}] objects the vector code builds. *)
Record Vec2 : Type := mkVec2 { vx : R; vy : R }.

(** What indexing yields past the end of the array.  [calculateAngles]
    only indexes after its length check, at positions below 33. *)
Definition undefinedLandmark : PoseLandmark :=
  {| x := 0; y := 0; z := 0; visibility := None |}.

Definition at_index (landmarks : list PoseLandmark) (i : nat) : PoseLandmark :=
  nth i landmarks undefinedLandmark.

Definition SMOOTHING_FACTOR : R := 0.8.

(** [landmark.visibility !== undefined && landmark.visibility > 0.5] *)
Definition isLandmarkVisible (landmark : PoseLandmark) : bool :=
  match visibility landmark with
  | None => false
  | Some v => if Rlt_dec 0.5 v then true else false
  end.

Definition calculateAngleBetweenVectors (v1 v2 : Vec2) : R :=
  let dot := vx v1 * vx v2 + vy v1 * vy v2 in
  let mag1 := sqrt (vx v1 * vx v1 + vy v1 * vy v1) in
  let mag2 := sqrt (vx v2 * vx v2 + vy v2 * vy v2) in
  if Req_dec_T mag1 0 then 0
  else if Req_dec_T mag2 0 then 0
  else
    let cosAngle := dot / (mag1 * mag2) in
    let clampedCos := Rmax (-1) (Rmin 1 cosAngle) in
    let angle := acos clampedCos * (180 / PI) in
    Rmax 0 (Rmin 180 angle).

Definition calculateTrunkAngle (landmarks : list PoseLandmark) : R :=
  let leftHip := at_index landmarks 23 in
  let leftShoulder := at_index landmarks 11 in
  if negb (isLandmarkVisible leftHip) || negb (isLandmarkVisible leftShoulder)
  then 0
  else
    let hipToShoulder :=
      {| vx := x leftShoulder - x leftHip; vy := y leftShoulder - y leftHip |} in
    let magnitude :=
      sqrt (vx hipToShoulder * vx hipToShoulder
            + vy hipToShoulder * vy hipToShoulder) in
    if Req_dec_T magnitude 0 then 0
    else
      let normalized :=
        {| vx := vx hipToShoulder / magnitude;
           vy := vy hipToShoulder / magnitude |} in
      let angle := acos (- vy normalized) * (180 / PI) in
      Rmin 90 (Rmax 0 angle).

(** The five limb angles share one shape: three landmarks [a], [b], [c],
    two vectors, and [180 - acute].  The source repeats the body five
    times; [obtuseAt] is that body, with the two vectors given by the
    caller exactly as each method builds them. *)
Definition obtuseAt (l1 l2 l3 : PoseLandmark) (v1 v2 : Vec2) : R :=
  if negb (isLandmarkVisible l1) || negb (isLandmarkVisible l2)
     || negb (isLandmarkVisible l3)
  then 0
  else
    let acuteAngle := calculateAngleBetweenVectors v1 v2 in
    let obtuseAngle := 180 - acuteAngle in
    obtuseAngle.

Definition calculateHipAngle (landmarks : list PoseLandmark) : R :=
  let leftHip := at_index landmarks 23 in
  let leftKnee := at_index landmarks 25 in
  let leftShoulder := at_index landmarks 11 in
  let trunkVector :=
    {| vx := x leftShoulder - x leftHip; vy := y leftShoulder - y leftHip |} in
  let thighVector :=
    {| vx := x leftKnee - x leftHip; vy := y leftKnee - y leftHip |} in
  obtuseAt leftHip leftKnee leftShoulder trunkVector thighVector.

Definition calculateKneeAngle (landmarks : list PoseLandmark) : R :=
  let leftHip := at_index landmarks 23 in
  let leftKnee := at_index landmarks 25 in
  let leftAnkle := at_index landmarks 27 in
  let thighVector :=
    {| vx := x leftKnee - x leftHip; vy := y leftKnee - y leftHip |} in
  let shinVector :=
    {| vx := x leftAnkle - x leftKnee; vy := y leftAnkle - y leftKnee |} in
  obtuseAt leftHip leftKnee leftAnkle thighVector shinVector.

Definition calculateShoulderAngle (landmarks : list PoseLandmark) : R :=
  let leftShoulder := at_index landmarks 11 in
  let leftElbow := at_index landmarks 13 in
  let leftHip := at_index landmarks 23 in
  let trunkVector :=
    {| vx := x leftHip - x leftShoulder; vy := y leftHip - y leftShoulder |} in
  let upperArmVector :=
    {| vx := x leftElbow - x leftShoulder;
       vy := y leftElbow - y leftShoulder |} in
  obtuseAt leftShoulder leftElbow leftHip trunkVector upperArmVector.

Definition calculateElbowAngle (landmarks : list PoseLandmark) : R :=
  let leftShoulder := at_index landmarks 11 in
  let leftElbow := at_index landmarks 13 in
  let leftWrist := at_index landmarks 15 in
  let upperArmVector :=
    {| vx := x leftElbow - x leftShoulder;
       vy := y leftElbow - y leftShoulder |} in
  let forearmVector :=
    {| vx := x leftWrist - x leftElbow; vy := y leftWrist - y leftElbow |} in
  obtuseAt leftShoulder leftElbow leftWrist upperArmVector forearmVector.

Definition calculateAnkleAngle (landmarks : list PoseLandmark) : R :=
  let leftKnee := at_index landmarks 25 in
  let leftAnkle := at_index landmarks 27 in
  let leftFoot := at_index landmarks 31 in
  let shinVector :=
    {| vx := x leftAnkle - x leftKnee; vy := y leftAnkle - y leftKnee |} in
  let footVector :=
    {| vx := x leftFoot - x leftAnkle; vy := y leftFoot - y leftAnkle |} in
  obtuseAt leftKnee leftAnkle leftFoot shinVector footVector.

(** [previous * SMOOTHING_FACTOR + current * (1 - SMOOTHING_FACTOR)] *)
Definition smoothAngle (current previous : R) : R :=
  previous * SMOOTHING_FACTOR + current * (1 - SMOOTHING_FACTOR).

Definition zeroAngles : JointAngles R :=
  {| trunkAngle := 0; hipAngle := 0; kneeAngle := 0;
     shoulderAngle := 0; elbowAngle := 0; ankleAngle := 0 |}.

(** The local constant [rawAngles] of [calculateAngles]. *)
Definition rawAngles (landmarks : list PoseLandmark) : JointAngles R :=
  {| trunkAngle := calculateTrunkAngle landmarks;
     hipAngle := calculateHipAngle landmarks;
     kneeAngle := calculateKneeAngle landmarks;
     shoulderAngle := calculateShoulderAngle landmarks;
     elbowAngle := calculateElbowAngle landmarks;
     ankleAngle := calculateAnkleAngle landmarks |}.

(** The smoothing memory is the static field
    [AngleCalculator.lastAngles : JointAngles | null]. *)
Definition Memory : Type := option (JointAngles R).

(** [calculateAngles], with the static field threaded through: the
    result is the returned angles and the value of [lastAngles] after
    the call. *)
Definition calculateAngles (landmarks : list PoseLandmark) (lastAngles : Memory)
  : JointAngles R * Memory :=
  if (List.length landmarks <? 33)%nat then (zeroAngles, lastAngles)
  else
    let raw := rawAngles landmarks in
    match lastAngles with
    | Some last =>
        let smoothedAngles :=
          {| trunkAngle := smoothAngle (trunkAngle raw) (trunkAngle last);
             hipAngle := smoothAngle (hipAngle raw) (hipAngle last);
             kneeAngle := smoothAngle (kneeAngle raw) (kneeAngle last);
             shoulderAngle := smoothAngle (shoulderAngle raw) (shoulderAngle last);
             elbowAngle := smoothAngle (elbowAngle raw) (elbowAngle last);
             ankleAngle := smoothAngle (ankleAngle raw) (ankleAngle last) |} in
        (smoothedAngles, Some smoothedAngles)
    | None => (raw, Some raw)
    end.

(** The object literal [smoothedAngles] that [calculateAngles] builds
    when [lastAngles] is set: each raw angle blended with the stored one. *)
Definition smoothedAgainst (raw last : JointAngles R) : JointAngles R :=
  {| trunkAngle := smoothAngle (trunkAngle raw) (trunkAngle last);
     hipAngle := smoothAngle (hipAngle raw) (hipAngle last);
     kneeAngle := smoothAngle (kneeAngle raw) (kneeAngle last);
     shoulderAngle := smoothAngle (shoulderAngle raw) (shoulderAngle last);
     elbowAngle := smoothAngle (elbowAngle raw) (elbowAngle last);
     ankleAngle := smoothAngle (ankleAngle raw) (ankleAngle last) |}.

(** *** The record page, seen from the angle calculator

    [src/app/record/page.tsx] drives the calculator.  Starting a recording
    ([toggleRecording], lines 276-305) calls [startSession] on the store
    and creates or [reset()]s the rep detector; stopping it (lines
    327-336) stops the pose provider and calls [endSession].  Neither
    branch, nor any other code of the repository, assigns
    [AngleCalculator.lastAngles]: the only writes are the two inside
    [calculateAngles].  Each pose callback ([handlePoseResults], line 150)
    calls [calculateAngles] on the frame's landmarks. *)
Inductive PageEvent : Type :=
| StartRecording
| StopRecording
| PoseResults (landmarks : list PoseLandmark).

(** The effect of one page event on the static memory, and the angles the
    page obtains from it, if any. *)
Definition pageStep (lastAngles : Memory) (e : PageEvent)
  : option (JointAngles R) * Memory :=
  match e with
  | StartRecording => (None, lastAngles)
  | StopRecording => (None, lastAngles)
  | PoseResults landmarks =>
      let '(angles, lastAngles') := calculateAngles landmarks lastAngles in
      (Some angles, lastAngles')
  end.

(** Runs the events in order from the given memory; returns the angles
    computed along the way, oldest first, and the final memory. *)
Fixpoint pageRun (lastAngles : Memory) (es : list PageEvent)
  : list (JointAngles R) * Memory :=
  match es with
  | [] => ([], lastAngles)
  | e :: es' =>
      let '(out, m) := pageStep lastAngles e in
      let '(outs, m') := pageRun m es' in
      (match out with Some a => a :: outs | None => outs end, m')
  end.

(** Range predicates of the data model: trunk in [0,90], the rest in
    [0,180]. *)
Definition inRange (a : JointAngles R) : Prop :=
  0 <= trunkAngle a <= 90 /\
  0 <= hipAngle a <= 180 /\
  0 <= kneeAngle a <= 180 /\
  0 <= shoulderAngle a <= 180 /\
  0 <= elbowAngle a <= 180 /\
  0 <= ankleAngle a <= 180.

Definition memoryInRange (m : Memory) : Prop :=
  match m with
  | None => True
  | Some a => inRange a
  end.

(** *** Sample frames

    A frame in which the tracked (left) side stands upright, seen from the
    side: shoulder above hip above knee above ankle, all fully visible,
    the remaining landmarks reported with low visibility. *)
Definition lowVisibility (px py : R) : PoseLandmark :=
  {| x := px; y := py; z := 0; visibility := Some 0.1 |}.

Definition seen (px py : R) : PoseLandmark :=
  {| x := px; y := py; z := 0; visibility := Some 0.9 |}.

Definition standingLandmark (i : nat) : PoseLandmark :=
  match i with
  | 11%nat => seen 0.5 0.2
  | 23%nat => seen 0.5 0.5
  | 25%nat => seen 0.5 0.7
  | 27%nat => seen 0.5 0.9
  | _ => lowVisibility 0.5 0.5
  end.

Definition standingFrame : list PoseLandmark :=
  map standingLandmark (seq 0 33).

(** A frame in which the provider sees no landmark well enough. *)
Definition occludedFrame : list PoseLandmark :=
  repeat (lowVisibility 0.5 0.5) 33.

(** A frame cut short by the provider. *)
Definition shortFrame : list PoseLandmark :=
  repeat (seen 0.5 0.5) 12.

(** A frame in which the feet are out of view: shoulder, hip and knee of
    the tracked side are visible, the ankle is not. *)
Definition ankleHiddenLandmark (i : nat) : PoseLandmark :=
  match i with
  | 11%nat => seen 0.5 0.2
  | 23%nat => seen 0.5 0.5
  | 25%nat => seen 0.5 0.7
  | _ => lowVisibility 0.5 0.5
  end.

Definition ankleHiddenFrame : list PoseLandmark :=
  map ankleHiddenLandmark (seq 0 33).

(** *** The pose provider's filter ([MediaPipePose.handleResults])

    [handleResults] (lines 345-380 of the file) copies the provider's
    landmarks field by field and forwards them to the page only when some
    landmark from index 11 on (shoulders and below) has a visibility above
    0.5, an absent visibility counting as 0. *)
Definition visibilityOrZero (landmark : PoseLandmark) : R :=
  match visibility landmark with
  | Some v => v
  | None => 0
  end.

(** [array.some((element, index) => ...)], the index starting at
    [index]. *)
Fixpoint someWithIndex (p : PoseLandmark -> nat -> bool)
  (landmarks : list PoseLandmark) (index : nat) : bool :=
  match landmarks with
  | [] => false
  | landmark :: rest =>
      p landmark index || someWithIndex p rest (S index)
  end.

Definition hasBodyLandmarks (convertedLandmarks : list PoseLandmark) : bool :=
  someWithIndex
    (fun landmark index =>
       (11 <=? index)%nat
       && (if Rlt_dec 0.5 (visibilityOrZero landmark) then true else false))
    convertedLandmarks 0.

(** The landmarks handed to [onResults], if any.  [isRunning] and
    [poseReady] are the two fields the method tests first;
    [poseLandmarks] is [results.poseLandmarks], which may be absent. *)
Definition handleResults (isRunning poseReady : bool)
  (poseLandmarks : option (list PoseLandmark))
  : option (list PoseLandmark) :=
  if negb isRunning || negb poseReady then None
  else
    let poseLandmarks :=
      match poseLandmarks with Some l => l | None => [] end in
    if (0 <? List.length poseLandmarks)%nat then
      let convertedLandmarks :=
        map (fun landmark =>
               {| x := x landmark; y := y landmark; z := z landmark;
                  visibility := visibility landmark |}) poseLandmarks in
      if hasBodyLandmarks convertedLandmarks then Some convertedLandmarks
      else None
    else None.

(** *** Moving the subject in the image *)

(** The landmark shifted by [(dx, dy)] in the image. *)
Definition translate (dx dy : R) (landmark : PoseLandmark) : PoseLandmark :=
  {| x := x landmark + dx; y := y landmark + dy; z := z landmark;
     visibility := visibility landmark |}.

(** The landmark mirrored left to right in the unit-wide image. *)
Definition mirror (landmark : PoseLandmark) : PoseLandmark :=
  {| x := 1 - x landmark; y := y landmark; z := z landmark;
     visibility := visibility landmark |}.

(** *** Holding a pose *)

(** The smoothing memory after [n] calls on the same landmarks. *)
Fixpoint repeatCalls (n : nat) (landmarks : list PoseLandmark)
  (lastAngles : Memory) : Memory :=
  match n with
  | O => lastAngles
  | S k => repeatCalls k landmarks (snd (calculateAngles landmarks lastAngles))
  end.

(** The six angle fields. *)
Inductive Joint : Type := Trunk | Hip | Knee | Shoulder | Elbow | Ankle.

Definition angleOf (j : Joint) (a : JointAngles R) : R :=
  match j with
  | Trunk => trunkAngle a
  | Hip => hipAngle a
  | Knee => kneeAngle a
  | Shoulder => shoulderAngle a
  | Elbow => elbowAngle a
  | Ankle => ankleAngle a
  end.

End Angles.

(** ** Rational comparisons used by the rules engine and the detector *)

(** JavaScript's [a < b] on rationals; [a <= b] is [Qle_bool]. *)
Definition Qlt_bool (a b : Q) : bool := negb (Qle_bool b a).

(** ** [src/lib/pose/rules.ts] *)

Module Rules.
Local Open Scope Q_scope.

Record Thresholds : Type := mkThresholds {
  min : Q;
  max : Q;
  optimal : Q
}.

Record ExerciseRule : Type := mkRule {
  name : string;
  description : string;
  thresholds : Thresholds;
  weight : Q
}.

(** The rule tables [squatRules] and [pullupRules] (lines 29-69). *)
Definition squat_trunkAngle : ExerciseRule :=
  {| name := "Trunk Upright";
     description := "Keep your chest up and back straight";
     thresholds := {| min := 0; max := 25; optimal := 10 |};
     weight := 0.3 |}.

Definition squat_hipAngle : ExerciseRule :=
  {| name := "Hip Depth";
     description := "Go deep enough to break parallel";
     thresholds := {| min := 50; max := 130; optimal := 90 |};
     weight := 0.4 |}.

Definition squat_kneeAngle : ExerciseRule :=
  {| name := "Knee Position";
     description := "Keep knees in line with toes";
     thresholds := {| min := 60; max := 150; optimal := 110 |};
     weight := 0.3 |}.

Definition pullup_shoulderAngle : ExerciseRule :=
  {| name := "Shoulder Position";
     description := "Keep shoulders engaged and stable";
     thresholds := {| min := 0; max := 30; optimal := 15 |};
     weight := 0.4 |}.

Definition pullup_elbowAngle : ExerciseRule :=
  {| name := "Elbow Flexion";
     description := "Pull with your back, not just arms";
     thresholds := {| min := 60; max := 120; optimal := 90 |};
     weight := 0.3 |}.

Definition pullup_chinOverBar : ExerciseRule :=
  {| name := "Chin Over Bar";
     description := "Pull your chin above the bar";
     thresholds := {| min := 0; max := 5; optimal := 2 |};
     weight := 0.3 |}.

Definition squatRules : list ExerciseRule :=
  [squat_trunkAngle; squat_hipAngle; squat_kneeAngle].

Definition pullupRules : list ExerciseRule :=
  [pullup_shoulderAngle; pullup_elbowAngle; pullup_chinOverBar].

(** [evaluateAngle] (lines 218-242). *)
Definition evaluateAngle (angle : Q) (rule : ExerciseRule) : Q :=
  let min := min (thresholds rule) in
  let max := max (thresholds rule) in
  let optimal := optimal (thresholds rule) in
  if Qle_bool min angle && Qle_bool angle max then
    let range := max - min in
    let distanceFromOptimal := Qabs (angle - optimal) in
    let maxDistance := range / 2 in
    if Qle_bool distanceFromOptimal (maxDistance * 0.2) then 1.0
    else if Qle_bool distanceFromOptimal (maxDistance * 0.4) then 0.9
    else if Qle_bool distanceFromOptimal (maxDistance * 0.6) then 0.8
    else if Qle_bool distanceFromOptimal (maxDistance * 0.8) then 0.7
    else 0.6
  else if Qlt_bool angle min then
    let distance := min - angle in
    Qmax 0 (0.5 - distance / 10)
  else
    let distance := angle - max in
    Qmax 0 (0.5 - distance / 10).

End Rules.

(** ** [src/lib/store.ts] *)

Module Store.
Local Open Scope Z_scope.

Record User : Type := mkUser {
  email : string;
  injury : option string;
  recoveryTime : option Q;
  fasterRecoveryPercent : option Q
}.

Record ExerciseSettings : Type := mkSettings {
  skeletonVisible : bool;
  anglesHudVisible : bool;
  voiceEnabled : bool;
  privacyMode : bool;
  aiSummaryEnabled : bool
}.

(** [Partial<ExerciseSettings>]: every field may be absent. *)
Record PartialSettings : Type := mkPartialSettings {
  p_skeletonVisible : option bool;
  p_anglesHudVisible : option bool;
  p_voiceEnabled : option bool;
  p_privacyMode : option bool;
  p_aiSummaryEnabled : option bool
}.

Inductive FeedbackType : Type := info | warning | error.

Record Feedback : Type := mkFeedback {
  repNumber : Z;
  message : string;
  type : FeedbackType;
  priority : Z
}.

(** [Date] values are millisecond timestamps. *)
Record ExerciseSession : Type := mkSession {
  exercise : string;
  startTime : Z;
  endTime : option Z;
  repCount : Z;
  averageScore : Q;
  lastRepScore : Q;
  flags : list string;
  feedback : list Feedback
}.

(** The data fields of [AppState]. *)
Record AppState : Type := mkState {
  user : option User;
  exerciseSettings : ExerciseSettings;
  currentSession : option ExerciseSession
}.

Definition initialState : AppState :=
  {| user := None;
     exerciseSettings :=
       {| skeletonVisible := true; anglesHudVisible := true;
          voiceEnabled := true; privacyMode := false;
          aiSummaryEnabled := false |};
     currentSession := None |}.

Definition with_session (state : AppState) (s : option ExerciseSession)
  : AppState :=
  {| user := user state;
     exerciseSettings := exerciseSettings state;
     currentSession := s |}.

Definition setUser (u : User) (state : AppState) : AppState :=
  {| user := Some u;
     exerciseSettings := exerciseSettings state;
     currentSession := currentSession state |}.

Definition override (p : option bool) (b : bool) : bool :=
  match p with Some v => v | None => b end.

Definition updateExerciseSettings (settings : PartialSettings)
  (state : AppState) : AppState :=
  let old := exerciseSettings state in
  {| user := user state;
     exerciseSettings :=
       {| skeletonVisible :=
            override (p_skeletonVisible settings) (skeletonVisible old);
          anglesHudVisible :=
            override (p_anglesHudVisible settings) (anglesHudVisible old);
          voiceEnabled := override (p_voiceEnabled settings) (voiceEnabled old);
          privacyMode := override (p_privacyMode settings) (privacyMode old);
          aiSummaryEnabled :=
            override (p_aiSummaryEnabled settings) (aiSummaryEnabled old) |};
     currentSession := currentSession state |}.

(** [startSession]; [now] is the value of [new Date()]. *)
Definition startSession (now : Z) (exercise : string) (state : AppState)
  : AppState :=
  with_session state
    (Some {| exercise := exercise; startTime := now; endTime := None;
             repCount := 0; averageScore := 0%Q; lastRepScore := 0%Q;
             flags := []; feedback := [] |}).

Definition set_feedback (s : ExerciseSession) (fbs : list Feedback)
  : ExerciseSession :=
  {| exercise := exercise s; startTime := startTime s; endTime := endTime s;
     repCount := repCount s; averageScore := averageScore s;
     lastRepScore := lastRepScore s; flags := flags s; feedback := fbs |}.

Definition clearFeedback (state : AppState) : AppState :=
  with_session state
    (match currentSession state with
     | Some s => Some (set_feedback s [])
     | None => None
     end).

Definition endSession (now : Z) (state : AppState) : AppState :=
  with_session state
    (match currentSession state with
     | Some s =>
         Some {| exercise := exercise s; startTime := startTime s;
                 endTime := Some now; repCount := repCount s;
                 averageScore := averageScore s;
                 lastRepScore := lastRepScore s; flags := flags s;
                 feedback := feedback s |}
     | None => None
     end).

(** [repNumber || state.currentSession.repCount]: an absent or zero
    [repNumber] is falsy and falls back to the session's rep count. *)
Definition targetRepNumber (repNumber : option Z) (s : ExerciseSession) : Z :=
  match repNumber with
  | Some n => if n =? 0 then repCount s else n
  | None => repCount s
  end.

(** The predicate of [feedback.some(...)] in [addFeedback]. *)
Definition sameFeedback (message0 : string) (target : Z) (fb : Feedback)
  : bool :=
  String.eqb (message fb) message0 && (repNumber fb =? target).

(** [addFeedback] (lines 99-126); an absent [priority] defaults to 1. *)
Definition addFeedback (message0 : string) (type0 : FeedbackType)
  (priority0 : option Z) (repNumber0 : option Z) (state : AppState)
  : AppState :=
  match currentSession state with
  | None => state
  | Some s =>
      let priority1 := match priority0 with Some p => p | None => 1 end in
      let target := targetRepNumber repNumber0 s in
      let isDuplicate := existsb (sameFeedback message0 target) (feedback s) in
      if isDuplicate then state
      else
        with_session state
          (Some (set_feedback s
                   (feedback s ++
                    [{| repNumber := target; message := message0;
                        type := type0; priority := priority1 |}])))
  end.

Definition incrementRep (state : AppState) : AppState :=
  with_session state
    (match currentSession state with
     | Some s =>
         Some {| exercise := exercise s; startTime := startTime s;
                 endTime := endTime s; repCount := repCount s + 1;
                 averageScore := averageScore s;
                 lastRepScore := lastRepScore s; flags := flags s;
                 feedback := feedback s |}
     | None => None
     end).

Definition updateScore (score : Q) (state : AppState) : AppState :=
  match currentSession state with
  | None => state
  | Some s =>
      let currentScore := averageScore s in
      let repCount0 := repCount s in
      let newAverage :=
        if repCount0 =? 0 then score
        else ((currentScore * inject_Z repCount0 + score)
              / (inject_Z repCount0 + 1))%Q in
      with_session state
        (Some {| exercise := exercise s; startTime := startTime s;
                 endTime := endTime s; repCount := repCount s;
                 averageScore := newAverage; lastRepScore := score;
                 flags := flags s; feedback := feedback s |})
  end.

(** [Array.from(new Set(xs))]: first occurrences, in order. *)
Fixpoint uniqueInOrder (seen xs : list string) : list string :=
  match xs with
  | [] => []
  | s :: rest =>
      if existsb (String.eqb s) seen then uniqueInOrder seen rest
      else s :: uniqueInOrder (s :: seen) rest
  end.

Definition addFlag (flag : string) (state : AppState) : AppState :=
  with_session state
    (match currentSession state with
     | Some s =>
         Some {| exercise := exercise s; startTime := startTime s;
                 endTime := endTime s; repCount := repCount s;
                 averageScore := averageScore s;
                 lastRepScore := lastRepScore s;
                 flags := uniqueInOrder [] (flags s ++ [flag]);
                 feedback := feedback s |}
     | None => None
     end).

Definition clearSession (state : AppState) : AppState :=
  with_session state None.

(** One store action. *)
Inductive Action : Type :=
| ASetUser (u : User)
| AUpdateExerciseSettings (settings : PartialSettings)
| AStartSession (now : Z) (exercise : string)
| AEndSession (now : Z)
| AAddFeedback (message0 : string) (type0 : FeedbackType)
    (priority0 : option Z) (repNumber0 : option Z)
| AIncrementRep
| AUpdateScore (score : Q)
| AAddFlag (flag : string)
| AClearSession
| AClearFeedback.

Definition dispatch (a : Action) (state : AppState) : AppState :=
  match a with
  | ASetUser u => setUser u state
  | AUpdateExerciseSettings p => updateExerciseSettings p state
  | AStartSession now ex => startSession now ex state
  | AEndSession now => endSession now state
  | AAddFeedback m t p r => addFeedback m t p r state
  | AIncrementRep => incrementRep state
  | AUpdateScore sc => updateScore sc state
  | AAddFlag f => addFlag f state
  | AClearSession => clearSession state
  | AClearFeedback => clearFeedback state
  end.

(** The states the store can be in: the initial one (the persisted part
    holds [user] and [exerciseSettings] only, never a session) and those
    obtained from it by actions. *)
Inductive reachable : AppState -> Prop :=
| reach_init : forall u es,
    reachable {| user := u; exerciseSettings := es; currentSession := None |}
| reach_step : forall a state,
    reachable state -> reachable (dispatch a state).

(** The pair that identifies a stored entry for duplicate suppression. *)
Definition feedbackKey (fb : Feedback) : string * Z :=
  (message fb, repNumber fb).

(** The actions that keep the current session and its feedback list:
    all but [startSession], [clearSession] and [clearFeedback]. *)
Definition keepsFeedback (a : Action) : bool :=
  match a with
  | AStartSession _ _ | AClearSession | AClearFeedback => false
  | _ => true
  end.

(** The actions applied in order. *)
Definition dispatchAll (actions : list Action) (state : AppState) : AppState :=
  fold_left (fun st a => dispatch a st) actions state.

(** A store in which a squat session has just been started. *)
Definition freshSquatSession : AppState :=
  startSession 0 "squat" initialState.

(** The invariant of the store: no stored pair occurs twice. *)
Definition noDuplicatePairs (state : AppState) : Prop :=
  match currentSession state with
  | Some s => NoDup (map feedbackKey (feedback s))
  | None => True
  end.

(** Equality of pairs of a message and a rep number is decidable. *)
Definition feedbackKey_eq_dec :
  forall k1 k2 : string * Z, {k1 = k2} + {k1 <> k2} :=
  fun '(m1, r1) '(m2, r2) =>
    match string_dec m1 m2, Z.eq_dec r1 r2 with
    | left Hm, left Hr => left (f_equal2 pair Hm Hr)
    | right Hm, _ =>
        right (fun H : (m1, r1) = (m2, r2) => Hm (f_equal fst H))
    | _, right Hr =>
        right (fun H : (m1, r1) = (m2, r2) => Hr (f_equal snd H))
    end.

(** How many stored entries have the given pair as their key: the
    occurrences of the pair among the keys of the list.  The count does
    not go through the comparison [addFeedback] makes. *)
Definition storedTimes (key : string * Z) (fbs : list Feedback) : nat :=
  count_occ feedbackKey_eq_dec (map feedbackKey fbs) key.

(** The actions that only read or change the current session: without a
    session there is nothing for them to do. *)
Definition needsSession (a : Action) : bool :=
  match a with
  | ASetUser _ | AUpdateExerciseSettings _ | AStartSession _ _ => false
  | _ => true
  end.

(** What the record page does with the store when a rep completes
    ([page.tsx], lines 180 and 226 or 252): [incrementRep()] first, then,
    after the evaluation, [updateScore(newScore)]. *)
Definition recordRep (score : Q) (state : AppState) : AppState :=
  updateScore score (incrementRep state).

Definition recordReps (scores : list Q) (state : AppState) : AppState :=
  fold_left (fun st score => recordRep score st) scores state.

Fixpoint sumScores (scores : list Q) : Q :=
  match scores with
  | [] => 0%Q
  | score :: rest => (score + sumScores rest)%Q
  end.

End Store.

(** ** The rep detector ([class RepDetector]) *)

Module Rep.
Local Open Scope Z_scope.

Inductive RepState : Type := IDLE | STARTING | PEAK | ENDING | COMPLETE.

Definition RepState_eqb (a b : RepState) : bool :=
  match a, b with
  | IDLE, IDLE | STARTING, STARTING | PEAK, PEAK
  | ENDING, ENDING | COMPLETE, COMPLETE => true
  | _, _ => false
  end.

Inductive Exercise : Type := squat | pullup.

Record RepDetection : Type := mkDetection {
  state : RepState;
  out_repCount : Z;
  confidence : Q;
  out_lastRepTime : Z;
  averageTempo : Q
}.

(** The mutable fields of the class, and [exercise], fixed at
    construction. *)
Record RepDetector : Type := mkDetector {
  exercise : Exercise;
  currentState : RepState;
  repCount : Z;
  lastRepTime : Z;
  repStartTime : Z;
  repTimes : list Z;
  lastAngles : option (JointAngles Q);
  stateConfidence : Q;
  consecutiveFrames : Z;
  lastUpdateTime : Z;
  isCalibrated : bool;
  standingHipAngle : Q;
  standingKneeAngle : Q;
  squatDepthHipAngle : Q;
  calibrationFrames : Z
}.

Definition UPDATE_THROTTLE : Z := 50.
Definition CALIBRATION_FRAMES_NEEDED : Z := 25.
Definition MIN_REP_DURATION : Z := 1000.
Definition MAX_REP_DURATION : Z := 20000.

(** [new RepDetector(exercise)]: the field initialisers. *)
Definition new (ex : Exercise) : RepDetector :=
  {| exercise := ex; currentState := IDLE; repCount := 0; lastRepTime := 0;
     repStartTime := 0; repTimes := []; lastAngles := None;
     stateConfidence := 0%Q; consecutiveFrames := 0; lastUpdateTime := 0;
     isCalibrated := false; standingHipAngle := 0%Q;
     standingKneeAngle := 0%Q; squatDepthHipAngle := 0%Q;
     calibrationFrames := 0 |}.

(** [reset()] (lines 314-332): every assignment of the method, in the
    fields it assigns; [exercise] and [lastUpdateTime] are not assigned. *)
Definition reset (d : RepDetector) : RepDetector :=
  {| exercise := exercise d; currentState := IDLE; repCount := 0;
     lastRepTime := 0; repStartTime := 0; repTimes := []; lastAngles := None;
     stateConfidence := 0%Q; consecutiveFrames := 0;
     lastUpdateTime := lastUpdateTime d;
     isCalibrated := false; standingHipAngle := 0%Q;
     standingKneeAngle := 0%Q; squatDepthHipAngle := 0%Q;
     calibrationFrames := 0 |}.

Definition forceCalibration (d : RepDetector) : RepDetector :=
  {| exercise := exercise d; currentState := currentState d;
     repCount := repCount d; lastRepTime := lastRepTime d;
     repStartTime := repStartTime d; repTimes := repTimes d;
     lastAngles := lastAngles d; stateConfidence := stateConfidence d;
     consecutiveFrames := consecutiveFrames d;
     lastUpdateTime := lastUpdateTime d;
     isCalibrated := false; standingHipAngle := standingHipAngle d;
     standingKneeAngle := standingKneeAngle d;
     squatDepthHipAngle := squatDepthHipAngle d;
     calibrationFrames := 0 |}.

(** [this.lastUpdateTime = now] *)
Definition set_lastUpdateTime (now : Z) (d : RepDetector) : RepDetector :=
  {| exercise := exercise d; currentState := currentState d;
     repCount := repCount d; lastRepTime := lastRepTime d;
     repStartTime := repStartTime d; repTimes := repTimes d;
     lastAngles := lastAngles d; stateConfidence := stateConfidence d;
     consecutiveFrames := consecutiveFrames d;
     lastUpdateTime := now;
     isCalibrated := isCalibrated d; standingHipAngle := standingHipAngle d;
     standingKneeAngle := standingKneeAngle d;
     squatDepthHipAngle := squatDepthHipAngle d;
     calibrationFrames := calibrationFrames d |}.

(** [calculateAverageTempo] *)
Definition calculateAverageTempo (d : RepDetector) : Q :=
  match repTimes d with
  | [] => 0%Q
  | _ =>
      let totalTime := fold_left (fun sum time => sum + time) (repTimes d) 0 in
      (inject_Z totalTime / inject_Z (Z.of_nat (List.length (repTimes d))))%Q
  end.

Definition getCurrentDetection (d : RepDetector) : RepDetection :=
  {| state := currentState d;
     out_repCount := repCount d;
     confidence := stateConfidence d;
     out_lastRepTime := lastRepTime d;
     averageTempo := calculateAverageTempo d |}.

(** [calibrate] (lines 90-140).  [setDynamicThresholds], called at the
    end, only logs and assigns nothing. *)
Definition calibrate (angles : JointAngles Q) (now : Z) (d : RepDetector)
  : RepDetector :=
  let repStartTime1 :=
    if calibrationFrames d =? 0 then now else repStartTime d in
  let frames := calibrationFrames d + 1 in
  let n := inject_Z frames in
  let '(hip1, knee1, depth1) :=
    if frames <=? CALIBRATION_FRAMES_NEEDED then
      if frames <=? 15 then
        (((standingHipAngle d * (n - 1) + hipAngle angles) / n)%Q,
         ((standingKneeAngle d * (n - 1) + kneeAngle angles) / n)%Q,
         squatDepthHipAngle d)
      else
        let hipChange := Qabs (hipAngle angles - standingHipAngle d) in
        let kneeChange := Qabs (kneeAngle angles - standingKneeAngle d) in
        if Qlt_bool 15 hipChange || Qlt_bool 15 kneeChange then
          (standingHipAngle d, standingKneeAngle d,
           (squatDepthHipAngle d * 0.8 + hipAngle angles * 0.2)%Q)
        else (standingHipAngle d, standingKneeAngle d, squatDepthHipAngle d)
    else (standingHipAngle d, standingKneeAngle d, squatDepthHipAngle d) in
  let complete := CALIBRATION_FRAMES_NEEDED <=? frames in
  let depth2 :=
    if complete && Qeq_bool depth1 0 then
      let defaultSquatDepth := Qmax 60 (hip1 - 80) in
      defaultSquatDepth
    else depth1 in
  {| exercise := exercise d; currentState := currentState d;
     repCount := repCount d; lastRepTime := lastRepTime d;
     repStartTime := repStartTime1; repTimes := repTimes d;
     lastAngles := lastAngles d; stateConfidence := stateConfidence d;
     consecutiveFrames := consecutiveFrames d;
     lastUpdateTime := lastUpdateTime d;
     isCalibrated := if complete then true else isCalibrated d;
     standingHipAngle := hip1; standingKneeAngle := knee1;
     squatDepthHipAngle := depth2;
     calibrationFrames := frames |}.

(** [transitionTo] (lines 243-260). *)
Definition transitionTo (newState : RepState) (timestamp : Z)
  (d : RepDetector) : RepDetector :=
  if RepState_eqb (currentState d) newState then d
  else
    let timeSinceLastTransition := timestamp - lastRepTime d in
    if timeSinceLastTransition <? 200 then d
    else
      {| exercise := exercise d; currentState := newState;
         repCount := repCount d; lastRepTime := timestamp;
         repStartTime := repStartTime d; repTimes := repTimes d;
         lastAngles := lastAngles d; stateConfidence := 0%Q;
         consecutiveFrames := 0;
         lastUpdateTime := lastUpdateTime d;
         isCalibrated := isCalibrated d;
         standingHipAngle := standingHipAngle d;
         standingKneeAngle := standingKneeAngle d;
         squatDepthHipAngle := squatDepthHipAngle d;
         calibrationFrames := calibrationFrames d |}.

(** [repTimes.push(repDuration)], then [shift()] when more than 10. *)
Definition pushRepTime (repDuration : Z) (times : list Z) : list Z :=
  let pushed := times ++ [repDuration] in
  if (10 <? Z.of_nat (List.length pushed)) then tl pushed else pushed.

(** [completeRep] (lines 262-289). *)
Definition completeRep (timestamp : Z) (d : RepDetector) : RepDetector :=
  if RepState_eqb (currentState d) COMPLETE then d
  else
    let repDuration := timestamp - repStartTime d in
    if (MIN_REP_DURATION <=? repDuration) && (repDuration <=? MAX_REP_DURATION)
    then
      {| exercise := exercise d; currentState := COMPLETE;
         repCount := repCount d + 1; lastRepTime := lastRepTime d;
         repStartTime := repStartTime d;
         repTimes := pushRepTime repDuration (repTimes d);
         lastAngles := lastAngles d; stateConfidence := stateConfidence d;
         consecutiveFrames := consecutiveFrames d;
         lastUpdateTime := lastUpdateTime d;
         isCalibrated := isCalibrated d;
         standingHipAngle := standingHipAngle d;
         standingKneeAngle := standingKneeAngle d;
         squatDepthHipAngle := squatDepthHipAngle d;
         calibrationFrames := calibrationFrames d |}
    else d.

(** [updateSquatState] (lines 150-236). *)
Definition updateSquatState (angles : JointAngles Q) (now : Z)
  (d : RepDetector) : RepDetector :=
  if negb (isCalibrated d) then d
  else
    let hipAngle := hipAngle angles in
    let kneeAngle := kneeAngle angles in
    let hipRange := (standingHipAngle d - squatDepthHipAngle d)%Q in
    let standingThreshold := (standingHipAngle d - hipRange * 0.2)%Q in
    let squatThreshold := (squatDepthHipAngle d + hipRange * 0.2)%Q in
    let midThreshold := ((standingThreshold + squatThreshold) / 2)%Q in
    let hipHysteresis := 5%Q in
    let kneeHysteresis := 8%Q in
    match currentState d with
    | IDLE =>
        let shouldStart :=
          Qlt_bool hipAngle standingThreshold
          || Qlt_bool kneeAngle (standingKneeAngle d - kneeHysteresis)%Q in
        if shouldStart then transitionTo STARTING now d else d
    | STARTING =>
        let shouldPeak := Qle_bool hipAngle squatThreshold in
        let shouldReturn :=
          Qlt_bool (standingThreshold + hipHysteresis)%Q hipAngle in
        if shouldPeak then transitionTo PEAK now d
        else if shouldReturn then transitionTo IDLE now d
        else d
    | PEAK =>
        let shouldRise := Qlt_bool midThreshold hipAngle in
        if shouldRise then transitionTo ENDING now d else d
    | ENDING =>
        let shouldComplete :=
          Qlt_bool standingThreshold hipAngle
          || Qlt_bool (standingKneeAngle d - kneeHysteresis)%Q kneeAngle in
        let shouldReturnToPeak := Qle_bool hipAngle squatThreshold in
        if shouldComplete then completeRep now d
        else if shouldReturnToPeak then transitionTo PEAK now d
        else d
    | COMPLETE => transitionTo IDLE now d
    end.

(** [updatePullupState]: the body is empty.  Its [landmarks] argument,
    which [update] only passes on to it, is therefore not modelled. *)
Definition updatePullupState (angles : JointAngles Q) (now : Z)
  (d : RepDetector) : RepDetector := d.

(** [checkForStuckState] (lines 79-88). *)
Definition checkForStuckState (now : Z) (d : RepDetector) : RepDetector :=
  let timeInState := now - lastRepTime d in
  let isStuck :=
    (5000 <? timeInState)
    && negb (RepState_eqb (currentState d) IDLE)
    && negb (RepState_eqb (currentState d) COMPLETE) in
  if isStuck then completeRep now d else d.

(** [updateConfidence] (lines 291-295). *)
Definition updateConfidence (d : RepDetector) : RepDetector :=
  let frames := consecutiveFrames d + 1 in
  {| exercise := exercise d; currentState := currentState d;
     repCount := repCount d; lastRepTime := lastRepTime d;
     repStartTime := repStartTime d; repTimes := repTimes d;
     lastAngles := lastAngles d;
     stateConfidence := Qmin 1.0 (inject_Z frames / 15)%Q;
     consecutiveFrames := frames;
     lastUpdateTime := lastUpdateTime d;
     isCalibrated := isCalibrated d;
     standingHipAngle := standingHipAngle d;
     standingKneeAngle := standingKneeAngle d;
     squatDepthHipAngle := squatDepthHipAngle d;
     calibrationFrames := calibrationFrames d |}.

(** [update] (lines 47-77); [now] is the value [Date.now()] returns
    inside the call. *)
Definition update (now : Z) (angles : JointAngles Q) (d : RepDetector)
  : RepDetection * RepDetector :=
  if now - lastUpdateTime d <? UPDATE_THROTTLE then (getCurrentDetection d, d)
  else
    let d1 := set_lastUpdateTime now d in
    if negb (isCalibrated d1) then
      let d2 := calibrate angles now d1 in
      (getCurrentDetection d2, d2)
    else
      let d2 :=
        match exercise d1 with
        | squat => updateSquatState angles now d1
        | pullup => updatePullupState angles now d1
        end in
      let d3 := checkForStuckState now d2 in
      let d4 := updateConfidence d3 in
      (getCurrentDetection d4, d4).

(** The three things one call of [updateSquatState] can do to the
    detector: nothing, a [transitionTo] some phase other than [COMPLETE],
    or a [completeRep]. *)
Inductive SquatMove (now : Z) (d : RepDetector) : RepDetector -> Prop :=
| move_none : SquatMove now d d
| move_transition : forall newState,
    newState <> COMPLETE ->
    SquatMove now d (transitionTo newState now d)
| move_complete : SquatMove now d (completeRep now d).

(** How the phase and the frame counter of [d'] relate to those of [d]
    after the state logic of one processed call, before
    [updateConfidence]: the phase stayed, or it moved through
    [transitionTo], or it moved into [COMPLETE] through [completeRep]. *)
Inductive PhaseStep (d d' : RepDetector) : Prop :=
| phase_stays :
    currentState d' = currentState d ->
    consecutiveFrames d' = consecutiveFrames d ->
    PhaseStep d d'
| phase_transition :
    currentState d' <> currentState d ->
    currentState d' <> COMPLETE ->
    consecutiveFrames d' = 0 ->
    PhaseStep d d'
| phase_completes :
    currentState d' = COMPLETE ->
    currentState d <> COMPLETE ->
    consecutiveFrames d' = consecutiveFrames d ->
    PhaseStep d d'.

(** A frame is one call of [update]: the clock value and the angles. *)
Definition Frame : Type := (Z * JointAngles Q)%type.

(** Feeds the frames in order; returns the detections, oldest first, and
    the detector after the last call. *)
Fixpoint run (d : RepDetector) (frames : list Frame)
  : list RepDetection * RepDetector :=
  match frames with
  | [] => ([], d)
  | (now, angles) :: rest =>
      let '(out, d1) := update now angles d in
      let '(outs, d2) := run d1 rest in
      (out :: outs, d2)
  end.

Definition outputs (d : RepDetector) (frames : list Frame)
  : list RepDetection := fst (run d frames).

Definition final (d : RepDetector) (frames : list Frame) : RepDetector :=
  snd (run d frames).

(** Angles of a squat frame: only hip and knee are read by the detector. *)
Definition pose (hip knee : Q) : JointAngles Q :=
  {| trunkAngle := 0%Q; hipAngle := hip; kneeAngle := knee;
     shoulderAngle := 0%Q; elbowAngle := 0%Q; ankleAngle := 0%Q |}.

(** [count] frames of the same pose, 50 ms apart, the first at [start]. *)
Fixpoint hold (count : nat) (start : Z) (hip knee : Q) : list Frame :=
  match count with
  | O => []
  | S k => (start, pose hip knee) :: hold k (start + 50) hip knee
  end.

(** *** Sample sessions

    Calibration while standing still: 25 frames, 50 ms apart, from
    t = 1000 ms, hip 170 and knee 175 degrees.  No squat is seen, so the
    depth defaults to [max(60, 170 - 80) = 90]; the thresholds of the
    session are then 154 (standing), 130 (mid) and 106 (squat). *)
Definition standingCalibration : list Frame := hold 25 1000 170%Q 175%Q.

Definition calibrated : RepDetector := final (new squat) standingCalibration.

(** One squat cycle done as fast as the debounce allows: down at
    t = 2250, bottom at 2450, rising at 2650, upright again at 2700, that
    is 450 ms after the descent began; one more standing frame follows. *)
Definition quickCycle : list Frame :=
  [ (2250, pose 100%Q 175%Q);
    (2450, pose 70%Q 100%Q);
    (2650, pose 140%Q 120%Q);
    (2700, pose 170%Q 175%Q);
    (2900, pose 170%Q 175%Q) ].

(** One unhurried squat cycle, begun 29 s after calibration started: down
    at t = 30000, bottom at 31000, rising at 32000, upright at 33000 (3 s
    after the descent began); the user then keeps standing. *)
Definition lateCycle : list Frame :=
  [ (30000, pose 100%Q 175%Q);
    (31000, pose 70%Q 100%Q);
    (32000, pose 140%Q 120%Q);
    (33000, pose 170%Q 175%Q);
    (33200, pose 170%Q 175%Q);
    (40000, pose 170%Q 175%Q) ].

(** A calibrated detector caught mid-rep: the descent began at t = 2250. *)
Definition midRep : RepDetector :=
  final calibrated [ (2250, pose 100%Q 175%Q) ].

(** The frames of a new recording that starts 10 ms after the last frame
    [midRep] has processed: 26 standing frames, the first at t = 2260,
    the others 50 ms apart from t = 2310. *)
Definition nextRecording : list Frame :=
  (2260, pose 170%Q 175%Q) :: hold 25 2310 170%Q 175%Q.

(** *** The remaining methods of the class *)

Definition getCurrentState (d : RepDetector) : RepState := currentState d.

Definition getRepCount (d : RepDetector) : Z := repCount d.

Definition isRepInProgress (d : RepDetector) : bool :=
  RepState_eqb (currentState d) STARTING
  || RepState_eqb (currentState d) PEAK
  || RepState_eqb (currentState d) ENDING.

(** The object [getCalibrationStatus] returns. *)
Record CalibrationStatus : Type := mkCalibrationStatus {
  cs_isCalibrated : bool;
  cs_standingHipAngle : Q;
  cs_standingKneeAngle : Q;
  cs_squatDepthHipAngle : Q;
  cs_calibrationFrames : Z
}.

Definition getCalibrationStatus (d : RepDetector) : CalibrationStatus :=
  {| cs_isCalibrated := isCalibrated d;
     cs_standingHipAngle := standingHipAngle d;
     cs_standingKneeAngle := standingKneeAngle d;
     cs_squatDepthHipAngle := squatDepthHipAngle d;
     cs_calibrationFrames := calibrationFrames d |}.

(** *** Driving a detector

    The calls a page makes on its detector: [update], [reset] and
    [forceCalibration]. *)
Inductive Call : Type :=
| CUpdate (now : Z) (angles : JointAngles Q)
| CReset
| CForceCalibration.

Definition perform (c : Call) (d : RepDetector)
  : option RepDetection * RepDetector :=
  match c with
  | CUpdate now angles =>
      let '(out, d') := update now angles d in (Some out, d')
  | CReset => (None, reset d)
  | CForceCalibration => (None, forceCalibration d)
  end.

(** The calls in order; the detections [update] returned, oldest first,
    and the detector after the last call. *)
Fixpoint drive (d : RepDetector) (calls : list Call)
  : list RepDetection * RepDetector :=
  match calls with
  | [] => ([], d)
  | c :: rest =>
      let '(out, d1) := perform c d in
      let '(outs, d2) := drive d1 rest in
      (match out with Some o => o :: outs | None => outs end, d2)
  end.

(** The arrows of the phase diagram that the squat logic and the
    stuck-state check can take. *)
Definition phaseEdge (from to : RepState) : bool :=
  match from, to with
  | IDLE, STARTING
  | STARTING, PEAK | STARTING, IDLE | STARTING, COMPLETE
  | PEAK, ENDING | PEAK, COMPLETE
  | ENDING, COMPLETE | ENDING, PEAK
  | COMPLETE, IDLE => true
  | _, _ => false
  end.

(** What one call of [updateSquatState] does, with the phase it starts
    from: nothing, a [transitionTo] along an arrow, or a [completeRep]
    out of [ENDING]. *)
Inductive SquatEdge (now : Z) (d : RepDetector) : RepDetector -> Prop :=
| edge_none : SquatEdge now d d
| edge_transition : forall newState,
    phaseEdge (currentState d) newState = true ->
    newState <> COMPLETE ->
    SquatEdge now d (transitionTo newState now d)
| edge_complete :
    currentState d = ENDING ->
    SquatEdge now d (completeRep now d).

(** The effect of the state logic of one processed call (squat or
    pull-up logic, then the stuck-state check) on the fields a caller can
    observe. *)
Inductive Effect (now : Z) (d d' : RepDetector) : Prop :=
| effect_stays :
    currentState d' = currentState d ->
    repCount d' = repCount d ->
    repTimes d' = repTimes d ->
    lastRepTime d' = lastRepTime d ->
    consecutiveFrames d' = consecutiveFrames d ->
    Effect now d d'
| effect_transition :
    phaseEdge (currentState d) (currentState d') = true ->
    currentState d' <> COMPLETE ->
    repCount d' = repCount d ->
    repTimes d' = repTimes d ->
    lastRepTime d' = now ->
    200 <= now - lastRepTime d ->
    consecutiveFrames d' = 0 ->
    Effect now d d'
| effect_completes :
    currentState d' = COMPLETE ->
    phaseEdge (currentState d) COMPLETE = true ->
    (currentState d = ENDING \/ 5000 < now - lastRepTime d) ->
    MIN_REP_DURATION <= now - repStartTime d <= MAX_REP_DURATION ->
    repCount d' = repCount d + 1 ->
    repTimes d' = pushRepTime (now - repStartTime d) (repTimes d) ->
    lastRepTime d' = lastRepTime d ->
    consecutiveFrames d' = consecutiveFrames d ->
    Effect now d d'.

(** Frames that are all processed: each comes at least 50 ms after the
    one before, the first at least 50 ms after [last]. *)
Fixpoint spaced (last : Z) (frames : list Frame) : Prop :=
  match frames with
  | [] => True
  | (now, _) :: rest => UPDATE_THROTTLE <= now - last /\ spaced now rest
  end.

(** A detection a caller can rely on: a rep count that is not negative,
    a confidence between 0 and 1, and an average tempo that is 0 (no rep
    yet) or within the bounds of a valid rep. *)
Definition wellFormed (out : RepDetection) : Prop :=
  0 <= out_repCount out /\
  (0 <= confidence out <= 1)%Q /\
  (averageTempo out == 0 \/
   inject_Z MIN_REP_DURATION <= averageTempo out
   <= inject_Z MAX_REP_DURATION)%Q.

(** The invariant behind [wellFormed]. *)
Definition sound (d : RepDetector) : Prop :=
  0 <= repCount d /\
  0 <= consecutiveFrames d /\
  (0 <= stateConfidence d <= 1)%Q /\
  Z.of_nat (List.length (repTimes d)) = Z.min (repCount d) 10 /\
  Forall (fun t => MIN_REP_DURATION <= t <= MAX_REP_DURATION) (repTimes d).

(** The hip angles of the frames, summed. *)
Fixpoint sumHip (frames : list Frame) : Q :=
  match frames with
  | [] => 0%Q
  | (_, angles) :: rest => (hipAngle angles + sumHip rest)%Q
  end.

Fixpoint sumKnee (frames : list Frame) : Q :=
  match frames with
  | [] => 0%Q
  | (_, angles) :: rest => (kneeAngle angles + sumKnee rest)%Q
  end.

End Rep.

(** ** [src/lib/pose/rules.ts]: the two evaluations

    The structural checks only compare, add and scale landmark
    coordinates, so they are written over the rationals like the rest of
    the rules engine; [PoseLandmark] below is the landmark record with
    rational fields. *)

Module Engine.
Import Rules.
Local Open Scope Q_scope.

Record PoseLandmark : Type := mkLandmark {
  x : Q;
  y : Q;
  z : Q;
  visibility : option Q
}.

Definition undefinedLandmark : PoseLandmark :=
  {| x := 0; y := 0; z := 0; visibility := None |}.

(** [landmarks[i]]; every use below follows a length check that covers
    the index. *)
Definition at_index (landmarks : list PoseLandmark) (i : nat) : PoseLandmark :=
  nth i landmarks undefinedLandmark.

Definition isLandmarkVisible (landmark : PoseLandmark) : bool :=
  match visibility landmark with
  | None => false
  | Some v => Qlt_bool 0.5 v
  end.

(** [ExerciseFeedback]; [timestamp] is a millisecond clock value. *)
Record ExerciseFeedback : Type := mkFeedback {
  message : string;
  type : Store.FeedbackType;
  priority : Z;
  timestamp : Z
}.

(** [ExerciseScore]; [breakdown] lists the keys in insertion order. *)
Record ExerciseScore : Type := mkScore {
  overall : Z;
  breakdown : list (string * Q);
  flags : list string
}.

(** [Math.round]: the nearest integer, halves rounded up. *)
Definition round (q : Q) : Z := Qfloor (q + (1 # 2)).

Definition checkKneeValgus (landmarks : list PoseLandmark) : bool :=
  if (List.length landmarks <? 32)%nat then false
  else
    let leftKnee := at_index landmarks 25 in
    let rightKnee := at_index landmarks 26 in
    let leftAnkle := at_index landmarks 27 in
    let rightAnkle := at_index landmarks 28 in
    if negb (isLandmarkVisible leftKnee) || negb (isLandmarkVisible rightKnee)
       || negb (isLandmarkVisible leftAnkle)
       || negb (isLandmarkVisible rightAnkle)
    then false
    else
      let kneeDistance := Qabs (x leftKnee - x rightKnee) in
      let ankleDistance := Qabs (x leftAnkle - x rightAnkle) in
      Qlt_bool kneeDistance (ankleDistance * 0.8).

Definition checkChinOverBar (landmarks : list PoseLandmark) : Q :=
  if (List.length landmarks <? 16)%nat then 0
  else
    let leftShoulder := at_index landmarks 11 in
    let rightShoulder := at_index landmarks 12 in
    let nose := at_index landmarks 0 in
    if negb (isLandmarkVisible leftShoulder)
       || negb (isLandmarkVisible rightShoulder)
       || negb (isLandmarkVisible nose)
    then 0
    else
      let shoulderCenter := (y leftShoulder + y rightShoulder) / 2 in
      if Qlt_bool (y nose) shoulderCenter then 1.0
      else if Qlt_bool (y nose) (shoulderCenter + 0.1) then 0.7
      else 0.3.

Definition checkSwinging (landmarks : list PoseLandmark) : bool :=
  if (List.length landmarks <? 32)%nat then false
  else
    let leftHip := at_index landmarks 23 in
    let rightHip := at_index landmarks 24 in
    if negb (isLandmarkVisible leftHip) || negb (isLandmarkVisible rightHip)
    then false
    else
      let hipCenter := (x leftHip + x rightHip) / 2 in
      Qlt_bool 0.3 (Qabs (hipCenter - 0.5)).

(** [evaluateSquat] (lines 71-146).  [now] is the value of the
    [new Date()] calls. *)
Definition evaluateSquat (now : Z) (angles : JointAngles Q)
  (landmarks : list PoseLandmark) : ExerciseScore * list ExerciseFeedback :=
  let trunkScore := evaluateAngle (trunkAngle angles) squat_trunkAngle in
  let totalScore1 := 0 + trunkScore * weight squat_trunkAngle in
  let feedback1 :=
    if Qlt_bool trunkScore 0.7 then
      [{| message := "Keep chest up"; type := Store.warning; priority := 2;
          timestamp := now |}]
    else [] in
  let hipScore := evaluateAngle (hipAngle angles) squat_hipAngle in
  let totalScore2 := totalScore1 + hipScore * weight squat_hipAngle in
  let feedback2 :=
    if Qlt_bool hipScore 0.6 then
      feedback1 ++
      [{| message := "Go deeper"; type := Store.warning; priority := 1;
          timestamp := now |}]
    else if Qlt_bool 0.9 hipScore then
      feedback1 ++
      [{| message := "Good depth!"; type := Store.info; priority := 3;
          timestamp := now |}]
    else feedback1 in
  let kneeScore := evaluateAngle (kneeAngle angles) squat_kneeAngle in
  let totalScore3 := totalScore2 + kneeScore * weight squat_kneeAngle in
  let feedback3 :=
    if Qlt_bool kneeScore 0.7 then
      feedback2 ++
      [{| message := "Push knees out"; type := Store.warning; priority := 2;
          timestamp := now |}]
    else feedback2 in
  let valgusFlag := checkKneeValgus landmarks in
  let flags := if valgusFlag then ["Knee valgus detected"%string] else [] in
  let feedback4 :=
    if valgusFlag then
      feedback3 ++
      [{| message := "Keep knees in line with toes"; type := Store.error;
          priority := 1; timestamp := now |}]
    else feedback3 in
  ({| overall := round (totalScore3 * 100);
      breakdown := [("trunkAngle"%string, trunkScore);
                    ("hipAngle"%string, hipScore);
                    ("kneeAngle"%string, kneeScore)];
      flags := flags |},
   feedback4).

(** [evaluatePullup] (lines 148-216). *)
Definition evaluatePullup (now : Z) (angles : JointAngles Q)
  (landmarks : list PoseLandmark) : ExerciseScore * list ExerciseFeedback :=
  let shoulderScore :=
    evaluateAngle (shoulderAngle angles) pullup_shoulderAngle in
  let totalScore1 := 0 + shoulderScore * weight pullup_shoulderAngle in
  let feedback1 :=
    if Qlt_bool shoulderScore 0.7 then
      [{| message := "Keep shoulders engaged"; type := Store.warning;
          priority := 2; timestamp := now |}]
    else [] in
  let elbowScore := evaluateAngle (elbowAngle angles) pullup_elbowAngle in
  let totalScore2 := totalScore1 + elbowScore * weight pullup_elbowAngle in
  let feedback2 :=
    if Qlt_bool elbowScore 0.7 then
      feedback1 ++
      [{| message := "Pull with your back"; type := Store.warning;
          priority := 2; timestamp := now |}]
    else feedback1 in
  let chinScore := checkChinOverBar landmarks in
  let totalScore3 := totalScore2 + chinScore * weight pullup_chinOverBar in
  let feedback3 :=
    if Qlt_bool chinScore 0.7 then
      feedback2 ++
      [{| message := "Pull chin over bar"; type := Store.warning;
          priority := 1; timestamp := now |}]
    else feedback2 in
  let swingFlag := checkSwinging landmarks in
  let flags := if swingFlag then ["Swinging detected"%string] else [] in
  let feedback4 :=
    if swingFlag then
      feedback3 ++
      [{| message := "Control the movement"; type := Store.error;
          priority := 1; timestamp := now |}]
    else feedback3 in
  ({| overall := round (totalScore3 * 100);
      breakdown := [("shoulderAngle"%string, shoulderScore);
                    ("elbowAngle"%string, elbowScore);
                    ("chinOverBar"%string, chinScore)];
      flags := flags |},
   feedback4).

(** [getScoreColor] *)
Definition getScoreColor (score : Q) : string :=
  if Qle_bool 80 score then "#22c55e"
  else if Qle_bool 60 score then "#f59e0b"
  else "#ef4444".

(** Whether the feedback list carries the message. *)
Definition says (text : string) (feedback : list ExerciseFeedback) : bool :=
  existsb (fun fb => String.eqb (message fb) text) feedback.

(** What the record page does with an evaluation ([page.tsx], lines
    215-217 and 241-243): every feedback item goes to the store's
    [addFeedback] under the number of the rep just completed. *)
Definition storeFeedback (repNumber : Z) (feedback : list ExerciseFeedback)
  (state : Store.AppState) : Store.AppState :=
  fold_left
    (fun st fb =>
       Store.addFeedback (message fb) (type fb) (Some (priority fb))
         (Some repNumber) st)
    feedback state.

End Engine.

(** ** [src/app/api/assess/route.ts]: the template tips *)

Module Assess.
Local Open Scope Q_scope.

Record AssessmentRequest : Type := mkRequest {
  exercise : string;
  angles : JointAngles Q;
  flags : list string;
  score : Q;
  repCount : Z
}.

(** [tips[i] = tip].  Every use below follows three [push] calls and has
    [i] below 3, so the index is always in range. *)
Fixpoint assign (i : nat) (tip : string) (tips : list string) : list string :=
  match tips, i with
  | [], _ => []
  | _ :: rest, O => tip :: rest
  | t :: rest, S k => t :: assign k tip rest
  end.

Definition includes (flag : string) (flags : list string) : bool :=
  existsb (String.eqb flag) flags.

(** The [tips] of [generateTemplateSummary] (lines 212-262); the
    [summary] string, which formats the score and the rep count, is not
    modelled. *)
Definition templateTips (request : AssessmentRequest) : list string :=
  let tips0 :=
    if Qlt_bool (score request) 60 then
      ["Focus on basic form before increasing intensity";
       "Practice with slower, controlled movements";
       "Consider reducing range of motion initially"]%string
    else if Qlt_bool (score request) 80 then
      ["Good progress! Focus on consistency";
       "Pay attention to breathing patterns";
       "Gradually increase difficulty"]%string
    else
      ["Excellent form! Maintain this quality";
       "Consider adding variations or resistance";
       "Great job on technique consistency"]%string in
  let tips1 :=
    if String.eqb (exercise request) "squat" then
      let t :=
        if Qlt_bool (hipAngle (angles request)) 60 then
          assign 0 "Go deeper in your squat for better range of motion" tips0
        else tips0 in
      if Qlt_bool 20 (trunkAngle (angles request)) then
        assign 1 "Keep your chest up and back straight" t
      else t
    else if String.eqb (exercise request) "pullup" then
      let t :=
        if Qlt_bool 30 (shoulderAngle (angles request)) then
          assign 0 "Engage your shoulders and keep them stable" tips0
        else tips0 in
      if Qlt_bool 120 (elbowAngle (angles request)) then
        assign 1 "Pull with your back muscles, not just arms" t
      else t
    else tips0 in
  let tips2 :=
    if includes "Knee valgus detected" (flags request) then
      assign 2 "Push your knees out to align with your toes" tips1
    else tips1 in
  let tips3 :=
    if includes "Swinging detected" (flags request) then
      assign 2 "Control the movement and avoid momentum" tips2
    else tips2 in
  firstn 3 tips3.

End Assess.

(** * Properties of the angle calculator *)

Module AnglesFacts.
Import Angles.
Local Open Scope R_scope.

(** ** Clamps and blends *)

Lemma clamp_max_min (lo hi v : R) :
  lo <= hi -> lo <= Rmax lo (Rmin hi v) <= hi.
Proof.
  intros Hlh. split.
  - apply Rmax_l.
  - apply Rmax_lub; [exact Hlh | apply Rmin_l].
Qed.

Lemma clamp_min_max (lo hi v : R) :
  lo <= hi -> lo <= Rmin hi (Rmax lo v) <= hi.
Proof.
  intros Hlh. split.
  - apply Rmin_glb; [exact Hlh | apply Rmax_l].
  - apply Rmin_l.
Qed.

Lemma smoothAngle_between (lo hi current previous : R) :
  lo <= current <= hi -> lo <= previous <= hi ->
  lo <= smoothAngle current previous <= hi.
Proof.
  unfold smoothAngle, SMOOTHING_FACTOR. intros [Hc1 Hc2] [Hp1 Hp2]. lra.
Qed.

Lemma smoothAngle_weights (current previous : R) :
  smoothAngle current previous = 0.8 * previous + 0.2 * current.
Proof. unfold smoothAngle, SMOOTHING_FACTOR. lra. Qed.

(** ** Ranges of the raw angles *)

Lemma calculateAngleBetweenVectors_range (v1 v2 : Vec2) :
  0 <= calculateAngleBetweenVectors v1 v2 <= 180.
Proof.
  unfold calculateAngleBetweenVectors.
  destruct (Req_dec_T _ 0) as [_ | _]; [lra |].
  destruct (Req_dec_T _ 0) as [_ | _]; [lra |].
  apply clamp_max_min. lra.
Qed.

Lemma obtuseAt_range (l1 l2 l3 : PoseLandmark) (v1 v2 : Vec2) :
  0 <= obtuseAt l1 l2 l3 v1 v2 <= 180.
Proof.
  unfold obtuseAt.
  destruct (negb _ || negb _ || negb _); [lra |].
  pose proof (calculateAngleBetweenVectors_range v1 v2). lra.
Qed.

Lemma calculateTrunkAngle_range (landmarks : list PoseLandmark) :
  0 <= calculateTrunkAngle landmarks <= 90.
Proof.
  unfold calculateTrunkAngle.
  destruct (negb _ || negb _); [lra |].
  cbv zeta. destruct (Req_dec_T _ 0) as [_ | _]; [lra |].
  apply clamp_min_max. lra.
Qed.

Lemma rawAngles_inRange (landmarks : list PoseLandmark) :
  inRange (rawAngles landmarks).
Proof.
  unfold inRange, rawAngles; cbn [trunkAngle hipAngle kneeAngle shoulderAngle
                                    elbowAngle ankleAngle].
  unfold calculateHipAngle, calculateKneeAngle, calculateShoulderAngle,
    calculateElbowAngle, calculateAnkleAngle.
  refine (conj _ (conj _ (conj _ (conj _ (conj _ _)))));
    first [apply calculateTrunkAngle_range | apply obtuseAt_range].
Qed.

Lemma smoothedAgainst_inRange (raw last : JointAngles R) :
  inRange raw -> inRange last -> inRange (smoothedAgainst raw last).
Proof.
  unfold inRange, smoothedAgainst.
  cbn [trunkAngle hipAngle kneeAngle shoulderAngle elbowAngle ankleAngle].
  intros (Rt & Rh & Rk & Rs & Re & Ra) (Lt & Lh & Lk & Ls & Le & La).
  refine (conj _ (conj _ (conj _ (conj _ (conj _ _)))));
    apply smoothAngle_between; assumption.
Qed.

Lemma zeroAngles_inRange : inRange zeroAngles.
Proof. unfold inRange, zeroAngles; cbn. lra. Qed.

(** ** The two paths of [calculateAngles] *)

Lemma calculateAngles_short (landmarks : list PoseLandmark) (m : Memory) :
  (List.length landmarks < 33)%nat ->
  calculateAngles landmarks m = (zeroAngles, m).
Proof.
  intros Hlen. unfold calculateAngles.
  apply Nat.ltb_lt in Hlen. rewrite Hlen. reflexivity.
Qed.

Lemma calculateAngles_full (landmarks : list PoseLandmark) (m : Memory) :
  (33 <= List.length landmarks)%nat ->
  calculateAngles landmarks m =
  match m with
  | Some last =>
      (smoothedAgainst (rawAngles landmarks) last,
       Some (smoothedAgainst (rawAngles landmarks) last))
  | None => (rawAngles landmarks, Some (rawAngles landmarks))
  end.
Proof.
  intros Hlen. unfold calculateAngles.
  apply Nat.ltb_ge in Hlen. rewrite Hlen.
  destruct m; reflexivity.
Qed.

(** The memory only ever holds angles in range: every sequence of calls
    from the unseeded state keeps it so. *)
Lemma calculateAngles_preserves_range (landmarks : list PoseLandmark)
  (m : Memory) :
  memoryInRange m ->
  inRange (fst (calculateAngles landmarks m)) /\
  memoryInRange (snd (calculateAngles landmarks m)).
Proof.
  intros Hm.
  destruct (Nat.lt_ge_cases (List.length landmarks) 33) as [Hs | Hf].
  - rewrite calculateAngles_short by exact Hs. cbn.
    split; [apply zeroAngles_inRange | exact Hm].
  - rewrite calculateAngles_full by exact Hf.
    destruct m as [last |]; cbn.
    + pose proof (smoothedAgainst_inRange _ _ (rawAngles_inRange landmarks) Hm).
      split; assumption.
    + split; apply rawAngles_inRange.
Qed.

(** C8.  A landmark sequence with fewer than 33 entries yields all six
    angles equal to 0, whatever the smoothing memory holds. *)
Theorem calculateAngles_fewer_than_33_all_zero :
  forall (landmarks : list PoseLandmark) (lastAngles : Memory),
    (List.length landmarks < 33)%nat ->
    let angles := fst (calculateAngles landmarks lastAngles) in
    trunkAngle angles = 0 /\ hipAngle angles = 0 /\ kneeAngle angles = 0 /\
    shoulderAngle angles = 0 /\ elbowAngle angles = 0 /\ ankleAngle angles = 0.
Proof.
  intros landmarks lastAngles Hlen angles. subst angles.
  rewrite calculateAngles_short by exact Hlen.
  cbn. repeat split; reflexivity.
Qed.

Lemma calculateAngles_fewer_than_33_all_zero_witness :
  (List.length shortFrame < 33)%nat /\
  let angles :=
    fst (calculateAngles shortFrame (Some (rawAngles standingFrame))) in
  trunkAngle angles = 0 /\ hipAngle angles = 0 /\ kneeAngle angles = 0 /\
  shoulderAngle angles = 0 /\ elbowAngle angles = 0 /\ ankleAngle angles = 0.
Proof.
  assert (H : (List.length shortFrame < 33)%nat) by (cbn; lia).
  split; [exact H |].
  exact (calculateAngles_fewer_than_33_all_zero
           shortFrame (Some (rawAngles standingFrame)) H).
Defined.


(** C10.  A call with fewer than 33 landmarks leaves the smoothing memory
    as it was: after a full frame, a short frame and another full frame,
    the last result is the raw angles of the third frame blended with the
    angles returned for the first one, not with the zero sentinel. *)
Theorem calculateAngles_short_frame_keeps_memory :
  forall (lastAngles : Memory) (full1 short full2 : list PoseLandmark),
    (33 <= List.length full1)%nat ->
    (List.length short < 33)%nat ->
    (33 <= List.length full2)%nat ->
    let '(a1, m1) := calculateAngles full1 lastAngles in
    let '(a2, m2) := calculateAngles short m1 in
    let '(a3, m3) := calculateAngles full2 m2 in
    snd (calculateAngles short lastAngles) = lastAngles /\
    m2 = m1 /\ m1 = Some a1 /\
    a3 = smoothedAgainst (rawAngles full2) a1.
Proof.
  intros lastAngles full1 short full2 H1 Hs H2.
  rewrite (calculateAngles_short short lastAngles Hs).
  rewrite (calculateAngles_full full1 lastAngles H1).
  destruct lastAngles as [last |].
  - rewrite (calculateAngles_short short _ Hs), (calculateAngles_full full2 _ H2).
    cbn. repeat split; reflexivity.
  - rewrite (calculateAngles_short short _ Hs), (calculateAngles_full full2 _ H2).
    cbn. repeat split; reflexivity.
Qed.

Lemma standingFrame_length : List.length standingFrame = 33%nat.
Proof. reflexivity. Qed.

Lemma occludedFrame_length : List.length occludedFrame = 33%nat.
Proof. reflexivity. Qed.

Lemma shortFrame_length : List.length shortFrame = 12%nat.
Proof. reflexivity. Qed.

Lemma calculateAngles_short_frame_keeps_memory_witness :
  let '(a1, m1) := calculateAngles standingFrame None in
  let '(a2, m2) := calculateAngles shortFrame m1 in
  let '(a3, m3) := calculateAngles occludedFrame m2 in
  snd (calculateAngles shortFrame None) = None /\
  m2 = m1 /\ m1 = Some a1 /\
  a3 = smoothedAgainst (rawAngles occludedFrame) a1.
Proof.
  apply (calculateAngles_short_frame_keeps_memory
           None standingFrame shortFrame occludedFrame).
  - rewrite standingFrame_length. lia.
  - rewrite shortFrame_length. lia.
  - rewrite occludedFrame_length. lia.
Defined.

(** C7.  On an unseeded smoothing state, the first of two consecutive
    calls returns its raw angles [a0] unmodified and the second returns
    [0.8 * a0 + 0.2 * a1] in each of the six angles. *)
Theorem calculateAngles_two_calls_from_fresh :
  forall (landmarks0 landmarks1 : list PoseLandmark),
    (33 <= List.length landmarks0)%nat ->
    (33 <= List.length landmarks1)%nat ->
    let a0 := rawAngles landmarks0 in
    let a1 := rawAngles landmarks1 in
    let '(r0, m0) := calculateAngles landmarks0 None in
    let '(r1, _) := calculateAngles landmarks1 m0 in
    r0 = a0 /\
    trunkAngle r1 = 0.8 * trunkAngle a0 + 0.2 * trunkAngle a1 /\
    hipAngle r1 = 0.8 * hipAngle a0 + 0.2 * hipAngle a1 /\
    kneeAngle r1 = 0.8 * kneeAngle a0 + 0.2 * kneeAngle a1 /\
    shoulderAngle r1 = 0.8 * shoulderAngle a0 + 0.2 * shoulderAngle a1 /\
    elbowAngle r1 = 0.8 * elbowAngle a0 + 0.2 * elbowAngle a1 /\
    ankleAngle r1 = 0.8 * ankleAngle a0 + 0.2 * ankleAngle a1.
Proof.
  intros landmarks0 landmarks1 H0 H1 a0 a1.
  rewrite (calculateAngles_full landmarks0 None H0).
  rewrite (calculateAngles_full landmarks1 (Some (rawAngles landmarks0)) H1).
  unfold smoothedAgainst.
  cbn [trunkAngle hipAngle kneeAngle shoulderAngle elbowAngle ankleAngle].
  subst a0 a1.
  refine (conj eq_refl (conj _ (conj _ (conj _ (conj _ (conj _ _))))));
    apply smoothAngle_weights.
Qed.

Lemma calculateAngles_two_calls_from_fresh_witness :
  let a0 := rawAngles standingFrame in
  let a1 := rawAngles occludedFrame in
  let '(r0, m0) := calculateAngles standingFrame None in
  let '(r1, _) := calculateAngles occludedFrame m0 in
  r0 = a0 /\
  trunkAngle r1 = 0.8 * trunkAngle a0 + 0.2 * trunkAngle a1 /\
  hipAngle r1 = 0.8 * hipAngle a0 + 0.2 * hipAngle a1 /\
  kneeAngle r1 = 0.8 * kneeAngle a0 + 0.2 * kneeAngle a1 /\
  shoulderAngle r1 = 0.8 * shoulderAngle a0 + 0.2 * shoulderAngle a1 /\
  elbowAngle r1 = 0.8 * elbowAngle a0 + 0.2 * elbowAngle a1 /\
  ankleAngle r1 = 0.8 * ankleAngle a0 + 0.2 * ankleAngle a1.
Proof.
  apply (calculateAngles_two_calls_from_fresh standingFrame occludedFrame).
  - rewrite standingFrame_length. lia.
  - rewrite occludedFrame_length. lia.
Defined.

(** C9.  With at least 33 landmarks and a smoothing memory whose stored
    angles are in range, every returned angle lies in [0,180] and the
    trunk angle in [0,90]; the memory stays in range as well. *)
Theorem calculateAngles_result_in_range :
  forall (landmarks : list PoseLandmark) (lastAngles : Memory),
    (33 <= List.length landmarks)%nat ->
    memoryInRange lastAngles ->
    let '(angles, lastAngles') := calculateAngles landmarks lastAngles in
    (0 <= trunkAngle angles <= 90 /\
     0 <= trunkAngle angles <= 180 /\
     0 <= hipAngle angles <= 180 /\
     0 <= kneeAngle angles <= 180 /\
     0 <= shoulderAngle angles <= 180 /\
     0 <= elbowAngle angles <= 180 /\
     0 <= ankleAngle angles <= 180) /\
    memoryInRange lastAngles'.
Proof.
  intros landmarks lastAngles _ Hm.
  destruct (calculateAngles_preserves_range landmarks lastAngles Hm) as [Ha Hm'].
  destruct (calculateAngles landmarks lastAngles) as [angles m'].
  cbn [fst snd] in Ha, Hm'.
  destruct Ha as (Ht & Hh & Hk & Hs & He & Hk').
  split; [| exact Hm'].
  refine (conj Ht (conj _ (conj Hh (conj Hk (conj Hs (conj He Hk')))))).
  lra.
Qed.

Lemma calculateAngles_result_in_range_witness :
  let '(angles, lastAngles') :=
    calculateAngles standingFrame (Some zeroAngles) in
  (0 <= trunkAngle angles <= 90 /\
   0 <= trunkAngle angles <= 180 /\
   0 <= hipAngle angles <= 180 /\
   0 <= kneeAngle angles <= 180 /\
   0 <= shoulderAngle angles <= 180 /\
   0 <= elbowAngle angles <= 180 /\
   0 <= ankleAngle angles <= 180) /\
  memoryInRange lastAngles'.
Proof.
  apply (calculateAngles_result_in_range standingFrame (Some zeroAngles)).
  - rewrite standingFrame_length. lia.
  - unfold memoryInRange, inRange, zeroAngles; cbn. lra.
Defined.

End AnglesFacts.

(** * The smoothing memory across recording sessions *)

Module SessionFacts.
Import Angles AnglesFacts.
Local Open Scope R_scope.

Lemma seen_visible (px py : R) : isLandmarkVisible (seen px py) = true.
Proof.
  unfold isLandmarkVisible, seen; cbn.
  destruct (Rlt_dec 0.5 0.9) as [_ | Hn]; [reflexivity | exfalso; lra].
Qed.

Lemma lowVisibility_hidden (px py : R) :
  isLandmarkVisible (lowVisibility px py) = false.
Proof.
  unfold isLandmarkVisible, lowVisibility; cbn.
  destruct (Rlt_dec 0.5 0.1) as [Hlt | _]; [exfalso; lra | reflexivity].
Qed.

(** Two vectors pointing straight down the image make an angle of 0. *)
Lemma calculateAngleBetweenVectors_aligned (v1 v2 : Vec2) :
  vx v1 = 0 -> vx v2 = 0 -> 0 < vy v1 -> 0 < vy v2 ->
  calculateAngleBetweenVectors v1 v2 = 0.
Proof.
  intros Hx1 Hx2 Hy1 Hy2. unfold calculateAngleBetweenVectors.
  rewrite Hx1, Hx2.
  replace (0 * 0 + vy v1 * vy v1) with (vy v1 * vy v1) by ring.
  replace (0 * 0 + vy v2 * vy v2) with (vy v2 * vy v2) by ring.
  rewrite !sqrt_square by lra.
  destruct (Req_dec_T (vy v1) 0) as [E | _]; [exfalso; lra |].
  destruct (Req_dec_T (vy v2) 0) as [E | _]; [exfalso; lra |].
  cbv zeta.
  replace ((0 * 0 + vy v1 * vy v2) / (vy v1 * vy v2)) with 1
    by (field; split; lra).
  rewrite (Rmin_left 1 1) by lra.
  rewrite (Rmax_right (-1) 1) by lra.
  rewrite acos_1, Rmult_0_l.
  rewrite (Rmin_right 180 0) by lra.
  apply Rmax_left. lra.
Qed.

(** The knee of the standing frame is fully extended. *)
Lemma standingFrame_knee : calculateKneeAngle standingFrame = 180.
Proof.
  unfold calculateKneeAngle, at_index, standingFrame.
  cbn [map seq nth standingLandmark Nat.add].
  unfold obtuseAt. rewrite !seen_visible. cbn [negb orb].
  rewrite calculateAngleBetweenVectors_aligned; cbn [vx vy x y seen]; lra.
Qed.

Lemma occludedFrame_knee : calculateKneeAngle occludedFrame = 0.
Proof.
  unfold calculateKneeAngle, at_index, occludedFrame.
  cbn [repeat nth].
  unfold obtuseAt. rewrite !lowVisibility_hidden. reflexivity.
Qed.

(** Starting and stopping a recording leave the smoothing memory as it
    is. *)
Lemma pageStep_start_stop (m : Memory) :
  pageStep m StartRecording = (None, m) /\
  pageStep m StopRecording = (None, m).
Proof. split; reflexivity. Qed.

(** Whatever the previous session left in the memory is what the first
    full frame of the next session is blended with. *)
Lemma first_frame_after_restart (last : JointAngles R)
  (landmarks : list PoseLandmark) :
  (33 <= List.length landmarks)%nat ->
  fst (pageRun (Some last)
         [StopRecording; StartRecording; PoseResults landmarks]) =
  [smoothedAgainst (rawAngles landmarks) last].
Proof.
  intros Hlen. cbn [pageRun pageStep].
  rewrite (calculateAngles_full landmarks (Some last) Hlen). reflexivity.
Qed.

(** C2.  The page events of two recordings: one standing frame in the
    first, then stop, start again, and one fully occluded frame.  The
    raw knee angle of the second recording's first frame is 0, yet the
    value returned for it is 144 = 0.8 * 180 + 0.2 * 0: it is blended
    with the knee angle of the previous recording. *)
Theorem smoothing_memory_carries_over_sessions :
  let events :=
    [StartRecording; PoseResults standingFrame; StopRecording;
     StartRecording; PoseResults occludedFrame] in
  exists first second : JointAngles R,
    fst (pageRun None events) = [first; second] /\
    kneeAngle first = 180 /\
    kneeAngle (rawAngles occludedFrame) = 0 /\
    kneeAngle second = 144 /\
    second <> rawAngles occludedFrame.
Proof.
  cbn [pageRun pageStep].
  rewrite (calculateAngles_full standingFrame None)
    by (rewrite standingFrame_length; lia).
  rewrite (calculateAngles_full occludedFrame
             (Some (rawAngles standingFrame)))
    by (rewrite occludedFrame_length; lia).
  cbn [fst].
  assert (K2 : kneeAngle (smoothedAgainst (rawAngles occludedFrame)
                            (rawAngles standingFrame)) = 144).
  { unfold smoothedAgainst, rawAngles; cbn [kneeAngle].
    rewrite standingFrame_knee, occludedFrame_knee.
    unfold smoothAngle, SMOOTHING_FACTOR. lra. }
  assert (K0 : kneeAngle (rawAngles occludedFrame) = 0).
  { unfold rawAngles; cbn [kneeAngle]. apply occludedFrame_knee. }
  eexists _, _. split; [reflexivity |].
  split; [unfold rawAngles; cbn [kneeAngle]; apply standingFrame_knee |].
  split; [exact K0 |].
  split; [exact K2 |].
  intros Heq. rewrite Heq in K2. rewrite K0 in K2. lra.
Qed.

End SessionFacts.

(** * Properties of the rules engine *)

Module RulesFacts.
Import Rules.
Local Open Scope Q_scope.

Lemma Qle_bool_false (a b : Q) : Qle_bool a b = false <-> b < a.
Proof.
  split.
  - intros H. apply Qnot_le_lt. intros Hle.
    apply Qle_bool_iff in Hle. congruence.
  - intros H. destruct (Qle_bool a b) eqn:E; [| reflexivity].
    apply Qle_bool_iff in E. exfalso. apply (Qlt_not_le _ _ H E).
Qed.

Lemma Qlt_bool_iff (a b : Q) : Qlt_bool a b = true <-> a < b.
Proof.
  unfold Qlt_bool. rewrite negb_true_iff. apply Qle_bool_false.
Qed.

Lemma Qlt_bool_false (a b : Q) : Qlt_bool a b = false <-> b <= a.
Proof.
  unfold Qlt_bool. rewrite negb_false_iff. apply Qle_bool_iff.
Qed.

(** Turns every boolean comparison of the goal into an order fact. *)
Ltac q_cases :=
  repeat match goal with
    | |- context [Qle_bool ?a ?b] =>
        let E := fresh "E" in
        destruct (Qle_bool a b) eqn:E;
        [apply Qle_bool_iff in E | apply Qle_bool_false in E]
    end.

(** The score inside the range, case by case. *)
Lemma evaluateAngle_inside (rule : ExerciseRule) (a : Q) :
  let lo := min (thresholds rule) in
  let hi := max (thresholds rule) in
  let half := (hi - lo) / 2 in
  let dist := Qabs (a - optimal (thresholds rule)) in
  lo <= a <= hi ->
  (dist <= 0.2 * half -> evaluateAngle a rule == 1) /\
  (0.2 * half < dist <= 0.4 * half -> evaluateAngle a rule == 0.9) /\
  (0.4 * half < dist <= 0.6 * half -> evaluateAngle a rule == 0.8) /\
  (0.6 * half < dist <= 0.8 * half -> evaluateAngle a rule == 0.7) /\
  (0.8 * half < dist -> evaluateAngle a rule == 0.6).
Proof.
  intros lo hi half dist [Hlo Hhi].
  assert (Hhalf : 0 <= half).
  { unfold half, Qdiv. change (/ 2) with (1 # 2). Lqa.lra. }
  unfold evaluateAngle. fold lo hi.
  apply Qle_bool_iff in Hlo, Hhi. rewrite Hlo, Hhi. cbn [andb].
  cbv zeta. fold dist. change ((hi - lo) / 2) with half.
  clearbody dist half.
  refine (conj _ (conj _ (conj _ (conj _ _)))); intros H; q_cases;
    first [Lqa.lra | exfalso; Lqa.lra].
Qed.

Lemma evaluateAngle_below (rule : ExerciseRule) (a : Q) :
  a < min (thresholds rule) ->
  evaluateAngle a rule == Qmax 0 (0.5 - (min (thresholds rule) - a) / 10).
Proof.
  intros Hlt. unfold evaluateAngle.
  apply Qle_bool_false in Hlt. rewrite Hlt. cbn [andb].
  unfold Qlt_bool. rewrite Hlt. reflexivity.
Qed.

Lemma evaluateAngle_above (rule : ExerciseRule) (a : Q) :
  min (thresholds rule) <= a -> max (thresholds rule) < a ->
  evaluateAngle a rule == Qmax 0 (0.5 - (a - max (thresholds rule)) / 10).
Proof.
  intros Hge Hgt. unfold evaluateAngle.
  apply Qle_bool_false in Hgt. apply Qle_bool_iff in Hge.
  rewrite Hge, Hgt. cbn [andb].
  unfold Qlt_bool. rewrite Hge. reflexivity.
Qed.

(** C3.  The score curve of [evaluateAngle].  Inside [[min,max]] the
    score is the tier of the distance from [optimal] relative to half the
    range (1.0, 0.9, 0.8, 0.7, 0.6 at 20%, 40%, 60%, 80%); outside it is
    [max(0, 0.5 - d/10)] for [d] degrees past the boundary that was
    crossed.  Hence an angle at an [optimal] that lies in the range scores
    1.0, and an angle 10 degrees beyond [max] scores 0. *)
Theorem evaluateAngle_score_curve :
  forall (rule : ExerciseRule) (a : Q),
    let lo := min (thresholds rule) in
    let hi := max (thresholds rule) in
    let opt := optimal (thresholds rule) in
    let half := (hi - lo) / 2 in
    let dist := Qabs (a - opt) in
    (lo <= a <= hi ->
       (dist <= 0.2 * half -> evaluateAngle a rule == 1) /\
       (0.2 * half < dist <= 0.4 * half -> evaluateAngle a rule == 0.9) /\
       (0.4 * half < dist <= 0.6 * half -> evaluateAngle a rule == 0.8) /\
       (0.6 * half < dist <= 0.8 * half -> evaluateAngle a rule == 0.7) /\
       (0.8 * half < dist -> evaluateAngle a rule == 0.6)) /\
    (a < lo -> evaluateAngle a rule == Qmax 0 (0.5 - (lo - a) / 10)) /\
    (lo <= a -> hi < a ->
       evaluateAngle a rule == Qmax 0 (0.5 - (a - hi) / 10)) /\
    (lo <= opt <= hi -> evaluateAngle opt rule == 1) /\
    (lo <= hi -> evaluateAngle (hi + 10) rule == 0).
Proof.
  intros rule a lo hi opt half dist.
  split; [apply evaluateAngle_inside |].
  split; [apply evaluateAngle_below |].
  split; [apply evaluateAngle_above |].
  split.
  - intros [Hlo Hhi].
    destruct (evaluateAngle_inside rule opt (conj Hlo Hhi)) as [Hbest _].
    apply Hbest. fold opt.
    setoid_replace (opt - opt) with 0 by ring.
    change (Qabs 0) with 0. unfold Qdiv. change (/ 2) with (1 # 2).
    fold lo hi. Lqa.lra.
  - intros Hle.
    rewrite (evaluateAngle_above rule (hi + 10)); fold lo hi; try Lqa.lra.
    apply Q.max_l. unfold Qdiv. change (/ 10) with (1 # 10). Lqa.lra.
Qed.

Lemma evaluateAngle_score_curve_witness :
  evaluateAngle 95 squat_hipAngle == 1 /\
  evaluateAngle 90 squat_hipAngle == 1 /\
  evaluateAngle 140 squat_hipAngle == 0.
Proof.
  destruct (evaluateAngle_score_curve squat_hipAngle 95)
    as (Hin & _ & _ & Hopt & Hfar).
  split; [| split].
  - apply Hin; [split; vm_compute; discriminate | vm_compute; discriminate].
  - apply Hopt. split; vm_compute; discriminate.
  - apply Hfar. vm_compute; discriminate.
Defined.

(** Every rule of the two tables has its [optimal] inside its range, so
    both particular cases hold for all of them. *)
Lemma rule_tables_optimal_and_far :
  Forall (fun rule =>
            evaluateAngle (optimal (thresholds rule)) rule == 1 /\
            evaluateAngle (max (thresholds rule) + 10) rule == 0)
    (squatRules ++ pullupRules).
Proof.
  repeat constructor; vm_compute; reflexivity.
Qed.

End RulesFacts.

(** * Properties of the session feedback store *)

Module StoreFacts.
Import Store.
Local Open Scope Z_scope.

Lemma sameFeedback_key (message0 : string) (target : Z) (fb : Feedback) :
  sameFeedback message0 target fb = true <->
  feedbackKey fb = (message0, target).
Proof.
  unfold sameFeedback, feedbackKey.
  rewrite andb_true_iff, String.eqb_eq, Z.eqb_eq.
  split.
  - intros [Hm Hr]. now rewrite Hm, Hr.
  - intros H. injection H as Hm Hr. now split.
Qed.

Lemma existsb_sameFeedback (message0 : string) (target : Z)
  (fbs : list Feedback) :
  existsb (sameFeedback message0 target) fbs = true <->
  In (message0, target) (map feedbackKey fbs).
Proof.
  rewrite existsb_exists, in_map_iff. split.
  - intros (fb & Hin & Hs). exists fb. split; [| exact Hin].
    now apply sameFeedback_key.
  - intros (fb & Hk & Hin). exists fb. split; [exact Hin |].
    now apply sameFeedback_key.
Qed.

(** The entry a submission builds has the submitted pair as its key. *)
Lemma built_entry_key (message0 : string) (target : Z) (type0 : FeedbackType)
  (priority0 : Z) :
  feedbackKey {| repNumber := target; message := message0; type := type0;
                 priority := priority0 |} = (message0, target).
Proof. reflexivity. Qed.

(** In a list without duplicate keys, a key that occurs occurs once. *)
Lemma storedTimes_once (key : string * Z) (fbs : list Feedback) :
  NoDup (map feedbackKey fbs) ->
  In key (map feedbackKey fbs) ->
  storedTimes key fbs = 1%nat.
Proof.
  intros Hnd Hin. unfold storedTimes.
  exact (proj1 (NoDup_count_occ' feedbackKey_eq_dec _) Hnd key Hin).
Qed.

(** After one submission the pair is among the stored keys: it was there
    already, or the entry just appended carries it. *)
Lemma submitted_pair_stored (message0 : string) (target : Z)
  (type0 : FeedbackType) (priority0 : Z) (fbs : list Feedback) :
  In (message0, target)
     (map feedbackKey
        (fbs ++
         (if existsb (sameFeedback message0 target) fbs then []
          else [{| repNumber := target; message := message0; type := type0;
                   priority := priority0 |}]))).
Proof.
  rewrite map_app, in_app_iff.
  destruct (existsb (sameFeedback message0 target) fbs) eqn:Hdup.
  - left. now apply existsb_sameFeedback.
  - right. left. reflexivity.
Qed.

(** ** The invariant of the store: no stored pair occurs twice *)

Lemma addFeedback_noDuplicatePairs (message0 : string) (type0 : FeedbackType)
  (priority0 repNumber0 : option Z) (state : AppState) :
  noDuplicatePairs state ->
  noDuplicatePairs (addFeedback message0 type0 priority0 repNumber0 state).
Proof.
  unfold noDuplicatePairs, addFeedback.
  destruct (currentSession state) as [s |] eqn:Hs; [| now rewrite Hs].
  intros Hnd.
  destruct (existsb _ (feedback s)) eqn:Hdup; [now rewrite Hs |].
  cbn [currentSession with_session set_feedback feedback].
  rewrite map_app. apply NoDup_app; [exact Hnd | |].
  - cbn. constructor; [intros [] | constructor].
  - intros k Hk [Hin | []]. cbn in Hin. subst k.
    apply existsb_sameFeedback in Hk. cbn [message repNumber] in Hk.
    congruence.
Qed.

Lemma dispatch_noDuplicatePairs (a : Action) (state : AppState) :
  noDuplicatePairs state -> noDuplicatePairs (dispatch a state).
Proof.
  destruct a; cbn [dispatch];
    try apply addFeedback_noDuplicatePairs;
    unfold noDuplicatePairs, setUser, updateExerciseSettings, startSession,
      endSession, incrementRep, updateScore, addFlag, clearSession,
      clearFeedback, with_session, set_feedback;
    destruct (currentSession state) as [s |] eqn:Hs; cbn; rewrite ?Hs;
    intros H; first [exact H | exact I | apply NoDup_nil].
Qed.

Lemma reachable_noDuplicatePairs (state : AppState) :
  reachable state -> noDuplicatePairs state.
Proof.
  induction 1 as [u es | a state _ IH].
  - exact I.
  - now apply dispatch_noDuplicatePairs.
Qed.


(** ** Insertion order *)

(** One submission leaves the stored list as it is or appends the new
    entry at its end. *)
Lemma addFeedback_appends (message0 : string) (type0 : FeedbackType)
  (priority0 repNumber0 : option Z) (state : AppState) (s : ExerciseSession) :
  currentSession state = Some s ->
  exists s',
    currentSession (addFeedback message0 type0 priority0 repNumber0 state)
    = Some s' /\
    repCount s' = repCount s /\
    feedback s' =
    feedback s ++
    (if existsb (sameFeedback message0 (targetRepNumber repNumber0 s))
          (feedback s)
     then []
     else [{| repNumber := targetRepNumber repNumber0 s;
              message := message0; type := type0;
              priority := match priority0 with Some p => p | None => 1 end |}]).
Proof.
  intros Hs. unfold addFeedback. rewrite Hs.
  destruct (existsb _ (feedback s)) eqn:Hdup.
  - exists s. rewrite app_nil_r. now repeat split.
  - eexists. cbn. repeat split.
Qed.




(** Over any run of actions that keep the session, the entries stored
    before the run stay where they are and new ones come after them. *)
Lemma dispatch_appends (a : Action) (state : AppState) (s : ExerciseSession) :
  keepsFeedback a = true ->
  currentSession state = Some s ->
  exists s' added,
    currentSession (dispatch a state) = Some s' /\
    feedback s' = feedback s ++ added.
Proof.
  intros Hk Hs. destruct a; try discriminate Hk; cbn [dispatch].
  - exists s, []. rewrite app_nil_r. now split.
  - exists s, []. rewrite app_nil_r. now split.
  - unfold endSession. rewrite Hs. eexists _, []. rewrite app_nil_r.
    split; reflexivity.
  - destruct (addFeedback_appends message0 type0 priority0 repNumber0
                state s Hs) as (s' & Hs' & _ & Hfb).
    exists s'. eexists. split; [exact Hs' | exact Hfb].
  - unfold incrementRep. rewrite Hs. eexists _, []. rewrite app_nil_r.
    split; reflexivity.
  - unfold updateScore. rewrite Hs. eexists _, []. rewrite app_nil_r.
    split; reflexivity.
  - unfold addFlag. rewrite Hs. eexists _, []. rewrite app_nil_r.
    split; reflexivity.
Qed.

Lemma dispatchAll_appends (actions : list Action) :
  forall (state : AppState) (s : ExerciseSession),
    forallb keepsFeedback actions = true ->
    currentSession state = Some s ->
    exists s' added,
      currentSession (dispatchAll actions state) = Some s' /\
      feedback s' = feedback s ++ added.
Proof.
  induction actions as [| a rest IH]; intros state s Hall Hs.
  - exists s, []. rewrite app_nil_r. now split.
  - cbn [forallb] in Hall. apply andb_true_iff in Hall as [Ha Hrest].
    destruct (dispatch_appends a state s Ha Hs) as (s1 & add1 & Hs1 & Hfb1).
    destruct (IH (dispatch a state) s1 Hrest Hs1)
      as (s2 & add2 & Hs2 & Hfb2).
    exists s2, (add1 ++ add2). split; [exact Hs2 |].
    now rewrite Hfb2, Hfb1, app_assoc.
Qed.

End StoreFacts.

(** * The feedback store: resubmission after other actions *)

Module StoreLaterFacts.
Import Store StoreFacts.
Local Open Scope Z_scope.

Lemma dispatchAll_reachable (actions : list Action) :
  forall state, reachable state -> reachable (dispatchAll actions state).
Proof.
  induction actions as [| a rest IH]; intros state H; [exact H |].
  cbn. apply IH. now apply reach_step.
Qed.

(** The second submission may come after any actions that keep the
    session: as long as it resolves to the same rep number as the first
    (always so for an explicit non-zero [repNumber]), it stores nothing,
    and the pair is stored exactly once. *)
Lemma addFeedback_again_later (state : AppState) (s : ExerciseSession)
  (actions : list Action) (message0 : string) (repNumber0 : option Z)
  (type1 type2 : FeedbackType) (priority1 priority2 : option Z) :
  reachable state ->
  currentSession state = Some s ->
  forallb keepsFeedback actions = true ->
  let target := targetRepNumber repNumber0 s in
  let once := addFeedback message0 type1 priority1 repNumber0 state in
  let later := dispatchAll actions once in
  let twice := addFeedback message0 type2 priority2 repNumber0 later in
  forall s3,
    currentSession later = Some s3 ->
    targetRepNumber repNumber0 s3 = target ->
    twice = later /\
    In (message0, target) (map feedbackKey (feedback s3)) /\
    storedTimes (message0, target) (feedback s3) = 1%nat.
Proof.
  intros Hreach Hs Hkeep target once later twice s3 Hs3 Htarget.
  destruct (addFeedback_appends message0 type1 priority1 repNumber0 state s Hs)
    as (s1 & Hs1 & _ & Hfb1).
  fold once in Hs1. fold target in Hfb1.
  destruct (dispatchAll_appends actions once s1 Hkeep Hs1)
    as (s3' & added & Hs3' & Hfb3).
  fold later in Hs3'. rewrite Hs3 in Hs3'. injection Hs3' as <-.
  assert (Hin : In (message0, target) (map feedbackKey (feedback s3))).
  { rewrite Hfb3, map_app, in_app_iff. left.
    rewrite Hfb1. apply submitted_pair_stored. }
  assert (Hpresent :
            existsb (sameFeedback message0 target) (feedback s3) = true)
    by now apply existsb_sameFeedback.
  split; [| split; [exact Hin |]].
  - unfold twice, addFeedback. rewrite Hs3, Htarget. now rewrite Hpresent.
  - apply storedTimes_once; [| exact Hin].
    assert (Hr : reachable later).
    { apply dispatchAll_reachable. now apply reach_step with
        (a := AAddFeedback message0 type1 priority1 repNumber0). }
    apply reachable_noDuplicatePairs in Hr.
    unfold noDuplicatePairs in Hr. now rewrite Hs3 in Hr.
Qed.

End StoreLaterFacts.

(** * Properties of the rep detector *)

Module RepFacts.
Import Rep.
Local Open Scope Z_scope.

(** ** What a single transition does *)

Lemma RepState_eqb_eq (a b : RepState) : RepState_eqb a b = true <-> a = b.
Proof. destruct a, b; cbn; split; congruence. Qed.

Lemma RepState_eqb_neq (a b : RepState) : RepState_eqb a b = false <-> a <> b.
Proof. destruct a, b; cbn; split; congruence. Qed.

(** [transitionTo] either does nothing or moves to a different phase,
    stamps the time and clears the frame counter and the confidence. *)
Lemma transitionTo_cases (newState : RepState) (timestamp : Z)
  (d : RepDetector) :
  transitionTo newState timestamp d = d \/
  (currentState d <> newState /\
   200 <= timestamp - lastRepTime d /\
   currentState (transitionTo newState timestamp d) = newState /\
   lastRepTime (transitionTo newState timestamp d) = timestamp /\
   consecutiveFrames (transitionTo newState timestamp d) = 0 /\
   stateConfidence (transitionTo newState timestamp d) = 0%Q /\
   repCount (transitionTo newState timestamp d) = repCount d).
Proof.
  unfold transitionTo.
  destruct (RepState_eqb (currentState d) newState) eqn:Hsame; [now left |].
  destruct (timestamp - lastRepTime d <? 200) eqn:Hsoon; [now left |].
  right. apply RepState_eqb_neq in Hsame. apply Z.ltb_ge in Hsoon.
  cbn. repeat split; auto.
Qed.

(** [completeRep] counts exactly when the time since [repStartTime] is
    within bounds; otherwise it changes nothing at all, the phase
    included.  When it counts it enters [COMPLETE] and leaves the frame
    counter, the confidence and [lastRepTime] as they were. *)
Lemma completeRep_cases (timestamp : Z) (d : RepDetector) :
  let repDuration := timestamp - repStartTime d in
  (currentState d <> COMPLETE /\
   MIN_REP_DURATION <= repDuration <= MAX_REP_DURATION /\
   currentState (completeRep timestamp d) = COMPLETE /\
   repCount (completeRep timestamp d) = repCount d + 1 /\
   repTimes (completeRep timestamp d) = pushRepTime repDuration (repTimes d) /\
   lastRepTime (completeRep timestamp d) = lastRepTime d /\
   consecutiveFrames (completeRep timestamp d) = consecutiveFrames d /\
   stateConfidence (completeRep timestamp d) = stateConfidence d)
  \/
  ((currentState d = COMPLETE \/
    ~ (MIN_REP_DURATION <= repDuration <= MAX_REP_DURATION)) /\
   completeRep timestamp d = d).
Proof.
  intros repDuration. unfold completeRep. fold repDuration.
  destruct (RepState_eqb (currentState d) COMPLETE) eqn:Hc.
  - right. apply RepState_eqb_eq in Hc. now split; [left |].
  - apply RepState_eqb_neq in Hc.
    destruct ((MIN_REP_DURATION <=? repDuration)
              && (repDuration <=? MAX_REP_DURATION)) eqn:Hd.
    + left. apply andb_true_iff in Hd as [H1 H2].
      apply Z.leb_le in H1, H2. cbn. repeat split; auto.
    + right. split; [right | reflexivity].
      apply andb_false_iff in Hd as [H | H]; apply Z.leb_gt in H; lia.
Qed.

Lemma updateSquatState_move (angles : JointAngles Q) (now : Z)
  (d : RepDetector) :
  SquatMove now d (updateSquatState angles now d).
Proof.
  unfold updateSquatState.
  destruct (negb (isCalibrated d)); [constructor |].
  cbv zeta.
  destruct (currentState d);
    repeat match goal with
      | |- context [if ?c then _ else _] => destruct c
      end;
    first [apply move_none | apply move_complete
          | apply move_transition; discriminate].
Qed.


(** ** One processed call *)

(** The detector after the state logic of a processed call (squat or
    pull-up logic, then the stuck-state check), before
    [updateConfidence]. *)
Lemma stateLogic_PhaseStep (angles : JointAngles Q) (now : Z)
  (d : RepDetector) :
  let d1 := set_lastUpdateTime now d in
  let d2 := match exercise d1 with
            | squat => updateSquatState angles now d1
            | pullup => updatePullupState angles now d1
            end in
  PhaseStep d (checkForStuckState now d2).
Proof.
  intros d1 d2.
  assert (Hmove : SquatMove now d1 d2).
  { unfold d2. destruct (exercise d1).
    - apply updateSquatState_move.
    - apply move_none. }
  clearbody d2.
  assert (Hstuck : forall d', checkForStuckState now d' = d' \/
                              (currentState d' <> COMPLETE /\
                               checkForStuckState now d' = completeRep now d')).
  { intros d'. unfold checkForStuckState.
    destruct (_ && _ && _) eqn:E; [right | now left].
    split; [| reflexivity].
    apply andb_true_iff in E as [_ E]. apply negb_true_iff in E.
    now apply RepState_eqb_neq. }
  assert (Hcomplete : forall d', currentState d' = currentState d ->
                                 consecutiveFrames d' = consecutiveFrames d ->
                                 PhaseStep d (completeRep now d')).
  { intros d' Hst Hcf.
    destruct (completeRep_cases now d')
      as [(Hn & _ & Hc & _ & _ & _ & Hf & _) | [_ Heq]].
    - apply phase_completes; congruence.
    - rewrite Heq. now apply phase_stays. }
  destruct Hmove as [| newState Hnew |].
  - (* the state logic did nothing *)
    destruct (Hstuck d1) as [-> | [_ ->]].
    + now apply phase_stays.
    + now apply Hcomplete.
  - (* a transitionTo *)
    destruct (transitionTo_cases newState now d1)
      as [Heq | (Hne & _ & Hst & Htime & Hcf & _)].
    + rewrite Heq. destruct (Hstuck d1) as [-> | [_ ->]].
      * now apply phase_stays.
      * now apply Hcomplete.
    + assert (Hfree : checkForStuckState now (transitionTo newState now d1)
                      = transitionTo newState now d1).
      { unfold checkForStuckState. rewrite Htime.
        replace (now - now) with 0 by lia. reflexivity. }
      rewrite Hfree. apply phase_transition; [| congruence | exact Hcf].
      rewrite Hst. intros E. apply Hne. now rewrite E.
  - (* a completeRep *)
    destruct (completeRep_cases now d1)
      as [(Hn & _ & Hc & _ & _ & _ & Hf & _) | [_ Heq]].
    + assert (Hfree : checkForStuckState now (completeRep now d1)
                      = completeRep now d1).
      { unfold checkForStuckState. rewrite Hc. cbn.
        now rewrite andb_false_r. }
      rewrite Hfree. now apply phase_completes.
    + rewrite Heq. destruct (Hstuck d1) as [-> | [_ ->]].
      * now apply phase_stays.
      * now apply Hcomplete.
Qed.

Lemma update_throttled (now : Z) (angles : JointAngles Q) (d : RepDetector) :
  now - lastUpdateTime d < UPDATE_THROTTLE ->
  update now angles d = (getCurrentDetection d, d).
Proof.
  intros H. unfold update. apply Z.ltb_lt in H. now rewrite H.
Qed.

Lemma update_calibrating (now : Z) (angles : JointAngles Q)
  (d : RepDetector) :
  UPDATE_THROTTLE <= now - lastUpdateTime d ->
  isCalibrated d = false ->
  update now angles d =
  (getCurrentDetection (calibrate angles now (set_lastUpdateTime now d)),
   calibrate angles now (set_lastUpdateTime now d)).
Proof.
  intros H Hc. unfold update. apply Z.ltb_ge in H. rewrite H.
  cbn [isCalibrated set_lastUpdateTime]. now rewrite Hc.
Qed.

Lemma update_processed (now : Z) (angles : JointAngles Q) (d : RepDetector) :
  UPDATE_THROTTLE <= now - lastUpdateTime d ->
  isCalibrated d = true ->
  exists d3,
    PhaseStep d d3 /\
    update now angles d =
    (getCurrentDetection (updateConfidence d3), updateConfidence d3).
Proof.
  intros H Hc. unfold update. apply Z.ltb_ge in H. rewrite H.
  cbn [isCalibrated set_lastUpdateTime]. rewrite Hc. cbn [negb].
  eexists. split; [| reflexivity].
  apply (stateLogic_PhaseStep angles now d).
Qed.

Lemma calibrate_keeps_confidence (angles : JointAngles Q) (now : Z)
  (d : RepDetector) :
  stateConfidence (calibrate angles now d) = stateConfidence d /\
  currentState (calibrate angles now d) = currentState d /\
  repCount (calibrate angles now d) = repCount d.
Proof.
  unfold calibrate.
  destruct (if calibrationFrames d + 1 <=? CALIBRATION_FRAMES_NEEDED
            then _ else _) as [[hip1 knee1] depth1].
  cbn. repeat split.
Qed.


(** ** Confidence *)

Lemma Qmin_one (q : Q) : (Qmin 1.0 q == Qmin 1 q)%Q.
Proof.
  destruct (Q.min_spec 1.0 q) as [[H1 E1] | [H1 E1]];
    destruct (Q.min_spec 1 q) as [[H2 E2] | [H2 E2]];
    rewrite E1, E2; Lqa.lra.
Qed.

Lemma fifteenths_le_one (n : Z) : n <= 15 -> (inject_Z n / 15 <= 1)%Q.
Proof.
  intros H. apply Qle_shift_div_r; [reflexivity |].
  rewrite Zle_Qle in H. exact H.
Qed.

Lemma fifteenths_ge_one (n : Z) : 15 <= n -> (1 <= inject_Z n / 15)%Q.
Proof.
  intros H. apply Qle_shift_div_l; [reflexivity |].
  rewrite Zle_Qle in H. exact H.
Qed.

(** C6, as the code has it.  A throttled call and a call made while
    calibrating leave confidence and phase as they were.  A processed
    call on a calibrated detector reports [min(1, c/15)] for the frame
    counter [c] it leaves behind; [c] is one more than before when the
    phase is unchanged, and 1 when the call moved the detector into a
    phase other than [COMPLETE]; so confidence rises by 1/15 per frame in
    a phase and is 1.0 from the 15th frame on. *)
Theorem update_confidence_law :
  forall (now : Z) (angles : JointAngles Q) (d : RepDetector),
    let out := fst (update now angles d) in
    let d' := snd (update now angles d) in
    confidence out = stateConfidence d' /\
    (now - lastUpdateTime d < UPDATE_THROTTLE \/ isCalibrated d = false ->
     confidence out = stateConfidence d /\ state out = currentState d) /\
    (UPDATE_THROTTLE <= now - lastUpdateTime d ->
     isCalibrated d = true ->
     (confidence out == Qmin 1 (inject_Z (consecutiveFrames d') / 15))%Q /\
     (state out = currentState d ->
      consecutiveFrames d' = consecutiveFrames d + 1) /\
     (state out <> currentState d -> state out <> COMPLETE ->
      consecutiveFrames d' = 1 /\ (confidence out == 1 # 15)%Q) /\
     (consecutiveFrames d' <= 15 ->
      (confidence out == inject_Z (consecutiveFrames d') / 15)%Q) /\
     (15 <= consecutiveFrames d' -> (confidence out == 1)%Q)).
Proof.
  intros now angles d out d'. subst out d'.
  split; [| split].
  - unfold update.
    destruct (now - lastUpdateTime d <? UPDATE_THROTTLE); [reflexivity |].
    destruct (negb _); reflexivity.
  - intros [Hthr | Hcal].
    + rewrite (update_throttled now angles d Hthr). now split.
    + destruct (Z.lt_ge_cases (now - lastUpdateTime d) UPDATE_THROTTLE)
        as [Hthr | Hproc].
      * rewrite (update_throttled now angles d Hthr). now split.
      * rewrite (update_calibrating now angles d Hproc Hcal).
        cbn [fst getCurrentDetection confidence state].
        destruct (calibrate_keeps_confidence angles now
                    (set_lastUpdateTime now d)) as (Hc & Hs & _).
        rewrite Hc, Hs. now split.
  - intros Hproc Hcal.
    destruct (update_processed now angles d Hproc Hcal) as (d3 & Hstep & ->).
    cbn [fst snd getCurrentDetection confidence state updateConfidence
           stateConfidence consecutiveFrames currentState].
    assert (Hformula :
              (Qmin 1.0 (inject_Z (consecutiveFrames d3 + 1) / 15)
               == Qmin 1 (inject_Z (consecutiveFrames d3 + 1) / 15))%Q)
      by apply Qmin_one.
    split; [exact Hformula |].
    split; [| split; [| split]].
    + intros Hsame.
      destruct Hstep as [Hst Hcf | Hst _ _ | Hst Hn _]; congruence.
    + intros Hmoved Hnc.
      destruct Hstep as [Hst Hcf | Hst _ Hcf | Hst Hn _]; try congruence.
      rewrite Hcf. split; [reflexivity |].
      vm_compute. reflexivity.
    + intros Hle. rewrite Hformula. apply Q.min_r.
      now apply fifteenths_le_one.
    + intros Hge. rewrite Hformula. apply Q.min_l.
      now apply fifteenths_ge_one.
Qed.

Lemma calibrated_facts :
  isCalibrated calibrated = true /\ currentState calibrated = IDLE /\
  repStartTime calibrated = 1000 /\ lastUpdateTime calibrated = 2200 /\
  (standingHipAngle calibrated == 170)%Q /\
  (standingKneeAngle calibrated == 175)%Q /\
  (squatDepthHipAngle calibrated == 90)%Q.
Proof. vm_compute. repeat split; reflexivity. Qed.

Lemma update_confidence_law_witness :
  let out := fst (update 2250 (pose 100 175) calibrated) in
  let d' := snd (update 2250 (pose 100 175) calibrated) in
  state out = STARTING /\
  consecutiveFrames d' = 1 /\ (confidence out == 1 # 15)%Q.
Proof.
  destruct (update_confidence_law 2250 (pose 100 175) calibrated)
    as (_ & _ & Hproc).
  destruct Hproc as (_ & _ & Hmoved & _).
  - vm_compute. discriminate.
  - vm_compute. reflexivity.
  - split; [vm_compute; reflexivity |].
    apply Hmoved; vm_compute; discriminate.
Defined.

(** C6 as stated fails on calibration frames.  26 standing frames, 50 ms
    apart, are fed to a new detector.  Every call is processed (the clock
    of the last processed call is that of the last frame, 25 frames went
    to calibration and one to the state logic) and every call ends in
    [IDLE]; after 26 consecutive processed calls spent in [IDLE] the
    claimed value is [min(1, 26/15) = 1], the reported one is 1/15. *)
Lemma confidence_not_raised_by_calibration_frames :
  let frames := hold 26 1000 170%Q 175%Q in
  let outs := outputs (new squat) frames in
  let d := final (new squat) frames in
  map state outs = repeat IDLE 26 /\
  lastUpdateTime d = 1000 + 25 * 50 /\
  calibrationFrames d = 25 /\ consecutiveFrames d = 1 /\
  map confidence outs = (repeat 0 25 ++ [1 # 15])%Q /\
  ~ (1 # 15 == Qmin 1 (inject_Z 26 / 15))%Q.
Proof.
  vm_compute. repeat split; discriminate.
Qed.

(** What [completeRep] leaves untouched when it does count: on the frame
    that completes the quick cycle the detector enters [COMPLETE] with
    the frame counter and [lastRepTime] of [ENDING] carried on. *)
Lemma completing_frame_keeps_counter :
  let before := final calibrated (firstn 3 quickCycle) in
  let after := final calibrated (firstn 4 quickCycle) in
  currentState before = ENDING /\ currentState after = COMPLETE /\
  consecutiveFrames before = 1 /\ consecutiveFrames after = 2 /\
  lastRepTime after = lastRepTime before /\
  stateConfidence after = (2 # 15)%Q.
Proof. vm_compute. repeat split; reflexivity. Qed.


(** ** Rep validity *)

(** The duration [completeRep] tests is measured from [repStartTime]:
    outside a completed state, the rep is counted, and its duration
    stored, exactly when that time is within [[1000, 20000]] ms; when it
    is not, the detector is left as it was, in the phase it was in. *)
Lemma completeRep_counts_iff (timestamp : Z) (d : RepDetector) :
  currentState d <> COMPLETE ->
  let repDuration := timestamp - repStartTime d in
  (repCount (completeRep timestamp d) = repCount d + 1 <->
   MIN_REP_DURATION <= repDuration <= MAX_REP_DURATION) /\
  (~ (MIN_REP_DURATION <= repDuration <= MAX_REP_DURATION) ->
   completeRep timestamp d = d).
Proof.
  intros Hn repDuration.
  destruct (completeRep_cases timestamp d)
    as [(_ & Hin & _ & Hc & _) | [[Hc | Hout] Heq]].
  - fold repDuration in Hin. split; [tauto | intros H; contradiction].
  - contradiction.
  - fold repDuration in Hout. rewrite Heq. split; [| reflexivity].
    split; [lia | tauto].
Qed.

Lemma transitionTo_repStartTime (newState : RepState) (timestamp : Z)
  (d : RepDetector) :
  repStartTime (transitionTo newState timestamp d) = repStartTime d.
Proof.
  unfold transitionTo.
  destruct (RepState_eqb _ _); [reflexivity |].
  destruct (_ <? _); reflexivity.
Qed.

Lemma completeRep_repStartTime (timestamp : Z) (d : RepDetector) :
  repStartTime (completeRep timestamp d) = repStartTime d.
Proof.
  unfold completeRep.
  destruct (RepState_eqb _ _); [reflexivity |].
  destruct (_ && _); reflexivity.
Qed.

(** Once calibration is over no call of [update] assigns [repStartTime]:
    it stays the time of the first calibration frame, whatever phases the
    detector goes through. *)
Lemma update_keeps_repStartTime (now : Z) (angles : JointAngles Q)
  (d : RepDetector) :
  isCalibrated d = true ->
  repStartTime (snd (update now angles d)) = repStartTime d.
Proof.
  intros Hc. unfold update.
  destruct (now - lastUpdateTime d <? UPDATE_THROTTLE); [reflexivity |].
  cbn [isCalibrated set_lastUpdateTime]. rewrite Hc. cbn [negb snd].
  set (d1 := set_lastUpdateTime now d).
  set (d2 := match exercise d1 with
             | squat => updateSquatState angles now d1
             | pullup => updatePullupState angles now d1
             end).
  assert (H2 : repStartTime d2 = repStartTime d).
  { assert (Hmove : SquatMove now d1 d2).
    { unfold d2. destruct (exercise d1);
        [apply updateSquatState_move | apply move_none]. }
    destruct Hmove.
    - reflexivity.
    - now rewrite transitionTo_repStartTime.
    - now rewrite completeRep_repStartTime. }
  cbn [updateConfidence repStartTime]. unfold checkForStuckState.
  destruct (_ && _ && _); [| exact H2].
  now rewrite completeRep_repStartTime.
Qed.

(** C1, on two sessions.  After the standing calibration ([repStartTime]
    = 1000) the quick cycle, 450 ms from descent to upright, is counted:
    the stored duration is 1700 ms, the time since calibration began.
    The late cycle, 3000 ms from descent to upright, is not counted, and
    the detector neither enters [COMPLETE] nor returns to [IDLE]: it
    stays in [ENDING] while the user stands, also past the 5 s
    stuck-state check. *)
Theorem quick_cycle_counted_late_cycle_stalls :
  repStartTime calibrated = 1000 /\
  map state (outputs calibrated quickCycle)
  = [STARTING; PEAK; ENDING; COMPLETE; IDLE] /\
  map out_repCount (outputs calibrated quickCycle) = [0; 0; 0; 1; 1] /\
  repTimes (final calibrated quickCycle) = [1700] /\
  map state (outputs calibrated lateCycle)
  = [STARTING; PEAK; ENDING; ENDING; ENDING; ENDING] /\
  map out_repCount (outputs calibrated lateCycle) = [0; 0; 0; 0; 0; 0].
Proof. vm_compute. repeat split; reflexivity. Qed.

(** ** Reset *)

Lemma reset_fields (d : RepDetector) :
  reset d = set_lastUpdateTime (lastUpdateTime d) (new (exercise d)).
Proof. reflexivity. Qed.

(** When the first call after a [reset()] comes at least 50 ms after the
    last processed call, the reset detector and a new one of the same
    exercise give the same detections and end in the same state. *)
Lemma reset_then_late_first_call (d : RepDetector) (now : Z)
  (angles : JointAngles Q) (rest : list Frame) :
  0 <= lastUpdateTime d ->
  UPDATE_THROTTLE <= now - lastUpdateTime d ->
  run (reset d) ((now, angles) :: rest)
  = run (new (exercise d)) ((now, angles) :: rest).
Proof.
  intros H0 Hlate. cbn [run].
  assert (Hupd : update now angles (reset d)
                 = update now angles (new (exercise d))).
  { unfold update. cbn [lastUpdateTime reset new].
    assert (E1 : (now - lastUpdateTime d <? UPDATE_THROTTLE) = false)
      by (apply Z.ltb_ge; exact Hlate).
    assert (E2 : (now - 0 <? UPDATE_THROTTLE) = false)
      by (apply Z.ltb_ge; unfold UPDATE_THROTTLE in *; lia).
    rewrite E1, E2. reflexivity. }
  now rewrite Hupd.
Qed.

(** C5, on one session.  [midRep] is calibrated and in [STARTING], its
    last processed call at t = 2250.  After [reset()] it is uncalibrated,
    in [IDLE], with no reps, but its throttle clock still reads 2250: the
    first frame of the next recording, at t = 2260, is answered without
    being processed, calibration ends one frame later than in a new
    detector, and the 26th detection differs (confidence 0 against
    1/15). *)
Theorem reset_keeps_throttle_clock :
  let d := reset midRep in
  isCalibrated midRep = true /\ currentState midRep = STARTING /\
  currentState d = IDLE /\ isCalibrated d = false /\ repCount d = 0 /\
  calibrationFrames d = 0 /\
  lastUpdateTime d = 2250 /\ lastUpdateTime (new squat) = 0 /\
  nth_error (outputs d nextRecording) 25
  = Some {| state := IDLE; out_repCount := 0; confidence := 0%Q;
            out_lastRepTime := 0; averageTempo := 0%Q |} /\
  nth_error (outputs (new squat) nextRecording) 25
  = Some {| state := IDLE; out_repCount := 0; confidence := (1 # 15)%Q;
            out_lastRepTime := 0; averageTempo := 0%Q |} /\
  outputs d nextRecording <> outputs (new squat) nextRecording.
Proof.
  vm_compute. repeat split; try reflexivity. discriminate.
Qed.

End RepFacts.

(** * The rep detector: phases, counting and calibration *)

Module RepMoreFacts.
Import Rep RepFacts.
Local Open Scope Z_scope.

Lemma updateSquatState_edge (angles : JointAngles Q) (now : Z)
  (d : RepDetector) :
  SquatEdge now d (updateSquatState angles now d).
Proof.
  unfold updateSquatState.
  destruct (negb (isCalibrated d)); [constructor |].
  cbv zeta.
  destruct (currentState d) eqn:Hst;
    repeat match goal with
      | |- context [if ?c then _ else _] => destruct c
      end;
    first [apply edge_none
          | apply edge_complete; exact Hst
          | apply edge_transition; [rewrite Hst; reflexivity | discriminate]].
Qed.

(** The state logic of one processed call, as an [Effect]. *)
Lemma stateLogic_Effect (angles : JointAngles Q) (now : Z) (d : RepDetector) :
  let d1 := set_lastUpdateTime now d in
  let d2 := match exercise d1 with
            | squat => updateSquatState angles now d1
            | pullup => updatePullupState angles now d1
            end in
  Effect now d (checkForStuckState now d2).
Proof.
  intros d1 d2.
  assert (Hmove : SquatEdge now d1 d2).
  { unfold d2. destruct (exercise d1).
    - apply updateSquatState_edge.
    - apply edge_none. }
  clearbody d2.
  (* the stuck-state check on the detector as [update] found it *)
  assert (Hplain : Effect now d (checkForStuckState now d1)).
  { unfold checkForStuckState.
    destruct (_ && _ && _) eqn:E; [| now apply effect_stays].
    apply andb_true_iff in E as [E Hc]. apply andb_true_iff in E as [Ht Hi].
    apply Z.ltb_lt in Ht. apply negb_true_iff in Hi, Hc.
    apply RepState_eqb_neq in Hi, Hc.
    destruct (completeRep_cases now d1)
      as [(_ & Hw & Hs & Hr & Hts & Hl & Hf & _) | [_ Heq]].
    - apply effect_completes; auto.
      change (currentState d1) with (currentState d) in Hi, Hc.
      destruct (currentState d); try reflexivity; congruence.
    - rewrite Heq. now apply effect_stays. }
  destruct Hmove as [| newState Hedge Hnew | Hending].
  - exact Hplain.
  - destruct (transitionTo_cases newState now d1)
      as [Heq | (Hne & Hgap & Hst & Htime & Hcf & _ & Hrc)].
    + rewrite Heq. exact Hplain.
    + assert (Hfree : checkForStuckState now (transitionTo newState now d1)
                      = transitionTo newState now d1).
      { unfold checkForStuckState. rewrite Htime.
        replace (now - now) with 0 by lia. reflexivity. }
      rewrite Hfree. apply effect_transition; auto.
      * now rewrite Hst.
      * congruence.
      * unfold transitionTo.
        destruct (RepState_eqb _ _); [reflexivity |].
        destruct (_ <? _); reflexivity.
  - destruct (completeRep_cases now d1)
      as [(_ & Hw & Hs & Hr & Hts & Hl & Hf & _) | [_ Heq]].
    + assert (Hfree : checkForStuckState now (completeRep now d1)
                      = completeRep now d1).
      { unfold checkForStuckState. rewrite Hs. cbn.
        now rewrite andb_false_r. }
      rewrite Hfree. apply effect_completes; auto.
      change (currentState d1) with (currentState d) in Hending.
      now rewrite Hending.
    + rewrite Heq. exact Hplain.
Qed.

(** Every call of [update] is a throttled call, a calibration call or a
    processed call; the last is the state logic followed by
    [updateConfidence]. *)
Lemma update_shape (now : Z) (angles : JointAngles Q) (d : RepDetector) :
  (now - lastUpdateTime d < UPDATE_THROTTLE /\
   update now angles d = (getCurrentDetection d, d))
  \/
  (UPDATE_THROTTLE <= now - lastUpdateTime d /\ isCalibrated d = false /\
   update now angles d =
   (getCurrentDetection (calibrate angles now (set_lastUpdateTime now d)),
    calibrate angles now (set_lastUpdateTime now d)))
  \/
  (UPDATE_THROTTLE <= now - lastUpdateTime d /\ isCalibrated d = true /\
   exists d3,
     Effect now d d3 /\
     update now angles d =
     (getCurrentDetection (updateConfidence d3), updateConfidence d3)).
Proof.
  destruct (Z.lt_ge_cases (now - lastUpdateTime d) UPDATE_THROTTLE)
    as [Hthr | Hproc].
  - left. split; [exact Hthr | now apply update_throttled].
  - right. destruct (isCalibrated d) eqn:Hc.
    + right. split; [exact Hproc | split; [reflexivity |]].
      unfold update. apply Z.ltb_ge in Hproc. rewrite Hproc.
      cbn [isCalibrated set_lastUpdateTime]. rewrite Hc. cbn [negb].
      eexists. split; [| reflexivity].
      apply (stateLogic_Effect angles now d).
    + left. split; [exact Hproc | split; [reflexivity |]].
      now apply update_calibrating.
Qed.

Lemma calibrate_keeps (angles : JointAngles Q) (now : Z) (d : RepDetector) :
  let d' := calibrate angles now d in
  currentState d' = currentState d /\ repCount d' = repCount d /\
  repTimes d' = repTimes d /\ lastRepTime d' = lastRepTime d /\
  consecutiveFrames d' = consecutiveFrames d /\
  stateConfidence d' = stateConfidence d /\
  exercise d' = exercise d /\ lastUpdateTime d' = lastUpdateTime d /\
  calibrationFrames d' = calibrationFrames d + 1.
Proof.
  unfold calibrate.
  destruct (if calibrationFrames d + 1 <=? CALIBRATION_FRAMES_NEEDED
            then _ else _) as [[hip1 knee1] depth1].
  cbn. repeat split.
Qed.


(** ** What one call can do to the phase, the count and the clock *)

(** X1.  One call of [update] leaves the phase where it is or moves it
    along one arrow of the phase diagram: IDLE to STARTING; STARTING to
    PEAK, IDLE or COMPLETE; PEAK to ENDING or COMPLETE; ENDING to COMPLETE
    or PEAK; COMPLETE to IDLE.  The detection reports the new phase. *)
Theorem update_follows_phase_diagram :
  forall (now : Z) (angles : JointAngles Q) (d : RepDetector),
    let out := fst (update now angles d) in
    let d' := snd (update now angles d) in
    state out = currentState d' /\
    (currentState d' = currentState d \/
     phaseEdge (currentState d) (currentState d') = true).
Proof.
  intros now angles d out d'. subst out d'.
  destruct (update_shape now angles d)
    as [[_ ->] | [(_ & _ & ->) | (_ & _ & d3 & Heff & ->)]];
    cbn [fst snd getCurrentDetection state].
  - split; [reflexivity | now left].
  - split; [reflexivity | left].
    exact (proj1 (calibrate_keeps angles now (set_lastUpdateTime now d))).
  - split; [reflexivity |].
    cbn [updateConfidence currentState].
    destruct Heff as [Hst | Hedge | Hc Hedge]; [left | right | right]; auto.
    now rewrite Hc.
Qed.

(** X2.  One call of [update] adds one to the rep count exactly when it
    moves the detector into COMPLETE, and then the time since
    [repStartTime] is within [[1000, 20000]] ms and is appended to the
    tempo history; any other call leaves count and history alone.  The
    count never goes down. *)
Theorem update_counts_on_entering_complete :
  forall (now : Z) (angles : JointAngles Q) (d : RepDetector),
    let d' := snd (update now angles d) in
    (currentState d <> COMPLETE /\ currentState d' = COMPLETE /\
     repCount d' = repCount d + 1 /\
     out_repCount (fst (update now angles d)) = repCount d + 1 /\
     MIN_REP_DURATION <= now - repStartTime d <= MAX_REP_DURATION /\
     repTimes d' = pushRepTime (now - repStartTime d) (repTimes d))
    \/
    ((currentState d = COMPLETE \/ currentState d' <> COMPLETE) /\
     repCount d' = repCount d /\
     out_repCount (fst (update now angles d)) = repCount d /\
     repTimes d' = repTimes d).
Proof.
  intros now angles d d'. subst d'.
  destruct (update_shape now angles d)
    as [[_ ->] | [(_ & _ & ->) | (_ & _ & d3 & Heff & ->)]];
    cbn [fst snd getCurrentDetection out_repCount].
  - right. destruct (currentState d) eqn:E; repeat split;
      first [now left | right; discriminate].
  - right.
    destruct (calibrate_keeps angles now (set_lastUpdateTime now d))
      as (Hs & Hr & Ht & _).
    cbn [set_lastUpdateTime currentState repCount repTimes] in Hs, Hr, Ht.
    rewrite Hs, Hr, Ht.
    destruct (currentState d) eqn:E; repeat split;
      first [now left | right; discriminate].
  - cbn [updateConfidence currentState repCount repTimes].
    destruct Heff as [Hst Hrc Hts _ _ | Hedge Hnc Hrc Hts _ _ _
                     | Hc Hedge _ Hw Hrc Hts _ _].
    + right. rewrite Hst, Hrc, Hts.
      destruct (currentState d) eqn:E; repeat split;
        first [now left | right; discriminate].
    + right. repeat split; auto.
    + left. repeat split; auto; try lia.
      intros E. rewrite E in Hedge. discriminate.
Qed.

(** X3.  A rep is only completed out of STARTING or PEAK by the
    stuck-state check, that is, when more than 5000 ms have passed since
    the last phase change; out of IDLE it is never completed.  Only ENDING
    can complete sooner. *)
Theorem update_forced_completion_needs_5s :
  forall (now : Z) (angles : JointAngles Q) (d : RepDetector),
    let d' := snd (update now angles d) in
    currentState d' = COMPLETE ->
    currentState d = COMPLETE \/ currentState d = ENDING \/
    ((currentState d = STARTING \/ currentState d = PEAK) /\
     5000 < now - lastRepTime d).
Proof.
  intros now angles d d' Hc. subst d'.
  destruct (update_shape now angles d)
    as [[_ E] | [(_ & _ & E) | (_ & _ & d3 & Heff & E)]];
    rewrite E in Hc; cbn [snd] in Hc.
  - now left.
  - left. destruct (calibrate_keeps angles now (set_lastUpdateTime now d))
      as (Hs & _). rewrite Hs in Hc. exact Hc.
  - cbn [updateConfidence currentState] in Hc.
    destruct Heff as [Hst | _ Hnc | _ Hedge Hwhy].
    + left. congruence.
    + contradiction.
    + right. destruct Hwhy as [He | Ht]; [now left |].
      destruct (currentState d); try discriminate Hedge;
        [right; split; [now left | exact Ht]
        | right; split; [now right | exact Ht]
        | now left].
Qed.

Lemma update_forced_completion_needs_5s_witness :
  let d := final calibrated [ (2250, pose 100 175); (2450, pose 120 130);
                              (7500, pose 120 130) ] in
  let before := final calibrated [ (2250, pose 100 175);
                                   (2450, pose 120 130) ] in
  currentState before = STARTING /\ currentState d = COMPLETE /\
  5000 < 7500 - lastRepTime before.
Proof.
  cbv zeta.
  assert (Hc : currentState
                 (snd (update 7500 (pose 120 130)
                         (final calibrated [ (2250, pose 100 175);
                                             (2450, pose 120 130) ])))
               = COMPLETE) by (vm_compute; reflexivity).
  destruct (update_forced_completion_needs_5s 7500 (pose 120 130)
              (final calibrated [ (2250, pose 100 175);
                                  (2450, pose 120 130) ]) Hc)
    as [H | [H | [_ Ht]]].
  - vm_compute in H. discriminate H.
  - vm_compute in H. discriminate H.
  - split; [vm_compute; reflexivity |].
    split; [vm_compute; reflexivity | exact Ht].
Defined.

(** X4.  Debounce: [lastRepTime] is only ever set to the clock of the
    current call, on a move to a phase other than COMPLETE, and only when
    at least 200 ms have passed since it was last set; a call that does
    not make such a move, the one entering COMPLETE included, leaves it
    alone. *)
Theorem update_debounces_transitions :
  forall (now : Z) (angles : JointAngles Q) (d : RepDetector),
    let d' := snd (update now angles d) in
    (lastRepTime d' = lastRepTime d /\
     (currentState d' = currentState d \/ currentState d' = COMPLETE))
    \/
    (lastRepTime d' = now /\ 200 <= now - lastRepTime d /\
     currentState d' <> COMPLETE /\
     phaseEdge (currentState d) (currentState d') = true).
Proof.
  intros now angles d d'. subst d'.
  destruct (update_shape now angles d)
    as [[_ ->] | [(_ & _ & ->) | (_ & _ & d3 & Heff & ->)]]; cbn [snd].
  - left. split; [reflexivity | now left].
  - left. destruct (calibrate_keeps angles now (set_lastUpdateTime now d))
      as (Hs & _ & _ & Hl & _). rewrite Hs, Hl. split; [reflexivity | now left].
  - cbn [updateConfidence currentState lastRepTime].
    destruct Heff as [Hst _ _ Hl _ | Hedge Hnc _ _ Hl Hgap _
                     | Hc _ _ _ _ _ Hl _].
    + left. split; [exact Hl | now left].
    + right. repeat split; auto.
    + left. split; [exact Hl | now right].
Qed.


(** ** Well-formed detections *)

Lemma pushRepTime_length (t : Z) (times : list Z) (count : Z) :
  0 <= count ->
  Z.of_nat (List.length times) = Z.min count 10 ->
  Z.of_nat (List.length (pushRepTime t times)) = Z.min (count + 1) 10.
Proof.
  intros Hc Hlen. unfold pushRepTime.
  rewrite length_app. cbn [List.length].
  destruct (10 <? Z.of_nat (List.length times + 1)) eqn:E.
  - apply Z.ltb_lt in E.
    destruct times as [| t0 rest]; cbn [app tl] in *;
      rewrite ?length_app; cbn [List.length] in *; lia.
  - apply Z.ltb_ge in E. rewrite length_app. cbn [List.length]. lia.
Qed.

Lemma pushRepTime_Forall (P : Z -> Prop) (t : Z) (times : list Z) :
  P t -> Forall P times -> Forall P (pushRepTime t times).
Proof.
  intros Ht Hall. unfold pushRepTime.
  assert (Hpushed : Forall P (times ++ [t])).
  { apply Forall_app. split; [exact Hall | now constructor]. }
  destruct (10 <? _); [| exact Hpushed].
  destruct (times ++ [t]) as [| t0 rest]; [constructor |].
  now inversion Hpushed.
Qed.

Lemma confidence_in_unit (frames : Z) :
  0 <= frames ->
  (0 <= Qmin 1.0 (inject_Z frames / 15) <= 1)%Q.
Proof.
  intros H.
  assert (Hq : (0 <= inject_Z frames / 15)%Q).
  { apply Qle_shift_div_l; [reflexivity |].
    rewrite Qmult_0_l. now rewrite Zle_Qle in H. }
  split.
  - apply Q.min_glb; [discriminate | exact Hq].
  - eapply Qle_trans; [apply Q.le_min_l | discriminate].
Qed.

Lemma sound_new (ex : Exercise) : sound (new ex).
Proof.
  unfold sound, new; cbn. repeat split; try lia; try discriminate.
  constructor.
Qed.

Lemma sound_update (now : Z) (angles : JointAngles Q) (d : RepDetector) :
  sound d -> sound (snd (update now angles d)).
Proof.
  intros (Hrc & Hcf & Hconf & Hlen & Hall).
  destruct (update_shape now angles d)
    as [[_ ->] | [(_ & _ & ->) | (_ & _ & d3 & Heff & ->)]]; cbn [snd].
  - repeat split; auto; apply Hconf.
  - destruct (calibrate_keeps angles now (set_lastUpdateTime now d))
      as (_ & Hr & Ht & _ & Hf & Hc & _).
    cbn [set_lastUpdateTime repCount repTimes consecutiveFrames
           stateConfidence] in Hr, Ht, Hf, Hc.
    unfold sound. rewrite Hr, Ht, Hf, Hc. repeat split; auto; apply Hconf.
  - unfold sound.
    cbn [updateConfidence repCount repTimes consecutiveFrames
           stateConfidence].
    assert (Hcf3 : 0 <= consecutiveFrames d3).
    { destruct Heff as [_ _ _ _ Hf | _ _ _ _ _ _ Hf | _ _ _ _ _ _ _ Hf];
        rewrite Hf; lia. }
    assert (Hrest : 0 <= repCount d3 /\
                    Z.of_nat (List.length (repTimes d3))
                    = Z.min (repCount d3) 10 /\
                    Forall (fun t => MIN_REP_DURATION <= t <= MAX_REP_DURATION)
                      (repTimes d3)).
    { destruct Heff as [_ Hr Ht _ _ | _ _ Hr Ht _ _ _
                       | _ _ _ Hw Hr Ht _ _]; rewrite Hr, Ht.
      - auto.
      - auto.
      - split; [lia |]. split.
        + now apply pushRepTime_length.
        + now apply pushRepTime_Forall. }
    destruct Hrest as (H1 & H2 & H3).
    split; [exact H1 |]. split; [lia |].
    split; [apply confidence_in_unit; lia |].
    split; assumption.
Qed.

Lemma sound_perform (c : Call) (d : RepDetector) :
  sound d -> sound (snd (perform c d)).
Proof.
  intros H. destruct c as [now angles | |]; cbn [perform].
  - pose proof (sound_update now angles d H) as H'.
    destruct (update now angles d). exact H'.
  - cbn. unfold sound; cbn. repeat split; try lia; try discriminate.
    constructor.
  - exact H.
Qed.

Lemma fold_sum_from (times : list Z) (start : Z) :
  fold_left (fun sum time => sum + time) times start
  = start + fold_left (fun sum time => sum + time) times 0.
Proof.
  revert start. induction times as [| t rest IH]; intros start; cbn.
  - lia.
  - rewrite (IH (start + t)), (IH t). lia.
Qed.

Lemma sum_within (lo hi : Z) (times : list Z) :
  Forall (fun t => lo <= t <= hi) times ->
  lo * Z.of_nat (List.length times)
  <= fold_left (fun sum time => sum + time) times 0
  <= hi * Z.of_nat (List.length times).
Proof.
  induction 1 as [| t rest Ht _ IH]; cbn [fold_left List.length].
  - lia.
  - rewrite fold_sum_from. lia.
Qed.

Lemma sound_wellFormed (d : RepDetector) :
  sound d -> wellFormed (getCurrentDetection d).
Proof.
  intros (Hrc & _ & Hconf & _ & Hall).
  unfold wellFormed; cbn [getCurrentDetection out_repCount confidence
                            averageTempo].
  split; [exact Hrc |]. split; [exact Hconf |].
  unfold calculateAverageTempo. revert Hall.
  destruct (repTimes d) as [| t rest]; intros Hall;
    [left; reflexivity | right].
  set (times := t :: rest) in *.
  assert (Hn : 0 < Z.of_nat (List.length times))
    by (unfold times; cbn [List.length]; lia).
  pose proof (sum_within _ _ _ Hall) as [Hlo Hhi].
  assert (Hnq : (0 < inject_Z (Z.of_nat (List.length times)))%Q)
    by (now rewrite <- (Zlt_Qlt 0)).
  split.
  - apply Qle_shift_div_l; [exact Hnq |].
    rewrite <- inject_Z_mult. now rewrite <- Zle_Qle.
  - apply Qle_shift_div_r; [exact Hnq |].
    rewrite <- inject_Z_mult. now rewrite <- Zle_Qle.
Qed.

Lemma update_detection (now : Z) (angles : JointAngles Q) (d : RepDetector) :
  fst (update now angles d) = getCurrentDetection (snd (update now angles d)).
Proof.
  unfold update.
  destruct (_ <? _); [reflexivity |].
  destruct (negb _); reflexivity.
Qed.

(** X5.  Whatever sequence of [update], [reset] and [forceCalibration]
    calls a new detector receives, with whatever clock values and
    angles, every detection it returns has a rep count that is not
    negative, a confidence between 0 and 1, and an average tempo that is 0
    or lies within [[1000, 20000]] ms. *)
Theorem drive_detections_wellFormed :
  forall (ex : Exercise) (calls : list Call),
    Forall wellFormed (fst (drive (new ex) calls)).
Proof.
  intros ex calls.
  assert (Hgen : forall d, sound d -> Forall wellFormed (fst (drive d calls))).
  { induction calls as [| c rest IH]; intros d Hd; cbn [drive].
    - constructor.
    - pose proof (sound_perform c d Hd) as Hd1.
      destruct c as [now angles | |]; cbn [perform] in *.
      + pose proof (update_detection now angles d) as Hout.
        destruct (update now angles d) as [out d1]. cbn [fst snd] in *.
        specialize (IH d1 Hd1). destruct (drive d1 rest) as [outs d2].
        cbn [fst] in *. constructor; [| exact IH].
        rewrite Hout. now apply sound_wellFormed.
      + cbn [snd] in Hd1. specialize (IH (reset d) Hd1).
        destruct (drive (reset d) rest). exact IH.
      + cbn [snd] in Hd1. specialize (IH (forceCalibration d) Hd1).
        destruct (drive (forceCalibration d) rest). exact IH. }
  apply Hgen, sound_new.
Qed.

(** ** The pull-up detector *)

Lemma pullup_update (now : Z) (angles : JointAngles Q) (d : RepDetector) :
  exercise d = pullup -> currentState d = IDLE -> repCount d = 0 ->
  let d' := snd (update now angles d) in
  exercise d' = pullup /\ currentState d' = IDLE /\ repCount d' = 0.
Proof.
  intros Hex Hst Hrc. unfold update.
  destruct (_ <? _); [now cbn |].
  cbn [isCalibrated set_lastUpdateTime exercise].
  destruct (negb (isCalibrated d)).
  - destruct (calibrate_keeps angles now (set_lastUpdateTime now d))
      as (Hs & Hr & _ & _ & _ & _ & He & _).
    cbn [snd]. rewrite Hs, Hr, He. now cbn.
  - rewrite Hex. unfold updatePullupState, checkForStuckState.
    cbn [currentState set_lastUpdateTime]. rewrite Hst.
    cbn [RepState_eqb negb]. rewrite andb_false_r. cbn [andb].
    cbn. auto.
Qed.

(** X6.  A pull-up detector never leaves IDLE and never counts a rep:
    every detection of every sequence of calls on [new pullup] reports
    IDLE and a rep count of 0. *)
Theorem pullup_detector_never_counts :
  forall (calls : list Call),
    Forall (fun out => state out = IDLE /\ out_repCount out = 0)
      (fst (drive (new pullup) calls)).
Proof.
  intros calls.
  assert (Hgen : forall d,
             exercise d = pullup -> currentState d = IDLE -> repCount d = 0 ->
             Forall (fun out => state out = IDLE /\ out_repCount out = 0)
               (fst (drive d calls))).
  { induction calls as [| c rest IH]; intros d Hex Hst Hrc; cbn [drive].
    - constructor.
    - destruct c as [now angles | |]; cbn [perform].
      + pose proof (pullup_update now angles d Hex Hst Hrc) as (He & Hs & Hr).
        pose proof (update_detection now angles d) as Hout.
        destruct (update now angles d) as [out d1]. cbn [fst snd] in *.
        specialize (IH d1 He Hs Hr). destruct (drive d1 rest) as [outs d2].
        cbn [fst] in *. constructor; [| exact IH].
        rewrite Hout. cbn. now split.
      + specialize (IH (reset d) Hex eq_refl eq_refl).
        destruct (drive (reset d) rest). exact IH.
      + specialize (IH (forceCalibration d) Hex Hst Hrc).
        destruct (drive (forceCalibration d) rest). exact IH. }
  now apply Hgen.
Qed.


(** ** Calibration *)

Lemma calibrate_flags (angles : JointAngles Q) (now : Z) (d : RepDetector) :
  isCalibrated (calibrate angles now d)
  = (CALIBRATION_FRAMES_NEEDED <=? calibrationFrames d + 1) || isCalibrated d.
Proof.
  unfold calibrate.
  destruct (if calibrationFrames d + 1 <=? CALIBRATION_FRAMES_NEEDED
            then _ else _) as [[hip1 knee1] depth1].
  cbn. destruct (_ <=? _); reflexivity.
Qed.

(** During the first 15 calibration frames the standing angles are
    running means: the new mean times the new frame count is the old mean
    times the old count plus the new angle. *)
Lemma calibrate_standing (angles : JointAngles Q) (now : Z)
  (d : RepDetector) :
  0 <= calibrationFrames d -> calibrationFrames d + 1 <= 15 ->
  (standingHipAngle (calibrate angles now d)
   * inject_Z (calibrationFrames d + 1)
   == standingHipAngle d * inject_Z (calibrationFrames d) + hipAngle angles
   /\
   standingKneeAngle (calibrate angles now d)
   * inject_Z (calibrationFrames d + 1)
   == standingKneeAngle d * inject_Z (calibrationFrames d)
      + kneeAngle angles)%Q.
Proof.
  intros H0 H15. unfold calibrate.
  assert (E25 : (calibrationFrames d + 1 <=? CALIBRATION_FRAMES_NEEDED) = true)
    by (apply Z.leb_le; unfold CALIBRATION_FRAMES_NEEDED; lia).
  assert (E15 : (calibrationFrames d + 1 <=? 15) = true)
    by (apply Z.leb_le; lia).
  rewrite E25, E15.
  cbn [standingHipAngle standingKneeAngle].
  assert (Hn : ~ (inject_Z (calibrationFrames d + 1) == 0)%Q).
  { intros E. unfold Qeq in E. cbn in E. lia. }
  rewrite inject_Z_plus in *. change (inject_Z 1) with 1%Q in *.
  split; field; exact Hn.
Qed.

Lemma calibrating_run (frames : list Frame) :
  forall (d : RepDetector),
    isCalibrated d = false ->
    0 <= calibrationFrames d < CALIBRATION_FRAMES_NEEDED ->
    spaced (lastUpdateTime d) frames ->
    calibrationFrames d + Z.of_nat (List.length frames)
    <= CALIBRATION_FRAMES_NEEDED ->
    let d' := final d frames in
    calibrationFrames d'
    = calibrationFrames d + Z.of_nat (List.length frames) /\
    isCalibrated d'
    = (CALIBRATION_FRAMES_NEEDED
       <=? calibrationFrames d + Z.of_nat (List.length frames)) /\
    Forall (fun out => out = getCurrentDetection d) (outputs d frames).
Proof.
  unfold final, outputs.
  induction frames as [| [now angles] rest IH]; intros d Hc H0 Hsp Hlen.
  - cbn [run fst snd List.length Z.of_nat].
    rewrite Z.add_0_r. split; [reflexivity |]. split; [| constructor].
    rewrite Hc. symmetry. apply Z.leb_gt. lia.
  - cbn [spaced] in Hsp. destruct Hsp as [Hproc Hsp].
    cbn [run]. rewrite (update_calibrating now angles d Hproc Hc).
    set (d1 := calibrate angles now (set_lastUpdateTime now d)).
    destruct (calibrate_keeps angles now (set_lastUpdateTime now d))
      as (Hs & Hr & Ht & Hl & Hf & Hcf & _ & Hu & Hn).
    fold d1 in Hs, Hr, Ht, Hl, Hf, Hcf, Hu, Hn.
    cbn [set_lastUpdateTime currentState repCount repTimes lastRepTime
           consecutiveFrames stateConfidence lastUpdateTime
           calibrationFrames] in Hs, Hr, Ht, Hl, Hf, Hcf, Hu, Hn.
    assert (Hdet : getCurrentDetection d1 = getCurrentDetection d).
    { unfold getCurrentDetection, calculateAverageTempo.
      now rewrite Hs, Hr, Ht, Hl, Hcf. }
    cbn [List.length] in Hlen. rewrite Nat2Z.inj_succ in Hlen.
    destruct rest as [| f rest'].
    + cbn [run fst snd List.length Z.of_nat].
      split; [rewrite Hn; lia |]. split.
      * unfold d1. rewrite calibrate_flags.
        cbn [set_lastUpdateTime calibrationFrames isCalibrated].
        rewrite Hc, orb_false_r. f_equal; lia.
      * constructor; [exact Hdet | constructor].
    + assert (Hc1 : isCalibrated d1 = false).
      { unfold d1. rewrite calibrate_flags.
        cbn [set_lastUpdateTime calibrationFrames isCalibrated].
        rewrite Hc, orb_false_r. apply Z.leb_gt.
        cbn [List.length] in Hlen. rewrite Nat2Z.inj_succ in Hlen. lia. }
      assert (Hsp1 : spaced (lastUpdateTime d1) (f :: rest'))
        by (rewrite Hu; exact Hsp).
      assert (Hlen1 : calibrationFrames d1
                      + Z.of_nat (List.length (f :: rest'))
                      <= CALIBRATION_FRAMES_NEEDED) by (rewrite Hn; lia).
      assert (Hn1 : 0 <= calibrationFrames d1 < CALIBRATION_FRAMES_NEEDED).
      { rewrite Hn. cbn [List.length] in Hlen.
        rewrite Nat2Z.inj_succ in Hlen. lia. }
      destruct (IH d1 Hc1 Hn1 Hsp1 Hlen1) as (I1 & I2 & I3).
      destruct (run d1 (f :: rest')) as [outs d2]. cbn [fst snd] in *.
      rewrite Hn in I1, I2.
      split; [rewrite I1; cbn [List.length]; lia |]. split.
      * rewrite I2. f_equal; cbn [List.length]; lia.
      * constructor; [exact Hdet |].
        rewrite Hdet in I3. exact I3.
Qed.

(** X7.  A new detector that receives frames at least 50 ms apart spends
    exactly its first 25 frames calibrating: with at most 25 frames it has
    counted each of them, it is calibrated when and only when there were
    25, and every detection so far reports IDLE with rep count 0,
    confidence 0 and tempo 0. *)
Theorem calibration_takes_25_frames :
  forall (ex : Exercise) (frames : list Frame),
    spaced 0 frames ->
    (List.length frames <= 25)%nat ->
    let d := final (new ex) frames in
    calibrationFrames d = Z.of_nat (List.length frames) /\
    isCalibrated d = (25 <=? List.length frames)%nat /\
    Forall (fun out =>
              out = {| state := IDLE; out_repCount := 0; confidence := 0%Q;
                       out_lastRepTime := 0; averageTempo := 0%Q |})
      (outputs (new ex) frames).
Proof.
  intros ex frames Hsp Hlen d.
  destruct (calibrating_run frames (new ex) eq_refl
              ltac:(cbn; unfold CALIBRATION_FRAMES_NEEDED; lia) Hsp)
    as (H1 & H2 & H3).
  { cbn [new calibrationFrames]. unfold CALIBRATION_FRAMES_NEEDED. lia. }
  cbn [new calibrationFrames] in H1, H2. rewrite Z.add_0_l in H1, H2.
  split; [exact H1 |]. split; [| exact H3].
  fold d in H2. rewrite H2. unfold CALIBRATION_FRAMES_NEEDED.
  destruct (25 <=? List.length frames)%nat eqn:E.
  - apply Nat.leb_le in E. apply Z.leb_le. lia.
  - apply Nat.leb_gt in E. apply Z.leb_gt. lia.
Qed.

Lemma calibration_takes_25_frames_witness :
  let d := final (new squat) standingCalibration in
  calibrationFrames d = 25 /\
  isCalibrated d = true /\
  Forall (fun out =>
            out = {| state := IDLE; out_repCount := 0; confidence := 0%Q;
                     out_lastRepTime := 0; averageTempo := 0%Q |})
    (outputs (new squat) standingCalibration).
Proof.
  apply (calibration_takes_25_frames squat standingCalibration).
  - cbn. repeat split; discriminate.
  - cbn. lia.
Defined.


Lemma standing_run (frames : list Frame) :
  forall (d : RepDetector),
    isCalibrated d = false ->
    0 <= calibrationFrames d ->
    spaced (lastUpdateTime d) frames ->
    calibrationFrames d + Z.of_nat (List.length frames) <= 15 ->
    let d' := final d frames in
    let count := inject_Z (calibrationFrames d
                           + Z.of_nat (List.length frames)) in
    (standingHipAngle d' * count
     == standingHipAngle d * inject_Z (calibrationFrames d) + sumHip frames
     /\
     standingKneeAngle d' * count
     == standingKneeAngle d * inject_Z (calibrationFrames d)
        + sumKnee frames)%Q.
Proof.
  unfold final.
  induction frames as [| [now angles] rest IH]; intros d Hc H0 Hsp Hlen.
  - cbn [run snd List.length Z.of_nat sumHip sumKnee].
    rewrite Z.add_0_r. split; ring.
  - cbn [spaced] in Hsp. destruct Hsp as [Hproc Hsp].
    cbn [List.length] in Hlen. rewrite Nat2Z.inj_succ in Hlen.
    cbn [run]. rewrite (update_calibrating now angles d Hproc Hc).
    set (d1 := calibrate angles now (set_lastUpdateTime now d)).
    destruct (calibrate_keeps angles now (set_lastUpdateTime now d))
      as (_ & _ & _ & _ & _ & _ & _ & Hu & Hn).
    fold d1 in Hu, Hn.
    cbn [set_lastUpdateTime lastUpdateTime calibrationFrames] in Hu, Hn.
    destruct (calibrate_standing angles now (set_lastUpdateTime now d))
      as [Hhip Hknee];
      [cbn [set_lastUpdateTime calibrationFrames]; lia .. |].
    fold d1 in Hhip, Hknee.
    cbn [set_lastUpdateTime calibrationFrames standingHipAngle
           standingKneeAngle] in Hhip, Hknee.
    assert (Hc1 : isCalibrated d1 = false).
    { unfold d1. rewrite calibrate_flags.
      cbn [set_lastUpdateTime calibrationFrames isCalibrated].
      rewrite Hc, orb_false_r. apply Z.leb_gt.
      unfold CALIBRATION_FRAMES_NEEDED. lia. }
    assert (Hsp1 : spaced (lastUpdateTime d1) rest) by (rewrite Hu; exact Hsp).
    pose proof (IH d1 Hc1 ltac:(lia) Hsp1 ltac:(lia)) as I.
    cbv zeta in I. destruct I as [I1 I2].
    destruct (run d1 rest) as [outs d2]. cbn [fst snd] in *.
    rewrite Hn in I1, I2.
    cbv zeta. cbn [List.length sumHip sumKnee]. rewrite Nat2Z.inj_succ.
    replace (calibrationFrames d + Z.succ (Z.of_nat (List.length rest)))
      with (calibrationFrames d + 1 + Z.of_nat (List.length rest)) by lia.
    split.
    + rewrite I1, Hhip. ring.
    + rewrite I2, Hknee. ring.
Qed.

(** X8.  The standing angles a calibration learns are plain means: after
    [n] frames, [n] between 1 and 15, each at least 50 ms after the one
    before, the standing hip angle of a new detector is the sum of the
    [n] hip angles divided by [n], and likewise for the knee. *)
Theorem standing_angles_are_means :
  forall (ex : Exercise) (frames : list Frame),
    spaced 0 frames ->
    (0 < List.length frames <= 15)%nat ->
    let d := final (new ex) frames in
    let n := inject_Z (Z.of_nat (List.length frames)) in
    (standingHipAngle d == sumHip frames / n /\
     standingKneeAngle d == sumKnee frames / n)%Q.
Proof.
  intros ex frames Hsp [Hpos Hlen] d n.
  destruct (standing_run frames (new ex) eq_refl ltac:(cbn; lia) Hsp)
    as [Hhip Hknee].
  { cbn [new calibrationFrames]. lia. }
  cbn [new calibrationFrames standingHipAngle standingKneeAngle]
    in Hhip, Hknee.
  rewrite Z.add_0_l in Hhip, Hknee. fold d n in Hhip, Hknee.
  assert (Hn : ~ (n == 0)%Q).
  { unfold n. intros E. unfold Qeq in E. cbn in E. lia. }
  split.
  - transitivity (standingHipAngle d * n / n)%Q;
      [symmetry; apply Qdiv_mult_l; exact Hn |].
    rewrite Hhip. change (inject_Z 0) with 0%Q. unfold Qdiv. ring.
  - transitivity (standingKneeAngle d * n / n)%Q;
      [symmetry; apply Qdiv_mult_l; exact Hn |].
    rewrite Hknee. change (inject_Z 0) with 0%Q. unfold Qdiv. ring.
Qed.

Lemma standing_angles_are_means_witness :
  let frames := [ (1000, pose 168 174); (1050, pose 170 175);
                  (1100, pose 172 176) ] in
  let d := final (new squat) frames in
  (standingHipAngle d == (168 + (170 + (172 + 0))) / 3 /\
   standingKneeAngle d == (174 + (175 + (176 + 0))) / 3)%Q.
Proof.
  apply (standing_angles_are_means squat
           [ (1000, pose 168 174); (1050, pose 170 175);
             (1100, pose 172 176) ]).
  - cbn. repeat split; discriminate.
  - cbn. lia.
Defined.

(** X9.  [forceCalibration] keeps the phase, the rep count and the tempo
    history and makes the detector calibrate again from its first frame:
    the next processed call does not run the state logic, restarts
    [repStartTime] at its own clock value, and sets the standing angles
    to the angles of that frame, whatever they were before. *)
Theorem forceCalibration_restarts_calibration :
  forall (now : Z) (angles : JointAngles Q) (d : RepDetector),
    UPDATE_THROTTLE <= now - lastUpdateTime d ->
    let forced := forceCalibration d in
    let d' := snd (update now angles forced) in
    (currentState forced = currentState d /\ repCount forced = repCount d /\
     repTimes forced = repTimes d /\ isCalibrated forced = false) /\
    (currentState d' = currentState d /\ repCount d' = repCount d /\
     isCalibrated d' = false /\ calibrationFrames d' = 1 /\
     repStartTime d' = now /\
     (standingHipAngle d' == hipAngle angles)%Q /\
     (standingKneeAngle d' == kneeAngle angles)%Q).
Proof.
  intros now angles d Hproc forced d'.
  split; [now cbn |].
  subst d'.
  rewrite (update_calibrating now angles forced Hproc eq_refl). cbn [snd].
  unfold calibrate, forced.
  cbn [forceCalibration set_lastUpdateTime calibrationFrames Z.add
         Z.eqb Z.leb Z.compare Pos.compare Pos.compare_cont
         CALIBRATION_FRAMES_NEEDED andb].
  cbn. repeat split; field.
Qed.

Lemma forceCalibration_restarts_calibration_witness :
  let forced := forceCalibration midRep in
  let d' := snd (update 2400 (pose 171 176) forced) in
  (currentState forced = currentState midRep /\
   repCount forced = repCount midRep /\
   repTimes forced = repTimes midRep /\ isCalibrated forced = false) /\
  (currentState d' = currentState midRep /\ repCount d' = repCount midRep /\
   isCalibrated d' = false /\ calibrationFrames d' = 1 /\
   repStartTime d' = 2400 /\
   (standingHipAngle d' == hipAngle (pose 171 176))%Q /\
   (standingKneeAngle d' == kneeAngle (pose 171 176))%Q).
Proof.
  apply (forceCalibration_restarts_calibration 2400 (pose 171 176) midRep).
  vm_compute. discriminate.
Defined.


(** ** Throttling *)

Lemma transitionTo_lastUpdateTime (newState : RepState) (timestamp : Z)
  (d : RepDetector) :
  lastUpdateTime (transitionTo newState timestamp d) = lastUpdateTime d.
Proof.
  unfold transitionTo.
  destruct (RepState_eqb _ _); [reflexivity |].
  destruct (_ <? _); reflexivity.
Qed.

Lemma completeRep_lastUpdateTime (timestamp : Z) (d : RepDetector) :
  lastUpdateTime (completeRep timestamp d) = lastUpdateTime d.
Proof.
  unfold completeRep.
  destruct (RepState_eqb _ _); [reflexivity |].
  destruct (_ && _); reflexivity.
Qed.

Lemma update_stamps_clock (now : Z) (angles : JointAngles Q)
  (d : RepDetector) :
  UPDATE_THROTTLE <= now - lastUpdateTime d ->
  lastUpdateTime (snd (update now angles d)) = now.
Proof.
  intros Hproc. unfold update. apply Z.ltb_ge in Hproc. rewrite Hproc.
  cbn [isCalibrated set_lastUpdateTime].
  destruct (negb (isCalibrated d)); cbn [snd].
  - now destruct (calibrate_keeps angles now (set_lastUpdateTime now d))
      as (_ & _ & _ & _ & _ & _ & _ & Hu & _).
  - cbn [updateConfidence lastUpdateTime].
    set (d1 := set_lastUpdateTime now d).
    set (d2 := match exercise d with
               | squat => updateSquatState angles now d1
               | pullup => updatePullupState angles now d1
               end).
    assert (H2 : lastUpdateTime d2 = now).
    { assert (Hmove : SquatMove now d1 d2).
      { unfold d2. destruct (exercise d);
          [apply updateSquatState_move | apply move_none]. }
      destruct Hmove.
      - reflexivity.
      - now rewrite transitionTo_lastUpdateTime.
      - now rewrite completeRep_lastUpdateTime. }
    unfold checkForStuckState.
    destruct (_ && _ && _); [| exact H2].
    now rewrite completeRep_lastUpdateTime.
Qed.

(** X28.  A call that comes less than 50 ms after a processed call is
    answered with the detection of that call and changes nothing in the
    detector, whatever angles it brings. *)
Theorem update_throttled_repeats_last_detection :
  forall (now1 now2 : Z) (angles1 angles2 : JointAngles Q) (d : RepDetector),
    UPDATE_THROTTLE <= now1 - lastUpdateTime d ->
    now2 - now1 < UPDATE_THROTTLE ->
    update now2 angles2 (snd (update now1 angles1 d))
    = (fst (update now1 angles1 d), snd (update now1 angles1 d)).
Proof.
  intros now1 now2 angles1 angles2 d Hproc Hsoon.
  rewrite update_throttled.
  - now rewrite <- update_detection.
  - now rewrite update_stamps_clock.
Qed.

Lemma update_throttled_repeats_last_detection_witness :
  update 2280 (pose 60 90) (snd (update 2250 (pose 100 175) calibrated))
  = (fst (update 2250 (pose 100 175) calibrated),
     snd (update 2250 (pose 100 175) calibrated)).
Proof.
  apply (update_throttled_repeats_last_detection 2250 2280
           (pose 100 175) (pose 60 90) calibrated).
  - vm_compute. discriminate.
  - vm_compute. reflexivity.
Defined.

(** ** Standing still *)

(** X29.  No rep starts while the user stands: a calibrated detector in
    IDLE whose squat depth is not above its standing hip angle stays in
    IDLE, with the same rep count, on every frame whose hip angle is at
    least the standing hip angle and whose knee angle is no more than 8
    degrees below the standing knee angle. *)
Theorem standing_frames_keep_idle :
  forall (now : Z) (angles : JointAngles Q) (d : RepDetector),
    isCalibrated d = true ->
    currentState d = IDLE ->
    (squatDepthHipAngle d <= standingHipAngle d)%Q ->
    (standingHipAngle d <= hipAngle angles)%Q ->
    (standingKneeAngle d - 8 <= kneeAngle angles)%Q ->
    let d' := snd (update now angles d) in
    currentState d' = IDLE /\ repCount d' = repCount d /\
    state (fst (update now angles d)) = IDLE.
Proof.
  intros now angles d Hcal Hidle Hrange Hhip Hknee d'. subst d'.
  rewrite update_detection. cbn [getCurrentDetection state].
  unfold update.
  destruct (_ <? _); [cbn [snd]; auto |].
  change (isCalibrated (set_lastUpdateTime now d)) with (isCalibrated d).
  rewrite Hcal. cbn [negb snd].
  cbn [updateConfidence currentState repCount].
  assert (Hstay : forall d1,
             isCalibrated d1 = true -> currentState d1 = IDLE ->
             standingHipAngle d1 = standingHipAngle d ->
             standingKneeAngle d1 = standingKneeAngle d ->
             squatDepthHipAngle d1 = squatDepthHipAngle d ->
             updateSquatState angles now d1 = d1).
  { intros d1 Hc1 Hi1 Hsh Hsk Hsd. unfold updateSquatState.
    rewrite Hc1, Hi1, Hsh, Hsk, Hsd. cbn [negb]. cbv zeta.
    assert (E1 : Qlt_bool (hipAngle angles)
                   (standingHipAngle d
                    - (standingHipAngle d - squatDepthHipAngle d) * 0.2)
                 = false).
    { apply RulesFacts.Qlt_bool_false. Lqa.lra. }
    assert (E2 : Qlt_bool (kneeAngle angles) (standingKneeAngle d - 8)
                 = false).
    { apply RulesFacts.Qlt_bool_false. exact Hknee. }
    rewrite E1, E2. reflexivity. }
  set (d1 := set_lastUpdateTime now d).
  assert (H2 : match exercise d1 with
               | squat => updateSquatState angles now d1
               | pullup => updatePullupState angles now d1
               end = d1).
  { destruct (exercise d1); [| reflexivity].
    apply Hstay; auto. }
  rewrite H2. unfold checkForStuckState.
  change (currentState d1) with (currentState d). rewrite Hidle.
  cbn [RepState_eqb negb]. rewrite andb_false_r. cbn [andb].
  change (currentState d1) with (currentState d).
  change (repCount d1) with (repCount d). auto.
Qed.

Lemma standing_frames_keep_idle_witness :
  let d' := snd (update 2250 (pose 171 176) calibrated) in
  currentState d' = IDLE /\ repCount d' = repCount calibrated /\
  state (fst (update 2250 (pose 171 176) calibrated)) = IDLE.
Proof.
  apply (standing_frames_keep_idle 2250 (pose 171 176) calibrated);
    vm_compute; first [reflexivity | discriminate].
Defined.

End RepMoreFacts.

(** * The angle calculator: geometry and smoothing *)

Module AnglesMoreFacts.
Import Angles AnglesFacts.
Local Open Scope R_scope.

Lemma at_index_map (f : PoseLandmark -> PoseLandmark)
  (landmarks : list PoseLandmark) (i : nat) :
  (i < List.length landmarks)%nat ->
  at_index (map f landmarks) i = f (at_index landmarks i).
Proof.
  intros Hi. unfold at_index.
  rewrite (nth_indep (map f landmarks) undefinedLandmark
             (f undefinedLandmark)) by (now rewrite length_map).
  apply map_nth.
Qed.

(** [calculateAngleBetweenVectors] only depends on the dot product and
    the two squared lengths. *)
Lemma calculateAngleBetweenVectors_same (v1 v2 w1 w2 : Vec2) :
  vx v1 * vx v2 + vy v1 * vy v2 = vx w1 * vx w2 + vy w1 * vy w2 ->
  vx v1 * vx v1 + vy v1 * vy v1 = vx w1 * vx w1 + vy w1 * vy w1 ->
  vx v2 * vx v2 + vy v2 * vy v2 = vx w2 * vx w2 + vy w2 * vy w2 ->
  calculateAngleBetweenVectors v1 v2 = calculateAngleBetweenVectors w1 w2.
Proof.
  intros Hdot H1 H2. unfold calculateAngleBetweenVectors.
  now rewrite Hdot, H1, H2.
Qed.

Lemma obtuseAt_same (l1 l2 l3 m1 m2 m3 : PoseLandmark) (v1 v2 w1 w2 : Vec2) :
  visibility l1 = visibility m1 -> visibility l2 = visibility m2 ->
  visibility l3 = visibility m3 ->
  calculateAngleBetweenVectors v1 v2 = calculateAngleBetweenVectors w1 w2 ->
  obtuseAt l1 l2 l3 v1 v2 = obtuseAt m1 m2 m3 w1 w2.
Proof.
  intros V1 V2 V3 Hangle. unfold obtuseAt, isLandmarkVisible.
  now rewrite V1, V2, V3, Hangle.
Qed.

(** X10.  The raw angles do not depend on where the subject stands in
    the image: shifting all of at least 33 landmarks by the same offset
    leaves all six raw angles, and so the result of [calculateAngles] for
    any smoothing memory, unchanged. *)
Theorem calculateAngles_translation_invariant :
  forall (dx dy : R) (landmarks : list PoseLandmark) (lastAngles : Memory),
    (33 <= List.length landmarks)%nat ->
    rawAngles (map (translate dx dy) landmarks) = rawAngles landmarks /\
    calculateAngles (map (translate dx dy) landmarks) lastAngles
    = calculateAngles landmarks lastAngles.
Proof.
  intros dx dy landmarks lastAngles Hlen.
  assert (Hraw : rawAngles (map (translate dx dy) landmarks)
                 = rawAngles landmarks).
  { unfold rawAngles, calculateTrunkAngle, calculateHipAngle,
      calculateKneeAngle, calculateShoulderAngle, calculateElbowAngle,
      calculateAnkleAngle.
    rewrite !at_index_map by lia.
    f_equal.
    - unfold isLandmarkVisible; cbn [translate visibility x y vx vy].
      destruct (negb _ || negb _); [reflexivity |].
      replace (x (at_index landmarks 11) + dx - (x (at_index landmarks 23) + dx))
        with (x (at_index landmarks 11) - x (at_index landmarks 23)) by ring.
      replace (y (at_index landmarks 11) + dy - (y (at_index landmarks 23) + dy))
        with (y (at_index landmarks 11) - y (at_index landmarks 23)) by ring.
      reflexivity.
    - apply obtuseAt_same; try reflexivity.
      apply calculateAngleBetweenVectors_same;
        cbn [translate x y vx vy]; ring.
    - apply obtuseAt_same; try reflexivity.
      apply calculateAngleBetweenVectors_same;
        cbn [translate x y vx vy]; ring.
    - apply obtuseAt_same; try reflexivity.
      apply calculateAngleBetweenVectors_same;
        cbn [translate x y vx vy]; ring.
    - apply obtuseAt_same; try reflexivity.
      apply calculateAngleBetweenVectors_same;
        cbn [translate x y vx vy]; ring.
    - apply obtuseAt_same; try reflexivity.
      apply calculateAngleBetweenVectors_same;
        cbn [translate x y vx vy]; ring. }
  split; [exact Hraw |].
  rewrite (calculateAngles_full (map (translate dx dy) landmarks) lastAngles)
    by (rewrite length_map; exact Hlen).
  rewrite (calculateAngles_full landmarks lastAngles Hlen).
  now rewrite Hraw.
Qed.

Lemma calculateAngles_translation_invariant_witness :
  rawAngles (map (translate 0.1 0.05) standingFrame) = rawAngles standingFrame
  /\
  calculateAngles (map (translate 0.1 0.05) standingFrame) None
  = calculateAngles standingFrame None.
Proof.
  apply (calculateAngles_translation_invariant 0.1 0.05 standingFrame None).
  rewrite standingFrame_length. lia.
Defined.

(** X11.  The raw angles do not depend on which way the subject faces:
    mirroring all of at least 33 landmarks left to right leaves all six
    raw angles, and so the result of [calculateAngles], unchanged. *)
Theorem calculateAngles_mirror_invariant :
  forall (landmarks : list PoseLandmark) (lastAngles : Memory),
    (33 <= List.length landmarks)%nat ->
    rawAngles (map mirror landmarks) = rawAngles landmarks /\
    calculateAngles (map mirror landmarks) lastAngles
    = calculateAngles landmarks lastAngles.
Proof.
  intros landmarks lastAngles Hlen.
  assert (Hraw : rawAngles (map mirror landmarks) = rawAngles landmarks).
  { unfold rawAngles, calculateTrunkAngle, calculateHipAngle,
      calculateKneeAngle, calculateShoulderAngle, calculateElbowAngle,
      calculateAnkleAngle.
    rewrite !at_index_map by lia.
    f_equal.
    - unfold isLandmarkVisible; cbn [mirror visibility x y vx vy].
      destruct (negb _ || negb _); [reflexivity |].
      replace ((1 - x (at_index landmarks 11) - (1 - x (at_index landmarks 23)))
               * (1 - x (at_index landmarks 11)
                  - (1 - x (at_index landmarks 23))))
        with ((x (at_index landmarks 11) - x (at_index landmarks 23))
              * (x (at_index landmarks 11) - x (at_index landmarks 23)))
        by ring.
      reflexivity.
    - apply obtuseAt_same; try reflexivity.
      apply calculateAngleBetweenVectors_same; cbn [mirror x y vx vy]; ring.
    - apply obtuseAt_same; try reflexivity.
      apply calculateAngleBetweenVectors_same; cbn [mirror x y vx vy]; ring.
    - apply obtuseAt_same; try reflexivity.
      apply calculateAngleBetweenVectors_same; cbn [mirror x y vx vy]; ring.
    - apply obtuseAt_same; try reflexivity.
      apply calculateAngleBetweenVectors_same; cbn [mirror x y vx vy]; ring.
    - apply obtuseAt_same; try reflexivity.
      apply calculateAngleBetweenVectors_same; cbn [mirror x y vx vy]; ring. }
  split; [exact Hraw |].
  rewrite (calculateAngles_full (map mirror landmarks) lastAngles)
    by (rewrite length_map; exact Hlen).
  rewrite (calculateAngles_full landmarks lastAngles Hlen).
  now rewrite Hraw.
Qed.

Lemma calculateAngles_mirror_invariant_witness :
  rawAngles (map mirror standingFrame) = rawAngles standingFrame /\
  calculateAngles (map mirror standingFrame) None
  = calculateAngles standingFrame None.
Proof.
  apply (calculateAngles_mirror_invariant standingFrame None).
  rewrite standingFrame_length. lia.
Defined.


(** ** The provider's filter *)

Lemma convert_identity (landmarks : list PoseLandmark) :
  map (fun landmark =>
         {| x := x landmark; y := y landmark; z := z landmark;
            visibility := visibility landmark |}) landmarks
  = landmarks.
Proof.
  induction landmarks as [| [px py pz pv] rest IH]; cbn; [reflexivity |].
  now rewrite IH.
Qed.

Lemma visible_iff_above_half (landmark : PoseLandmark) :
  isLandmarkVisible landmark
  = if Rlt_dec 0.5 (visibilityOrZero landmark) then true else false.
Proof.
  unfold isLandmarkVisible, visibilityOrZero.
  destruct (visibility landmark) as [v |]; [reflexivity |].
  destruct (Rlt_dec 0.5 0) as [H | _]; [exfalso; lra | reflexivity].
Qed.

Lemma someWithIndex_false (p : PoseLandmark -> nat -> bool)
  (landmarks : list PoseLandmark) :
  forall (start i : nat),
    someWithIndex p landmarks start = false ->
    (i < List.length landmarks)%nat ->
    p (nth i landmarks undefinedLandmark) (start + i)%nat = false.
Proof.
  induction landmarks as [| l rest IH]; intros start i Hsome Hi;
    cbn [List.length] in Hi; [lia |].
  cbn [someWithIndex] in Hsome. apply orb_false_iff in Hsome as [Hl Hrest].
  destruct i as [| i]; cbn [nth].
  - now rewrite Nat.add_0_r.
  - replace (start + S i)%nat with (S start + i)%nat by lia.
    apply IH; [exact Hrest | lia].
Qed.

Lemma no_body_landmark_hidden (landmarks : list PoseLandmark) (i : nat) :
  hasBodyLandmarks landmarks = false ->
  (11 <= i < List.length landmarks)%nat ->
  isLandmarkVisible (at_index landmarks i) = false.
Proof.
  intros Hnone [H11 Hi].
  pose proof (someWithIndex_false _ landmarks 0 i Hnone Hi) as H.
  cbn beta in H. rewrite Nat.add_0_l in H.
  apply Nat.leb_le in H11. rewrite H11 in H. cbn [andb] in H.
  rewrite visible_iff_above_half. exact H.
Qed.

(** X12.  What the provider forwards is the frame it was given; and a
    frame of at least 33 landmarks that it drops for lack of body
    landmarks would have given six raw angles of 0: every landmark the
    calculator reads has index 11 or more. *)
Theorem handleResults_drops_only_angleless_frames :
  forall (landmarks : list PoseLandmark),
    (forall forwarded,
        handleResults true true (Some landmarks) = Some forwarded ->
        forwarded = landmarks /\ hasBodyLandmarks landmarks = true) /\
    (handleResults true true (Some landmarks) = None ->
     (33 <= List.length landmarks)%nat ->
     rawAngles landmarks = zeroAngles).
Proof.
  intros landmarks. unfold handleResults. cbn [negb orb].
  rewrite convert_identity. split.
  - intros forwarded H.
    destruct (0 <? List.length landmarks)%nat; [| discriminate].
    destruct (hasBodyLandmarks landmarks); [| discriminate].
    injection H as <-. now split.
  - intros H Hlen.
    assert (Hpos : (0 <? List.length landmarks)%nat = true)
      by (apply Nat.ltb_lt; lia).
    rewrite Hpos in H.
    destruct (hasBodyLandmarks landmarks) eqn:Hbody; [discriminate |].
    assert (Hhid : forall i, (11 <= i < 33)%nat ->
                             isLandmarkVisible (at_index landmarks i) = false).
    { intros i Hi. apply no_body_landmark_hidden; [exact Hbody | lia]. }
    unfold rawAngles, zeroAngles, calculateTrunkAngle, calculateHipAngle,
      calculateKneeAngle, calculateShoulderAngle, calculateElbowAngle,
      calculateAnkleAngle, obtuseAt.
    rewrite (Hhid 23%nat), (Hhid 11%nat), (Hhid 25%nat) by lia.
    cbn [negb orb]. reflexivity.
Qed.

Lemma handleResults_drops_only_angleless_frames_witness :
  handleResults true true (Some occludedFrame) = None /\
  rawAngles occludedFrame = zeroAngles.
Proof.
  assert (Hnone : handleResults true true (Some occludedFrame) = None).
  { unfold handleResults. cbn [negb orb]. rewrite convert_identity.
    unfold occludedFrame, hasBodyLandmarks, lowVisibility, visibilityOrZero.
    cbn [repeat List.length Nat.ltb Nat.leb someWithIndex visibility andb orb].
    destruct (Rlt_dec 0.5 0.1) as [H | _]; [exfalso; lra | reflexivity]. }
  split; [exact Hnone |].
  apply (proj2 (handleResults_drops_only_angleless_frames occludedFrame)).
  - exact Hnone.
  - rewrite occludedFrame_length. lia.
Defined.

(** ** Smoothing over time *)

Lemma angleOf_smoothedAgainst (j : Joint) (raw last : JointAngles R) :
  angleOf j (smoothedAgainst raw last)
  = smoothAngle (angleOf j raw) (angleOf j last).
Proof. destruct j; reflexivity. Qed.

(** X13.  While a pose is held the smoothed angle closes in on the raw
    one geometrically: after [n] calls on the same (at least 33)
    landmarks, the distance of each stored angle from its raw value is
    [0.8 ^ n] times what it was before the first of them. *)
Theorem repeatCalls_error_decays :
  forall (n : nat) (landmarks : list PoseLandmark) (last : JointAngles R),
    (33 <= List.length landmarks)%nat ->
    exists current,
      repeatCalls n landmarks (Some last) = Some current /\
      forall j,
        angleOf j current - angleOf j (rawAngles landmarks)
        = 0.8 ^ n * (angleOf j last - angleOf j (rawAngles landmarks)).
Proof.
  intros n landmarks last Hlen. revert last.
  induction n as [| n IH]; intros last.
  - exists last. split; [reflexivity |]. intros j. cbn [pow]. ring.
  - cbn [repeatCalls].
    rewrite (calculateAngles_full landmarks (Some last) Hlen). cbn [snd].
    destruct (IH (smoothedAgainst (rawAngles landmarks) last))
      as (current & Hmem & Herr).
    exists current. split; [exact Hmem |].
    intros j. rewrite (Herr j), angleOf_smoothedAgainst.
    unfold smoothAngle, SMOOTHING_FACTOR. cbn [pow]. lra.
Qed.

Lemma repeatCalls_error_decays_witness :
  exists current,
    repeatCalls 2 occludedFrame (Some (rawAngles standingFrame))
    = Some current /\
    forall j,
      angleOf j current - angleOf j (rawAngles occludedFrame)
      = 0.8 ^ 2 * (angleOf j (rawAngles standingFrame)
                   - angleOf j (rawAngles occludedFrame)).
Proof.
  apply (repeatCalls_error_decays 2 occludedFrame (rawAngles standingFrame)).
  rewrite occludedFrame_length. lia.
Defined.

(** X14.  Smoothing hides the missing-data sentinel: with a memory whose
    angles are in range, a full frame returns 0 for an angle only if both
    its raw value and the stored value are 0.  A joint that could not be
    computed in this frame (raw 0) is reported as 0.8 times its stored
    angle. *)
Theorem calculateAngles_zero_needs_zero_memory :
  forall (landmarks : list PoseLandmark) (last : JointAngles R) (j : Joint),
    (33 <= List.length landmarks)%nat ->
    inRange last ->
    let angles := fst (calculateAngles landmarks (Some last)) in
    (angleOf j angles = 0 <->
     angleOf j (rawAngles landmarks) = 0 /\ angleOf j last = 0) /\
    (angleOf j (rawAngles landmarks) = 0 ->
     angleOf j angles = 0.8 * angleOf j last).
Proof.
  intros landmarks last j Hlen Hlast angles. subst angles.
  rewrite (calculateAngles_full landmarks (Some last) Hlen). cbn [fst].
  rewrite angleOf_smoothedAgainst.
  assert (Hraw : 0 <= angleOf j (rawAngles landmarks)).
  { pose proof (rawAngles_inRange landmarks) as H.
    unfold inRange in H. destruct j; cbn [angleOf]; lra. }
  assert (Hl : 0 <= angleOf j last).
  { unfold inRange in Hlast. destruct j; cbn [angleOf]; lra. }
  unfold smoothAngle, SMOOTHING_FACTOR. split; [split |]; intros; lra.
Qed.

Lemma calculateAngles_zero_needs_zero_memory_witness :
  let angles :=
    fst (calculateAngles occludedFrame (Some (rawAngles standingFrame))) in
  (angleOf Knee angles = 0 <->
   angleOf Knee (rawAngles occludedFrame) = 0 /\
   angleOf Knee (rawAngles standingFrame) = 0) /\
  (angleOf Knee (rawAngles occludedFrame) = 0 ->
   angleOf Knee angles = 0.8 * angleOf Knee (rawAngles standingFrame)).
Proof.
  apply (calculateAngles_zero_needs_zero_memory occludedFrame
           (rawAngles standingFrame) Knee).
  - rewrite occludedFrame_length. lia.
  - apply rawAngles_inRange.
Defined.

End AnglesMoreFacts.

(** * The smoothing memory across recordings, behind the provider's filter *)

Module SessionMoreFacts.
Import Angles AnglesFacts SessionFacts AnglesMoreFacts.
Local Open Scope R_scope.

Lemma ankleHiddenFrame_length : List.length ankleHiddenFrame = 33%nat.
Proof. reflexivity. Qed.

Lemma ankleHiddenFrame_knee : calculateKneeAngle ankleHiddenFrame = 0.
Proof.
  unfold calculateKneeAngle, at_index, ankleHiddenFrame.
  cbn [map seq nth ankleHiddenLandmark Nat.add].
  unfold obtuseAt. rewrite !seen_visible, lowVisibility_hidden.
  reflexivity.
Qed.

(** A frame whose left shoulder is well visible passes the filter. *)
Lemma shoulder_seen_forwarded (landmarks : list PoseLandmark) :
  (11 < List.length landmarks)%nat ->
  isLandmarkVisible (at_index landmarks 11) = true ->
  handleResults true true (Some landmarks) = Some landmarks.
Proof.
  intros Hlen Hvis. unfold handleResults. cbn [negb orb].
  rewrite convert_identity.
  assert (Hpos : (0 <? List.length landmarks)%nat = true)
    by (apply Nat.ltb_lt; lia).
  rewrite Hpos.
  destruct (hasBodyLandmarks landmarks) eqn:Hbody; [reflexivity |].
  rewrite (no_body_landmark_hidden landmarks 11 Hbody) in Hvis
    by (split; [apply Nat.le_refl | exact Hlen]).
  discriminate.
Qed.

(** The carry-over of the smoothing memory with frames the provider
    forwards: one standing frame in the first recording, then stop, start
    again, and a frame with the feet out of view.  Both frames pass
    [handleResults]; the raw knee angle of the second is 0, the value
    returned for it is 144 = 0.8 * 180 + 0.2 * 0. *)
Lemma smoothing_memory_carries_over_forwarded_frames :
  let events :=
    [StartRecording; PoseResults standingFrame; StopRecording;
     StartRecording; PoseResults ankleHiddenFrame] in
  handleResults true true (Some standingFrame) = Some standingFrame /\
  handleResults true true (Some ankleHiddenFrame) = Some ankleHiddenFrame /\
  exists first second : JointAngles R,
    fst (pageRun None events) = [first; second] /\
    kneeAngle first = 180 /\
    kneeAngle (rawAngles ankleHiddenFrame) = 0 /\
    kneeAngle second = 144 /\
    second <> rawAngles ankleHiddenFrame.
Proof.
  cbv zeta.
  split; [| split].
  - apply shoulder_seen_forwarded; [rewrite standingFrame_length; lia |].
    apply seen_visible.
  - apply shoulder_seen_forwarded; [rewrite ankleHiddenFrame_length; lia |].
    apply seen_visible.
  - cbn [pageRun pageStep].
    rewrite (calculateAngles_full standingFrame None)
      by (rewrite standingFrame_length; lia).
    rewrite (calculateAngles_full ankleHiddenFrame
               (Some (rawAngles standingFrame)))
      by (rewrite ankleHiddenFrame_length; lia).
    cbn [fst].
    assert (K2 : kneeAngle (smoothedAgainst (rawAngles ankleHiddenFrame)
                              (rawAngles standingFrame)) = 144).
    { unfold smoothedAgainst, rawAngles; cbn [kneeAngle].
      rewrite standingFrame_knee, ankleHiddenFrame_knee.
      unfold smoothAngle, SMOOTHING_FACTOR. lra. }
    assert (K0 : kneeAngle (rawAngles ankleHiddenFrame) = 0).
    { unfold rawAngles; cbn [kneeAngle]. apply ankleHiddenFrame_knee. }
    eexists _, _. split; [reflexivity |].
    split; [unfold rawAngles; cbn [kneeAngle]; apply standingFrame_knee |].
    split; [exact K0 |].
    split; [exact K2 |].
    intros Heq. rewrite Heq in K2. rewrite K0 in K2. lra.
Qed.

End SessionMoreFacts.

(** * The rules engine: scores, flags and feedback *)

Module EngineFacts.
Import Rules RulesFacts Engine.
Local Open Scope Q_scope.

(** The score outside the range, [d] degrees past the boundary. *)
Lemma outside_score (d : Q) :
  0 < d ->
  0 <= Qmax 0 (0.5 - d / 10) /\ Qmax 0 (0.5 - d / 10) < 0.5 /\
  (Qmax 0 (0.5 - d / 10) == 0 <-> 5 <= d).
Proof.
  intros Hd. unfold Qdiv. change (/ 10) with (1 # 10).
  destruct (Q.max_spec 0 (0.5 - d * (1 # 10))) as [[Hlt ->] | [Hle ->]].
  - repeat split; try Lqa.lra; intros; Lqa.lra.
  - repeat split; try Lqa.lra; intros; Lqa.lra.
Qed.

(** The three cases of [evaluateAngle], with the value in each. *)
Lemma evaluateAngle_cases (rule : ExerciseRule) (a : Q) :
  let lo := min (thresholds rule) in
  let hi := max (thresholds rule) in
  (lo <= a <= hi /\ 0.6 <= evaluateAngle a rule <= 1)
  \/ (a < lo /\
      evaluateAngle a rule == Qmax 0 (0.5 - (lo - a) / 10))
  \/ (lo <= a /\ hi < a /\
      evaluateAngle a rule == Qmax 0 (0.5 - (a - hi) / 10)).
Proof.
  intros lo hi.
  destruct (Qlt_le_dec a lo) as [Hlt | Hlo].
  - right; left. split; [exact Hlt | now apply evaluateAngle_below].
  - destruct (Qlt_le_dec hi a) as [Hgt | Hhi].
    + right; right. split; [exact Hlo |]. split; [exact Hgt |].
      now apply evaluateAngle_above.
    + left. split; [now split |].
      unfold evaluateAngle. fold lo hi.
      apply Qle_bool_iff in Hlo, Hhi. rewrite Hlo, Hhi. cbn [andb].
      cbv zeta. q_cases; split; discriminate.
Qed.

Lemma evaluateAngle_unit (rule : ExerciseRule) (a : Q) :
  0 <= evaluateAngle a rule <= 1.
Proof.
  destruct (evaluateAngle_cases rule a)
    as [[_ H] | [[Hlt ->] | (Hlo & Hgt & ->)]].
  - split; [| apply H]. eapply Qle_trans; [| apply H]. discriminate.
  - destruct (outside_score (min (thresholds rule) - a)) as (H0 & H5 & _);
      [Lqa.lra |]. split; [exact H0 | Lqa.lra].
  - destruct (outside_score (a - max (thresholds rule))) as (H0 & H5 & _);
      [Lqa.lra |]. split; [exact H0 | Lqa.lra].
Qed.

Lemma evaluateAngle_split (rule : ExerciseRule) (a : Q) :
  (min (thresholds rule) <= a <= max (thresholds rule)
   /\ 0.6 <= evaluateAngle a rule)
  \/ (~ (min (thresholds rule) <= a <= max (thresholds rule))
      /\ evaluateAngle a rule < 0.5).
Proof.
  destruct (evaluateAngle_cases rule a)
    as [[Hin H] | [[Hlt ->] | (Hlo & Hgt & ->)]].
  - left. split; [exact Hin | apply H].
  - right.
    destruct (outside_score (min (thresholds rule) - a)) as (_ & H5 & _);
      [Lqa.lra |].
    split; [intros [H _]; Lqa.lra | exact H5].
  - right.
    destruct (outside_score (a - max (thresholds rule))) as (_ & H5 & _);
      [Lqa.lra |].
    split; [intros [_ H]; Lqa.lra | exact H5].
Qed.

(** X15.  Every score of [evaluateAngle] lies between 0 and 1, for every
    rule and every angle. *)
Theorem evaluateAngle_between_0_and_1 :
  forall (rule : ExerciseRule) (a : Q), 0 <= evaluateAngle a rule <= 1.
Proof.
  intros rule a.
  destruct (evaluateAngle_cases rule a)
    as [[_ H] | [[Hlt ->] | (Hlo & Hgt & ->)]].
  - split; [| apply H]. eapply Qle_trans; [| apply H]. discriminate.
  - destruct (outside_score (min (thresholds rule) - a)) as (H0 & H5 & _);
      [Lqa.lra |]. split; [exact H0 | Lqa.lra].
  - destruct (outside_score (a - max (thresholds rule))) as (H0 & H5 & _);
      [Lqa.lra |]. split; [exact H0 | Lqa.lra].
Qed.

(** X16.  The score tells inside from outside: it is at least 0.6 when
    the angle lies in [[min, max]] and below 0.5 when it does not; no
    angle scores in between. *)
Theorem evaluateAngle_separates_range :
  forall (rule : ExerciseRule) (a : Q),
    let lo := min (thresholds rule) in
    let hi := max (thresholds rule) in
    (lo <= a <= hi /\ 0.6 <= evaluateAngle a rule)
    \/ (~ (lo <= a <= hi) /\ evaluateAngle a rule < 0.5).
Proof.
  intros rule a lo hi.
  pose proof (evaluateAngle_cases rule a) as Hcases. cbv zeta in Hcases.
  fold lo hi in Hcases.
  destruct Hcases as [[Hin H] | [[Hlt ->] | (Hlo & Hgt & ->)]].
  - left. split; [exact Hin | apply H].
  - right. destruct (outside_score (lo - a)) as (_ & H5 & _); [Lqa.lra |].
    split; [intros [H _]; Lqa.lra | exact H5].
  - right. destruct (outside_score (a - hi)) as (_ & H5 & _); [Lqa.lra |].
    split; [intros [_ H]; Lqa.lra | exact H5].
Qed.

(** X17.  The score is 0 exactly when the angle is 5 degrees or more
    outside the range: at or below [min - 5], or at or above [max + 5]
    (and not below [min]). *)
Theorem evaluateAngle_zero_iff :
  forall (rule : ExerciseRule) (a : Q),
    let lo := min (thresholds rule) in
    let hi := max (thresholds rule) in
    evaluateAngle a rule == 0 <-> a <= lo - 5 \/ (lo <= a /\ hi + 5 <= a).
Proof.
  intros rule a lo hi.
  pose proof (evaluateAngle_cases rule a) as Hcases. cbv zeta in Hcases.
  fold lo hi in Hcases.
  destruct Hcases as [[Hin H] | [[Hlt E] | (Hlo & Hgt & E)]].
  - split.
    + intros E. exfalso. destruct H as [H _]. Lqa.lra.
    + intros [H5 | [_ H5]]; exfalso; Lqa.lra.
  - rewrite E.
    destruct (outside_score (lo - a)) as (_ & _ & Hz); [Lqa.lra |].
    rewrite Hz. split.
    + intros H. left. Lqa.lra.
    + intros [H | [H _]]; Lqa.lra.
  - rewrite E.
    destruct (outside_score (a - hi)) as (_ & _ & Hz); [Lqa.lra |].
    rewrite Hz. split.
    + intros H. right. split; Lqa.lra.
    + intros [H | [_ H]]; Lqa.lra.
Qed.


(** ** The overall score *)

Lemma round_percent (total : Q) :
  0 <= total <= 1 -> (0 <= round (total * 100) <= 100)%Z.
Proof.
  intros [H0 H1]. unfold round. split.
  - apply Z.le_trans with (Qfloor 0); [discriminate |].
    apply Qfloor_resp_le. Lqa.lra.
  - apply Z.le_trans with (Qfloor (201 # 2)); [| discriminate].
    apply Qfloor_resp_le. Lqa.lra.
Qed.

Lemma checkChinOverBar_values (landmarks : list PoseLandmark) :
  checkChinOverBar landmarks = 0 \/ checkChinOverBar landmarks = 1.0 \/
  checkChinOverBar landmarks = 0.7 \/ checkChinOverBar landmarks = 0.3.
Proof.
  unfold checkChinOverBar.
  destruct (_ <? _)%nat; [now left |].
  destruct (negb _ || negb _ || negb _); [now left |].
  cbv zeta.
  destruct (Qlt_bool _ _); [now right; left |].
  destruct (Qlt_bool _ _); [now right; right; left | now right; right; right].
Qed.

(** X18.  The overall score of an evaluation is a whole number between 0
    and 100, for the squat and for the pull-up, whatever the angles and
    landmarks are. *)
Theorem overall_score_is_a_percentage :
  forall (now : Z) (angles : JointAngles Q) (landmarks : list PoseLandmark),
    (0 <= overall (fst (evaluateSquat now angles landmarks)) <= 100)%Z /\
    (0 <= overall (fst (evaluatePullup now angles landmarks)) <= 100)%Z.
Proof.
  intros now angles landmarks. split.
  - unfold evaluateSquat. cbn [fst overall].
    pose proof (evaluateAngle_unit squat_trunkAngle
                  (trunkAngle angles)) as Ht.
    pose proof (evaluateAngle_unit squat_hipAngle
                  (hipAngle angles)) as Hh.
    pose proof (evaluateAngle_unit squat_kneeAngle
                  (kneeAngle angles)) as Hk.
    apply round_percent.
    cbn [weight squat_trunkAngle squat_hipAngle squat_kneeAngle].
    Lqa.lra.
  - unfold evaluatePullup. cbn [fst overall].
    pose proof (evaluateAngle_unit pullup_shoulderAngle
                  (shoulderAngle angles)) as Hs.
    pose proof (evaluateAngle_unit pullup_elbowAngle
                  (elbowAngle angles)) as He.
    assert (Hc : 0 <= checkChinOverBar landmarks <= 1).
    { destruct (checkChinOverBar_values landmarks)
        as [-> | [-> | [-> | ->]]]; split; discriminate. }
    apply round_percent.
    cbn [weight pullup_shoulderAngle pullup_elbowAngle pullup_chinOverBar].
    Lqa.lra.
Qed.

(** ** Flags and feedback *)

(** Closes a goal about a concrete feedback list. *)
Ltac feedback_facts :=
  cbn;
  repeat match goal with
    | |- _ /\ _ => split
    | |- NoDup _ => constructor
    | |- Forall _ _ => constructor
    | |- ~ _ => cbn; intros ?
    | |- _ -> _ => cbn; intros ?
    end;
  cbn in *;
  try reflexivity; try lia; try discriminate; try congruence;
  try (intuition discriminate).

(** X19.  A squat evaluation carries the flag "Knee valgus detected"
    exactly when its feedback has the line "Keep knees in line with
    toes", which is its only feedback of type error; that happens only
    with at least 32 landmarks.  The feedback has at most four lines, no
    message twice, and never both "Go deeper" and "Good depth!". *)
Theorem evaluateSquat_flags_and_feedback :
  forall (now : Z) (angles : JointAngles Q) (landmarks : list PoseLandmark),
    let score := fst (evaluateSquat now angles landmarks) in
    let feedback := snd (evaluateSquat now angles landmarks) in
    flags score
    = (if checkKneeValgus landmarks
       then ["Knee valgus detected"%string] else []) /\
    says "Keep knees in line with toes" feedback = checkKneeValgus landmarks /\
    (checkKneeValgus landmarks = false \/
     (32 <= List.length landmarks)%nat) /\
    Forall (fun fb => type fb = Store.error ->
                      message fb = "Keep knees in line with toes"%string)
      feedback /\
    (List.length feedback <= 4)%nat /\
    NoDup (map message feedback) /\
    says "Go deeper" feedback && says "Good depth!" feedback = false.
Proof.
  intros now angles landmarks score feedback. subst score feedback.
  assert (Hlen : checkKneeValgus landmarks = false \/
                 (32 <= List.length landmarks)%nat).
  { unfold checkKneeValgus.
    destruct (List.length landmarks <? 32)%nat eqn:E; [now left | right].
    now apply Nat.ltb_ge in E. }
  unfold evaluateSquat. cbn [fst snd flags].
  set (trunkLow := Qlt_bool (evaluateAngle (trunkAngle angles)
                               squat_trunkAngle) 0.7).
  set (hipScore := evaluateAngle (hipAngle angles) squat_hipAngle).
  set (kneeLow := Qlt_bool (evaluateAngle (kneeAngle angles)
                              squat_kneeAngle) 0.7).
  clearbody trunkLow kneeLow.
  split; [reflexivity |].
  split; [| split; [exact Hlen |]].
  - destruct trunkLow, (Qlt_bool hipScore 0.6), (Qlt_bool 0.9 hipScore),
      kneeLow, (checkKneeValgus landmarks); reflexivity.
  - destruct trunkLow, (Qlt_bool hipScore 0.6), (Qlt_bool 0.9 hipScore),
      kneeLow, (checkKneeValgus landmarks); feedback_facts.
Qed.

(** X20.  A pull-up evaluation carries the flag "Swinging detected"
    exactly when its feedback has the line "Control the movement", its
    only feedback of type error, and that needs at least 32 landmarks;
    the chin-over-bar score is one of 0, 0.3, 0.7 and 1.0; the feedback
    has at most four lines and no message twice. *)
Theorem evaluatePullup_flags_and_feedback :
  forall (now : Z) (angles : JointAngles Q) (landmarks : list PoseLandmark),
    let score := fst (evaluatePullup now angles landmarks) in
    let feedback := snd (evaluatePullup now angles landmarks) in
    flags score
    = (if checkSwinging landmarks then ["Swinging detected"%string] else [])
    /\
    says "Control the movement" feedback = checkSwinging landmarks /\
    (checkSwinging landmarks = false \/ (32 <= List.length landmarks)%nat) /\
    (exists chin, In ("chinOverBar"%string, chin) (breakdown score) /\
                  (chin = 0 \/ chin = 1.0 \/ chin = 0.7 \/ chin = 0.3)) /\
    Forall (fun fb => type fb = Store.error ->
                      message fb = "Control the movement"%string)
      feedback /\
    (List.length feedback <= 4)%nat /\
    NoDup (map message feedback).
Proof.
  intros now angles landmarks score feedback. subst score feedback.
  assert (Hlen : checkSwinging landmarks = false \/
                 (32 <= List.length landmarks)%nat).
  { unfold checkSwinging.
    destruct (List.length landmarks <? 32)%nat eqn:E; [now left | right].
    now apply Nat.ltb_ge in E. }
  unfold evaluatePullup. cbn [fst snd flags breakdown].
  set (shoulderLow := Qlt_bool (evaluateAngle (shoulderAngle angles)
                                  pullup_shoulderAngle) 0.7).
  set (elbowLow := Qlt_bool (evaluateAngle (elbowAngle angles)
                               pullup_elbowAngle) 0.7).
  set (chinLow := Qlt_bool (checkChinOverBar landmarks) 0.7).
  clearbody shoulderLow elbowLow chinLow.
  split; [reflexivity |].
  split; [| split; [exact Hlen |]].
  - destruct shoulderLow, elbowLow, chinLow, (checkSwinging landmarks);
      reflexivity.
  - split.
    + exists (checkChinOverBar landmarks).
      split; [cbn; auto | apply checkChinOverBar_values].
    + destruct shoulderLow, elbowLow, chinLow, (checkSwinging landmarks);
        feedback_facts.
Qed.


(** ** Feedback thresholds in degrees *)

Lemma Qabs_above (q c : Q) : c < Qabs q <-> q < - c \/ c < q.
Proof.
  split.
  - intros H.
    destruct (Qlt_le_dec q (- c)) as [Hl | Hl]; [now left |].
    destruct (Qlt_le_dec c q) as [Hr | Hr]; [now right |].
    exfalso. apply (Qlt_not_le _ _ H).
    apply Qabs_Qle_condition. now split.
  - intros H. apply Qnot_le_lt. intros Hle.
    apply Qabs_Qle_condition in Hle. destruct Hle as [H1 H2].
    destruct H as [H | H]; Lqa.lra.
Qed.

(** A score above 0.9 is the top tier: the angle is in range and within
    20% of half the range from [optimal]. *)
Lemma evaluateAngle_top (rule : ExerciseRule) (a : Q) :
  let lo := min (thresholds rule) in
  let hi := max (thresholds rule) in
  0.9 < evaluateAngle a rule <->
  lo <= a <= hi /\
  Qabs (a - optimal (thresholds rule)) <= 0.2 * ((hi - lo) / 2).
Proof.
  intros lo hi.
  destruct (Qlt_le_dec a lo) as [Hlt | Hlo].
  { pose proof (evaluateAngle_split rule a) as Hs.
    fold lo hi in Hs.
    destruct Hs as [[[H _] _] | [_ Hs]]; [exfalso; Lqa.lra |].
    split; [intros H; exfalso; Lqa.lra | intros [[H _] _]; exfalso; Lqa.lra]. }
  destruct (Qlt_le_dec hi a) as [Hgt | Hhi].
  { pose proof (evaluateAngle_split rule a) as Hs.
    fold lo hi in Hs.
    destruct Hs as [[[_ H] _] | [_ Hs]]; [exfalso; Lqa.lra |].
    split; [intros H; exfalso; Lqa.lra | intros [[_ H] _]; exfalso; Lqa.lra]. }
  assert (Hhalf : 0 <= (hi - lo) / 2).
  { unfold Qdiv. change (/ 2) with (1 # 2). Lqa.lra. }
  unfold evaluateAngle. fold lo hi.
  pose proof Hlo as Hlo'. pose proof Hhi as Hhi'.
  apply Qle_bool_iff in Hlo', Hhi'. rewrite Hlo', Hhi'. cbn [andb].
  cbv zeta.
  set (dist := Qabs (a - optimal (thresholds rule))) in *.
  set (half := (hi - lo) / 2) in *. clearbody dist half.
  q_cases; split; intros H; try Lqa.lra;
    try (split; [now split | Lqa.lra]);
    try (exfalso; destruct H as [_ H]; Lqa.lra).
Qed.

(** A score below 0.7 is the bottom tier or an angle out of range. *)
Lemma evaluateAngle_low (rule : ExerciseRule) (a : Q) :
  let lo := min (thresholds rule) in
  let hi := max (thresholds rule) in
  evaluateAngle a rule < 0.7 <->
  a < lo \/ hi < a \/
  0.8 * ((hi - lo) / 2) < Qabs (a - optimal (thresholds rule)).
Proof.
  intros lo hi.
  destruct (Qlt_le_dec a lo) as [Hlt | Hlo].
  { pose proof (evaluateAngle_split rule a) as Hs.
    fold lo hi in Hs.
    destruct Hs as [[[H _] _] | [_ Hs]]; [exfalso; Lqa.lra |].
    split; [intros _; now left | intros _; Lqa.lra]. }
  destruct (Qlt_le_dec hi a) as [Hgt | Hhi].
  { pose proof (evaluateAngle_split rule a) as Hs.
    fold lo hi in Hs.
    destruct Hs as [[[_ H] _] | [_ Hs]]; [exfalso; Lqa.lra |].
    split; [intros _; now right; left | intros _; Lqa.lra]. }
  assert (Hhalf : 0 <= (hi - lo) / 2).
  { unfold Qdiv. change (/ 2) with (1 # 2). Lqa.lra. }
  unfold evaluateAngle. fold lo hi.
  pose proof Hlo as Hlo'. pose proof Hhi as Hhi'.
  apply Qle_bool_iff in Hlo', Hhi'. rewrite Hlo', Hhi'. cbn [andb].
  cbv zeta.
  set (dist := Qabs (a - optimal (thresholds rule))) in *.
  set (half := (hi - lo) / 2) in *. clearbody dist half.
  q_cases; split; intros H; try Lqa.lra;
    try (right; right; Lqa.lra);
    try (exfalso; destruct H as [H | [H | H]]; Lqa.lra).
Qed.

Lemma says_squat (now : Z) (angles : JointAngles Q)
  (landmarks : list PoseLandmark) :
  let feedback := snd (evaluateSquat now angles landmarks) in
  let trunkScore := evaluateAngle (trunkAngle angles) squat_trunkAngle in
  let hipScore := evaluateAngle (hipAngle angles) squat_hipAngle in
  let kneeScore := evaluateAngle (kneeAngle angles) squat_kneeAngle in
  says "Keep chest up" feedback = Qlt_bool trunkScore 0.7 /\
  says "Go deeper" feedback = Qlt_bool hipScore 0.6 /\
  says "Good depth!" feedback
  = negb (Qlt_bool hipScore 0.6) && Qlt_bool 0.9 hipScore /\
  says "Push knees out" feedback = Qlt_bool kneeScore 0.7.
Proof.
  cbv zeta. unfold evaluateSquat. cbn [snd].
  destruct (Qlt_bool (evaluateAngle (trunkAngle angles) squat_trunkAngle) 0.7),
    (Qlt_bool (evaluateAngle (hipAngle angles) squat_hipAngle) 0.6),
    (Qlt_bool 0.9 (evaluateAngle (hipAngle angles) squat_hipAngle)),
    (Qlt_bool (evaluateAngle (kneeAngle angles) squat_kneeAngle) 0.7),
    (checkKneeValgus landmarks); cbn; repeat split; reflexivity.
Qed.

(** X21.  The squat feedback lines, in degrees.  "Keep chest up" is
    given exactly when the trunk angle is below 0 or above 20; "Go
    deeper" exactly when the hip angle is below 50 or above 130; "Good
    depth!" exactly when it is between 82 and 98; "Push knees out"
    exactly when the knee angle is below 74 or above 146. *)
Theorem evaluateSquat_feedback_in_degrees :
  forall (now : Z) (angles : JointAngles Q) (landmarks : list PoseLandmark),
    let feedback := snd (evaluateSquat now angles landmarks) in
    (says "Keep chest up" feedback = true <->
     trunkAngle angles < 0 \/ 20 < trunkAngle angles) /\
    (says "Go deeper" feedback = true <->
     hipAngle angles < 50 \/ 130 < hipAngle angles) /\
    (says "Good depth!" feedback = true <->
     82 <= hipAngle angles <= 98) /\
    (says "Push knees out" feedback = true <->
     kneeAngle angles < 74 \/ 146 < kneeAngle angles).
Proof.
  intros now angles landmarks feedback. subst feedback.
  destruct (says_squat now angles landmarks) as (-> & -> & -> & ->).
  set (t := trunkAngle angles). set (h := hipAngle angles).
  set (k := kneeAngle angles). clearbody t h k.
  refine (conj _ (conj _ (conj _ _))).
  - rewrite Qlt_bool_iff, evaluateAngle_low.
    cbn [min max optimal thresholds squat_trunkAngle].
    rewrite Qabs_above. unfold Qdiv. change (/ 2) with (1 # 2).
    split.
    + intros [H | [H | [H | H]]]; first [left; Lqa.lra | right; Lqa.lra].
    + intros [H | H].
      * left. exact H.
      * right; right; right. Lqa.lra.
  - rewrite Qlt_bool_iff.
    pose proof (evaluateAngle_split squat_hipAngle h) as Hs.
    cbn [min max optimal thresholds squat_hipAngle] in Hs.
    split.
    + intros H. destruct Hs as [[_ Hs] | [Hout _]]; [exfalso; Lqa.lra |].
      destruct (Qlt_le_dec h 50) as [Hl | Hl]; [now left |].
      destruct (Qlt_le_dec 130 h) as [Hr | Hr]; [now right |].
      exfalso. apply Hout. now split.
    + intros H. destruct Hs as [[[H1 H2] _] | [_ Hs]]; [| Lqa.lra].
      exfalso. destruct H as [H | H]; Lqa.lra.
  - rewrite andb_true_iff, negb_true_iff, Qlt_bool_false, Qlt_bool_iff.
    rewrite evaluateAngle_top.
    cbn [min max optimal thresholds squat_hipAngle].
    rewrite Qabs_Qle_condition. unfold Qdiv. change (/ 2) with (1 # 2).
    split.
    + intros (_ & _ & H1 & H2). split; Lqa.lra.
    + intros [H1 H2].
      assert (Hin : 50 <= h <= 130) by (split; Lqa.lra).
      assert (Hclose : - (0.2 * ((130 - 50) * (1 # 2))) <= h - 90
                       <= 0.2 * ((130 - 50) * (1 # 2))) by (split; Lqa.lra).
      split; [| now split].
      pose proof (evaluateAngle_split squat_hipAngle h) as Hs.
      cbn [min max optimal thresholds squat_hipAngle] in Hs.
      destruct Hs as [[_ Hs] | [Hout _]]; [exact Hs | contradiction].
  - rewrite Qlt_bool_iff, evaluateAngle_low.
    cbn [min max optimal thresholds squat_kneeAngle].
    rewrite Qabs_above. unfold Qdiv. change (/ 2) with (1 # 2).
    split.
    + intros [H | [H | [H | H]]]; first [left; Lqa.lra | right; Lqa.lra].
    + intros [H | H].
      * destruct (Qlt_le_dec k 60) as [Hl | Hl]; [now left |].
        right; right; left. Lqa.lra.
      * right; right; right. Lqa.lra.
Qed.


(** ** From an evaluation to the store *)

Lemma evaluation_messages_distinct (now : Z) (angles : JointAngles Q)
  (landmarks : list PoseLandmark) :
  NoDup (map message (snd (evaluateSquat now angles landmarks))) /\
  NoDup (map message (snd (evaluatePullup now angles landmarks))).
Proof.
  split.
  - unfold evaluateSquat. cbn [snd].
    destruct (Qlt_bool (evaluateAngle (trunkAngle angles) squat_trunkAngle)
                0.7),
      (Qlt_bool (evaluateAngle (hipAngle angles) squat_hipAngle) 0.6),
      (Qlt_bool 0.9 (evaluateAngle (hipAngle angles) squat_hipAngle)),
      (Qlt_bool (evaluateAngle (kneeAngle angles) squat_kneeAngle) 0.7),
      (checkKneeValgus landmarks); feedback_facts.
  - unfold evaluatePullup. cbn [snd].
    destruct (Qlt_bool (evaluateAngle (shoulderAngle angles)
                          pullup_shoulderAngle) 0.7),
      (Qlt_bool (evaluateAngle (elbowAngle angles) pullup_elbowAngle) 0.7),
      (Qlt_bool (checkChinOverBar landmarks) 0.7),
      (checkSwinging landmarks); feedback_facts.
Qed.

(** The entry [addFeedback] stores for a feedback line of rep
    [repNumber]. *)
Lemma storeFeedback_distinct (repNumber : Z)
  (feedback : list ExerciseFeedback) :
  repNumber <> 0%Z ->
  forall (state : Store.AppState) (s : Store.ExerciseSession),
    Store.currentSession state = Some s ->
    NoDup (map message feedback) ->
    (forall fb, In fb (Store.feedback s) ->
                Store.repNumber fb = repNumber ->
                ~ In (Store.message fb) (map message feedback)) ->
    exists s',
      Store.currentSession (storeFeedback repNumber feedback state) = Some s'
      /\ Store.repCount s' = Store.repCount s
      /\ Store.feedback s'
         = Store.feedback s ++
           map (fun fb =>
                  {| Store.repNumber := repNumber;
                     Store.message := message fb;
                     Store.type := type fb;
                     Store.priority := priority fb |}) feedback.
Proof.
  intros Hk. unfold storeFeedback.
  induction feedback as [| fb rest IH]; intros state s Hs Hnd Hfresh.
  - exists s. cbn. rewrite app_nil_r. now repeat split.
  - cbn [fold_left map].
    destruct (StoreFacts.addFeedback_appends (message fb) (type fb)
                (Some (priority fb)) (Some repNumber) state s Hs)
      as (s1 & Hs1 & Hrc1 & Hfb1).
    assert (Htarget : Store.targetRepNumber (Some repNumber) s = repNumber).
    { unfold Store.targetRepNumber.
      destruct (repNumber =? 0)%Z eqn:E; [| reflexivity].
      apply Z.eqb_eq in E. contradiction. }
    rewrite Htarget in Hfb1.
    assert (Hnew : existsb (Store.sameFeedback (message fb) repNumber)
                     (Store.feedback s) = false).
    { destruct (existsb _ (Store.feedback s)) eqn:E; [| reflexivity].
      exfalso. apply existsb_exists in E as (old & Hin & Hsame).
      apply StoreFacts.sameFeedback_key in Hsame.
      unfold Store.feedbackKey in Hsame. injection Hsame as Hm Hr.
      apply (Hfresh old Hin Hr). rewrite Hm. now left. }
    rewrite Hnew in Hfb1.
    inversion Hnd as [| m ms Hnotin Hnd' Heq]; subst.
    destruct (IH _ s1 Hs1 Hnd') as (s' & Hs' & Hrc' & Hfb').
    { intros old Hin Hr. rewrite Hfb1 in Hin.
      apply in_app_or in Hin as [Hin | [<- | []]].
      - intros Hmem. apply (Hfresh old Hin Hr). now right.
      - exact Hnotin. }
    exists s'. split; [exact Hs' |]. split; [congruence |].
    rewrite Hfb', Hfb1, <- app_assoc. reflexivity.
Qed.

(** X22.  When the page sends the feedback of an evaluation to the
    store under a non-zero rep number the session has no feedback for
    yet, every line is stored, in the order of the evaluation, after the
    lines stored before: the store's duplicate check drops none of
    them. *)
Theorem evaluation_feedback_stored_in_full :
  forall (now : Z) (angles : JointAngles Q) (landmarks : list PoseLandmark)
         (state : Store.AppState) (s : Store.ExerciseSession)
         (repNumber : Z) (feedback : list ExerciseFeedback),
    feedback = snd (evaluateSquat now angles landmarks) \/
    feedback = snd (evaluatePullup now angles landmarks) ->
    Store.currentSession state = Some s ->
    repNumber <> 0%Z ->
    (forall fb, In fb (Store.feedback s) ->
                Store.repNumber fb <> repNumber) ->
    exists s',
      Store.currentSession (storeFeedback repNumber feedback state) = Some s'
      /\ Store.feedback s'
         = Store.feedback s ++
           map (fun fb =>
                  {| Store.repNumber := repNumber;
                     Store.message := message fb;
                     Store.type := type fb;
                     Store.priority := priority fb |}) feedback.
Proof.
  intros now angles landmarks state s repNumber feedback Hfrom Hs Hk Hfresh.
  assert (Hnd : NoDup (map message feedback)).
  { destruct (evaluation_messages_distinct now angles landmarks) as [H1 H2].
    destruct Hfrom as [-> | ->]; assumption. }
  destruct (storeFeedback_distinct repNumber feedback Hk state s Hs Hnd)
    as (s' & Hs' & _ & Hfb').
  { intros fb Hin Hr. exfalso. exact (Hfresh fb Hin Hr). }
  exists s'. now split.
Qed.

Lemma evaluation_feedback_stored_in_full_witness :
  let feedback := snd (evaluateSquat 0 (Rep.pose 40 70) []) in
  exists s',
    Store.currentSession (storeFeedback 1 feedback Store.freshSquatSession)
    = Some s'
    /\ Store.feedback s'
       = [] ++
         map (fun fb =>
                {| Store.repNumber := 1%Z;
                   Store.message := message fb;
                   Store.type := type fb;
                   Store.priority := priority fb |}) feedback.
Proof.
  refine (evaluation_feedback_stored_in_full 0 (Rep.pose 40 70) []
            Store.freshSquatSession _ 1 _ (or_introl eq_refl) eq_refl _ _).
  - discriminate.
  - intros fb [].
Defined.

End EngineFacts.

(** * The store: flags, scores and actions without a session *)

Module StoreMoreFacts.
Import Store.
Local Open Scope Z_scope.

(** ** Flags *)

Lemma existsb_eqb_In (s : string) (seen : list string) :
  existsb (String.eqb s) seen = true <-> In s seen.
Proof.
  rewrite existsb_exists. split.
  - intros (t & Hin & E). apply String.eqb_eq in E. now subst.
  - intros H. exists s. split; [exact H | apply String.eqb_refl].
Qed.

Lemma uniqueInOrder_In (xs : list string) :
  forall (seen : list string) (s : string),
    In s (uniqueInOrder seen xs) <-> In s xs /\ ~ In s seen.
Proof.
  induction xs as [| a rest IH]; intros seen s; cbn [uniqueInOrder].
  - cbn. tauto.
  - destruct (existsb (String.eqb a) seen) eqn:E.
    + apply existsb_eqb_In in E. rewrite IH. cbn [In].
      split; [tauto |]. intros [[-> | H] Hn]; [contradiction | tauto].
    + assert (Hn : ~ In a seen).
      { intros H. apply existsb_eqb_In in H. congruence. }
      cbn [In]. rewrite IH. cbn [In].
      destruct (string_dec a s) as [-> | Hne]; [tauto |].
      split.
      * intros [H | [H1 H2]]; [contradiction | tauto].
      * intros [[H | H] H2]; [contradiction |]. right. tauto.
Qed.

Lemma uniqueInOrder_NoDup (xs : list string) :
  forall (seen : list string), NoDup (uniqueInOrder seen xs).
Proof.
  induction xs as [| a rest IH]; intros seen; cbn [uniqueInOrder].
  - constructor.
  - destruct (existsb (String.eqb a) seen); [apply IH |].
    constructor; [| apply IH].
    rewrite uniqueInOrder_In. cbn [In]. tauto.
Qed.

Lemma uniqueInOrder_fixed (xs : list string) :
  forall (seen : list string),
    NoDup xs -> (forall s, In s xs -> ~ In s seen) ->
    uniqueInOrder seen xs = xs.
Proof.
  induction xs as [| a rest IH]; intros seen Hnd Hfresh;
    cbn [uniqueInOrder]; [reflexivity |].
  inversion Hnd as [| b bs Hnotin Hnd' E]; subst.
  destruct (existsb (String.eqb a) seen) eqn:E.
  - apply existsb_eqb_In in E. exfalso. apply (Hfresh a); [now left | exact E].
  - f_equal. apply IH; [exact Hnd' |].
    intros s Hin [<- | Hs]; [contradiction |].
    apply (Hfresh s); [now right | exact Hs].
Qed.

Lemma uniqueInOrder_known (xs : list string) :
  forall (seen : list string) (flag : string),
    In flag xs \/ In flag seen ->
    uniqueInOrder seen (xs ++ [flag]) = uniqueInOrder seen xs.
Proof.
  induction xs as [| a rest IH]; intros seen flag Hin;
    cbn [app uniqueInOrder].
  - destruct Hin as [[] | Hin].
    apply existsb_eqb_In in Hin. now rewrite Hin.
  - destruct (existsb (String.eqb a) seen) eqn:E.
    + apply IH. destruct Hin as [[-> | Hin] | Hin]; auto.
      right. now apply existsb_eqb_In.
    + f_equal. apply IH.
      destruct Hin as [[-> | Hin] | Hin]; cbn [In]; auto.
Qed.

(** X23.  [addFlag] keeps the session's flags a set: the list after it
    has no flag twice, holds exactly the old flags and the new one, and
    adding the same flag again changes nothing. *)
Theorem addFlag_keeps_a_set :
  forall (flag : string) (state : AppState) (s : ExerciseSession),
    currentSession state = Some s ->
    exists s',
      currentSession (addFlag flag state) = Some s' /\
      NoDup (flags s') /\
      (forall f, In f (flags s') <-> In f (flags s) \/ f = flag) /\
      feedback s' = feedback s /\ repCount s' = repCount s /\
      addFlag flag (addFlag flag state) = addFlag flag state.
Proof.
  intros flag state s Hs. unfold addFlag at 1. rewrite Hs.
  eexists. split; [reflexivity |]. cbn [flags feedback repCount].
  split; [apply uniqueInOrder_NoDup |].
  split.
  - intros f. rewrite uniqueInOrder_In, in_app_iff. cbn [In]. intuition.
  - split; [reflexivity |]. split; [reflexivity |].
    unfold addFlag. rewrite Hs.
    cbn [currentSession with_session flags exercise startTime endTime
           repCount averageScore lastRepScore feedback user
           exerciseSettings].
    rewrite (uniqueInOrder_known (uniqueInOrder [] (flags s ++ [flag]))
               [] flag).
    + rewrite (uniqueInOrder_fixed (uniqueInOrder [] (flags s ++ [flag])) []).
      * reflexivity.
      * apply uniqueInOrder_NoDup.
      * intros f _ [].
    + left. rewrite uniqueInOrder_In, in_app_iff. cbn [In]. intuition.
Qed.

Lemma addFlag_keeps_a_set_witness :
  exists s',
    currentSession (addFlag "Knee valgus detected" freshSquatSession)
    = Some s' /\
    NoDup (flags s') /\
    (forall f, In f (flags s') <->
               In f [] \/ f = "Knee valgus detected"%string) /\
    feedback s' = [] /\ repCount s' = 0 /\
    addFlag "Knee valgus detected"
      (addFlag "Knee valgus detected" freshSquatSession)
    = addFlag "Knee valgus detected" freshSquatSession.
Proof.
  exact (addFlag_keeps_a_set "Knee valgus detected" freshSquatSession _
           eq_refl).
Defined.

(** ** Actions without a session *)

(** X24.  Without a current session, the actions that work on the
    session (ending it, adding feedback or a flag, counting a rep,
    updating the score, clearing feedback or the session) leave the whole
    store exactly as it was. *)
Theorem session_actions_need_a_session :
  forall (a : Action) (state : AppState),
    currentSession state = None ->
    needsSession a = true ->
    dispatch a state = state.
Proof.
  intros a [u es cs] Hnone Hneeds. cbn [currentSession] in Hnone. subst cs.
  destruct a; try discriminate Hneeds; reflexivity.
Qed.

Lemma session_actions_need_a_session_witness :
  dispatch (AAddFeedback "Go deeper" warning None (Some 1)) initialState
  = initialState.
Proof.
  apply (session_actions_need_a_session
           (AAddFeedback "Go deeper" warning None (Some 1)) initialState);
    reflexivity.
Defined.

(** X25.  The three parts of the store do not interfere: only [setUser]
    changes the user, only [updateExerciseSettings] changes the settings
    (the privacy toggle among them), and neither of the two touches the
    current session. *)
Theorem store_parts_are_independent :
  forall (a : Action) (state : AppState),
    (user (dispatch a state) = user state
     \/ exists u, a = ASetUser u) /\
    (exerciseSettings (dispatch a state) = exerciseSettings state
     \/ exists p, a = AUpdateExerciseSettings p) /\
    (needsSession a = true \/ (exists now ex, a = AStartSession now ex)
     \/ currentSession (dispatch a state) = currentSession state).
Proof.
  intros a state.
  destruct a; cbn [dispatch needsSession];
    (split; [| split]);
    try (right; eexists; reflexivity);
    try (right; left; eexists; eexists; reflexivity);
    try (right; right; reflexivity);
    try (left; reflexivity);
    left; unfold addFeedback, updateScore;
    destruct (currentSession state); try reflexivity;
    destruct (existsb _ _); reflexivity.
Qed.

(** ** The running average *)

Lemma recordRep_session (score : Q) (state : AppState) (s : ExerciseSession) :
  currentSession state = Some s ->
  0 <= repCount s ->
  exists s',
    currentSession (recordRep score state) = Some s' /\
    repCount s' = repCount s + 1 /\
    lastRepScore s' = score /\
    feedback s' = feedback s /\
    (averageScore s' * (inject_Z (repCount s') + 1)
     == averageScore s * (inject_Z (repCount s) + 1) + score)%Q.
Proof.
  intros Hs Hrc. unfold recordRep, incrementRep, updateScore. rewrite Hs.
  cbn [currentSession with_session repCount averageScore].
  assert (E : (repCount s + 1 =? 0) = false) by (apply Z.eqb_neq; lia).
  rewrite E. eexists. split; [reflexivity |].
  cbn [repCount lastRepScore feedback averageScore].
  repeat split.
  rewrite inject_Z_plus. change (inject_Z 1) with 1%Q.
  assert (Hn : ~ (inject_Z (repCount s) + 1 + 1 == 0)%Q).
  { rewrite Zle_Qle in Hrc. change (inject_Z 0) with 0%Q in Hrc.
    intros H. Lqa.lra. }
  field. exact Hn.
Qed.

Lemma last_cons_default (l : list Q) :
  forall (a d : Q), last (a :: l) d = last l a.
Proof.
  induction l as [| b rest IH]; intros a d; [reflexivity |].
  change (last (a :: b :: rest) d) with (last (b :: rest) d).
  now rewrite !IH.
Qed.

(** X26.  The session average as the record page maintains it (count the
    rep, then update the score): after [k] reps from a new session the
    rep count is [k], the last score is kept, and the average is the sum
    of the [k] scores divided by [k + 1], not by [k]. *)
Theorem recordReps_average :
  forall (now : Z) (exercise0 : string) (state : AppState) (scores : list Q),
    exists s,
      currentSession (recordReps scores (startSession now exercise0 state))
      = Some s /\
      repCount s = Z.of_nat (List.length scores) /\
      (averageScore s
       == sumScores scores / (inject_Z (Z.of_nat (List.length scores)) + 1))%Q
      /\ lastRepScore s = last scores 0%Q.
Proof.
  intros now exercise0 state scores.
  assert (Hgen : forall (st : AppState) (s0 : ExerciseSession),
             currentSession st = Some s0 -> 0 <= repCount s0 ->
             exists s,
               currentSession (recordReps scores st) = Some s /\
               repCount s = repCount s0 + Z.of_nat (List.length scores) /\
               (averageScore s * (inject_Z (repCount s) + 1)
                == averageScore s0 * (inject_Z (repCount s0) + 1)
                   + sumScores scores)%Q /\
               lastRepScore s = last scores (lastRepScore s0)).
  { unfold recordReps.
    induction scores as [| score rest IH]; intros st s0 Hs0 Hrc.
    - exists s0. cbn. split; [exact Hs0 |]. split; [lia |].
      split; [ring | reflexivity].
    - cbn [fold_left].
      destruct (recordRep_session score st s0 Hs0 Hrc)
        as (s1 & Hs1 & Hrc1 & Hlast1 & _ & Havg1).
      destruct (IH _ s1 Hs1 ltac:(lia)) as (s & Hs & Hrcs & Havg & Hlast).
      exists s. split; [exact Hs |].
      split; [rewrite Hrcs, Hrc1; cbn [List.length]; lia |].
      split.
      + rewrite Havg, Havg1. cbn [sumScores]. ring.
      + rewrite Hlast, Hlast1. symmetry. apply last_cons_default. }
  destruct (Hgen (startSession now exercise0 state) _ eq_refl ltac:(cbn; lia))
    as (s & Hs & Hrc & Havg & Hlast).
  cbn [repCount averageScore lastRepScore] in Hrc, Havg, Hlast.
  exists s. split; [exact Hs |]. split; [exact Hrc |].
  split; [| exact Hlast].
  rewrite Hrc in Havg. rewrite Z.add_0_l in Havg.
  set (n := (inject_Z (Z.of_nat (List.length scores)) + 1)%Q) in *.
  assert (Hn : ~ (n == 0)%Q).
  { unfold n. pose proof (Nat2Z.is_nonneg (List.length scores)) as H.
    rewrite Zle_Qle in H. change (inject_Z 0) with 0%Q in H.
    intros E. Lqa.lra. }
  transitivity (averageScore s * n / n)%Q;
    [symmetry; apply Qdiv_mult_l; exact Hn |].
  rewrite Havg. unfold Qdiv. ring.
Qed.

End StoreMoreFacts.

(** * The template tips *)

Module AssessFacts.
Import Assess.
Local Open Scope Q_scope.

(** X27.  The template always gives exactly three tips.  The third one
    is decided by the flags: "Control the movement and avoid momentum"
    when swinging was flagged, also if knee valgus was flagged too;
    "Push your knees out to align with your toes" when only knee valgus
    was. *)
Theorem templateTips_three_tips :
  forall (request : AssessmentRequest),
    let tips := templateTips request in
    List.length tips = 3%nat /\
    nth 2 tips ""%string
    = (if includes "Swinging detected" (flags request)
       then "Control the movement and avoid momentum"
       else if includes "Knee valgus detected" (flags request)
            then "Push your knees out to align with your toes"
            else if Qlt_bool (score request) 60
                 then "Consider reducing range of motion initially"
                 else if Qlt_bool (score request) 80
                      then "Gradually increase difficulty"
                      else "Great job on technique consistency")%string.
Proof.
  intros request tips. subst tips. unfold templateTips.
  set (tips0 := if Qlt_bool (score request) 60 then _ else _).
  assert (H0 : exists a b, tips0
                 = [a; b;
                    (if Qlt_bool (score request) 60
                     then "Consider reducing range of motion initially"
                     else if Qlt_bool (score request) 80
                          then "Gradually increase difficulty"
                          else "Great job on technique consistency")%string]).
  { subst tips0.
    destruct (Qlt_bool (score request) 60), (Qlt_bool (score request) 80);
      eexists; eexists; reflexivity. }
  destruct H0 as (a & b & H0). rewrite H0. clear H0 tips0.
  set (c := (if Qlt_bool (score request) 60 then _ else _)%string).
  clearbody c.
  cbv zeta.
  set (tips1 := if String.eqb (exercise request) "squat" then _ else _).
  assert (H1 : exists a' b', tips1 = [a'; b'; c]).
  { subst tips1.
    destruct (String.eqb (exercise request) "squat"),
      (String.eqb (exercise request) "pullup"),
      (Qlt_bool (hipAngle (angles request)) 60),
      (Qlt_bool 20 (trunkAngle (angles request))),
      (Qlt_bool 30 (shoulderAngle (angles request))),
      (Qlt_bool 120 (elbowAngle (angles request)));
      eexists; eexists; reflexivity. }
  destruct H1 as (a' & b' & ->).
  destruct (includes "Knee valgus detected" (flags request)),
    (includes "Swinging detected" (flags request)); split; reflexivity.
Qed.

End AssessFacts.
